(** * DeepL auto-translator for JSON files: a shallow embedding

    Source: Projects/DeepL-MTool-Autotranslator/deepl_translator.py

    The program reads a flat JSON object, cuts its keys into batches, sends the
    strings that do not look translated to the DeepL service, and writes a JSON
    object that maps every key to its translation.

    Python values are embedded as follows.
    - [str] is a list of Unicode code points ([pystr]).
    - A parsed JSON document is a [json] tree; a JSON object is a Python [dict],
      which keeps its keys in insertion order, so it is an association list
      with the operations [dict_get], [dict_set] and [dict_update].
    - A method that prints, sleeps, talks to the network or touches files is a
      function from a [world] to an [outcome] and a new [world]; an exception
      is the [Raised] outcome. *)

From Stdlib Require Import Ascii String.
From Stdlib Require Import List NArith ZArith QArith Bool Lia.
Import ListNotations.

Set Warnings "-register-all".
Close Scope Q_scope.

Local Open Scope list_scope.

(* ================================================================= *)
(** ** Python strings *)

Definition pystr := list N.

(** A string literal of the source that holds ASCII characters only. *)
Definition lit (s : string) : pystr :=
  map N_of_ascii (list_ascii_of_string s).

(** [a == b] on strings. *)
Fixpoint pystr_eqb (a b : pystr) : bool :=
  match a, b with
  | [], [] => true
  | x :: a', y :: b' => (x =? y)%N && pystr_eqb a' b'
  | _, _ => false
  end.

(** [text.encode('ascii')] succeeds exactly when every code point is below 128;
    otherwise it raises UnicodeEncodeError. *)
Definition encodes_ascii (text : pystr) : bool :=
  forallb (fun c => (c <? 128)%N) text.

(** [str.lower] maps the string position by position.  An ASCII code point is
    mapped as written here.  The image of a code point above 127 comes from the
    Unicode database of the interpreter, which is not part of this repository:
    it is the parameter [to_lower_full], given the characters before and after
    the position because the image of U+03A3 depends on them, and it is a
    string because one code point can expand into several. *)
Class UnicodeData := { to_lower_full : pystr -> N -> pystr -> pystr }.

Definition ascii_lower (c : N) : N :=
  if ((65 <=? c) && (c <=? 90))%N then (c + 32)%N else c.

Section Heuristic.
Context {U : UnicodeData}.

Fixpoint lower_from (before s : pystr) : pystr :=
  match s with
  | [] => []
  | c :: after =>
      (if (c <? 128)%N then [ascii_lower c] else to_lower_full before c after)
        ++ lower_from (before ++ [c]) after
  end.

Definition lower (s : pystr) : pystr := lower_from [] s.

(** [needle in haystack] on strings: substring search. *)
Fixpoint starts_with (s prefix : pystr) {struct prefix} : bool :=
  match prefix, s with
  | [], _ => true
  | _ :: _, [] => false
  | p :: prefix', c :: s' => (p =? c)%N && starts_with s' prefix'
  end.

Fixpoint str_contains (haystack needle : pystr) : bool :=
  starts_with haystack needle ||
  match haystack with
  | [] => false
  | _ :: rest => str_contains rest needle
  end.

Definition english_patterns : list pystr :=
  map lit
    [ "Scene"; "Attack"; "Fire"; "Ice"; "Thunder"; "Water"; "Wind";
      "Heal"; "Magic"; "Battle"; "Save"; "Load"; "Menu"; "Title";
      "false"; "true"; "ON"; "OFF"; "Graphics"; "Data"; "Window" ]%string.

(** [is_already_translated]: the ASCII test returns first; the pattern loop
    runs only after UnicodeEncodeError was caught. *)
Definition is_already_translated (text : pystr) : bool :=
  if encodes_ascii text then true
  else existsb (fun pattern => str_contains (lower text) (lower pattern))
         english_patterns.

End Heuristic.

(* ================================================================= *)
(* ================================================================= *)
(** ** JSON values and dictionaries *)

(** The value [json.load] and [response.json()] return.  An integer literal
    becomes a Python [int], any other number a [float]; a float is given by
    its exact value.  (The literals NaN and Infinity, which [json.load] also
    accepts, are not JSON and not part of this type.) *)
Inductive json : Type :=
| JNull
| JBool (b : bool)
| JInt (z : Z)
| JFloat (q : Q)
| JStr (s : pystr)
| JArr (items : list json)
| JObj (members : list (pystr * json)).

(** A [dict] with string keys, in insertion order. *)
Definition pydict := list (pystr * json).

Definition dict_keys (d : pydict) : list pystr := map fst d.

Fixpoint dict_get (d : pydict) (key : pystr) : option json :=
  match d with
  | [] => None
  | (k, v) :: rest => if pystr_eqb k key then Some v else dict_get rest key
  end.

(** [d[key] = value]: an existing key keeps its place, a new key goes last. *)
Fixpoint dict_set (d : pydict) (key : pystr) (value : json) : pydict :=
  match d with
  | [] => [(key, value)]
  | (k, v) :: rest =>
      if pystr_eqb k key then (k, value) :: rest
      else (k, v) :: dict_set rest key value
  end.

(** [d.update(other)] *)
Definition dict_update (d other : pydict) : pydict :=
  fold_left (fun acc kv => dict_set acc (fst kv) (snd kv)) other d.

(** [{text: text for text in texts}] *)
Definition identity_mapping (texts : list pystr) : pydict :=
  fold_left (fun acc text => dict_set acc text (JStr text)) texts [].

(** Every string of the value, at any depth, is ASCII: then so is the text
    [str] and [repr] give for it. *)
Fixpoint ascii_json (v : json) : bool :=
  match v with
  | JStr s => encodes_ascii s
  | JArr items => forallb ascii_json items
  | JObj members =>
      forallb (fun kv => encodes_ascii (fst kv) && ascii_json (snd kv)) members
  | _ => true
  end.

(** [text.encode('utf-8')] succeeds exactly when the string holds no
    surrogate code point (U+D800 to U+DFFF). *)
Definition encodes_utf8 (text : pystr) : bool :=
  forallb (fun c => negb ((0xD800 <=? c) && (c <=? 0xDFFF))%N) text.

(** Every string of the value, at any depth, can be encoded as UTF-8:
    [json.dump(..., ensure_ascii=False)] writes strings as they are, so these
    are the values a file opened with [encoding='utf-8'] takes. *)
Fixpoint utf8_json (v : json) : bool :=
  match v with
  | JStr s => encodes_utf8 s
  | JArr items => forallb utf8_json items
  | JObj members =>
      forallb (fun kv => encodes_utf8 (fst kv) && utf8_json (snd kv)) members
  | _ => true
  end.

(* ================================================================= *)
(** ** Exceptions and outcomes *)

(** The subclasses of [requests.exceptions.RequestException] the program can
    meet: a failed connection, [InvalidHeader] for a header value requests
    refuses, [HTTPError] from [raise_for_status], and the [JSONDecodeError] of
    requests (2.27 and later) from [response.json()]. *)
Inductive request_failure : Type :=
| ConnectionError
| InvalidHeader
| HTTPError (status : Z)
| InvalidJSON.

(** [UnicodeEncodeError] and [UnicodeDecodeError] are subclasses of
    [ValueError], and [FileNotFoundError] of [OSError]; the program has no
    except clause for [ValueError] or [OSError], so the constructors below
    stand for the other instances of these two. *)
Inductive exn : Type :=
| SystemExit (code : Z)
| FileNotFoundError
| JSONDecodeError
| OSError
| ValueError
| UnicodeEncodeError
| UnicodeDecodeError
| OverflowError
| RecursionError
| KeyError
| IndexError
| TypeError
| AttributeError
| RequestException (why : request_failure).

Inductive outcome (A : Type) : Type :=
| Returned (a : A)
| Raised (e : exn).

Arguments Returned {A} a.
Arguments Raised {A} e.

(** [obj[key]] with a string key. *)
Definition getitem_str (obj : json) (key : pystr) : outcome json :=
  match obj with
  | JObj d =>
      match dict_get d key with
      | Some v => Returned v
      | None => Raised KeyError
      end
  | _ => Raised TypeError
  end.

(** [obj[i]] with a non-negative integer.  A JSON object has string keys only,
    so an integer is never one of them; a string yields its i-th character. *)
Definition getitem_int (obj : json) (i : nat) : outcome json :=
  match obj with
  | JArr items =>
      match nth_error items i with
      | Some v => Returned v
      | None => Raised IndexError
      end
  | JStr s =>
      match nth_error s i with
      | Some c => Returned (JStr [c])
      | None => Raised IndexError
      end
  | JObj _ => Raised KeyError
  | _ => Raised TypeError
  end.

(** [len(obj)] *)
Definition py_len (obj : json) : outcome nat :=
  match obj with
  | JObj d => Returned (length d)
  | JArr items => Returned (length items)
  | JStr s => Returned (length s)
  | _ => Raised TypeError
  end.

(** [obj.keys()] exists on a dict only. *)
Definition keys_method (obj : json) : outcome (list pystr) :=
  match obj with
  | JObj d => Returned (dict_keys d)
  | _ => Raised AttributeError
  end.

(** A value used where Python wants an integer ([bool] is a subclass of
    [int]). *)
Definition as_index (v : json) : outcome Z :=
  match v with
  | JInt z => Returned z
  | JBool b => Returned (if b then 1 else 0)%Z
  | _ => Raised TypeError
  end.

(** [s.endswith(suffix)] *)
Definition endswith (s suffix : pystr) : bool :=
  pystr_eqb (skipn (length s - length suffix) s) suffix.

(** [len(range(start, stop, step))] for a non-zero step. *)
Definition range_length (start stop step : Z) : nat :=
  if (0 <? step)%Z then
    if (start <? stop)%Z then Z.to_nat ((stop - start - 1) / step + 1) else 0
  else
    if (stop <? start)%Z then Z.to_nat ((start - stop - 1) / (- step) + 1) else 0.

(** [range(start, stop, step)]; a zero step raises ValueError. *)
Definition py_range (start stop step : Z) : outcome (list Z) :=
  if (step =? 0)%Z then Raised ValueError
  else Returned (map (fun k => (start + Z.of_nat k * step)%Z)
                     (seq 0 (range_length start stop step))).

(** [l[lo:hi]]: a negative bound counts from the end, and both are clamped
    to the list. *)
Definition slice_bound {A : Type} (l : list A) (x : Z) : nat :=
  let len := Z.of_nat (length l) in
  Z.to_nat (if (x <? 0)%Z then Z.max 0 (x + len) else Z.min x len).

Definition py_slice {A : Type} (l : list A) (lo hi : Z) : list A :=
  firstn (slice_bound l hi - slice_bound l lo) (skipn (slice_bound l lo) l).

(* ================================================================= *)
(** ** HTTP header values *)

(** The characters the regular expressions of Python call white space
    ([\s] on [str]). *)
Definition py_isspace (c : N) : bool :=
  (((0x09 <=? c) && (c <=? 0x0D)) || ((0x1C <=? c) && (c <=? 0x20))
   || (c =? 0x85) || (c =? 0xA0) || (c =? 0x1680)
   || ((0x2000 <=? c) && (c <=? 0x200A))
   || (c =? 0x2028) || (c =? 0x2029) || (c =? 0x202F) || (c =? 0x205F)
   || (c =? 0x3000))%N.

Definition line_break (c : N) : bool := ((c =? 10) || (c =? 13))%N.

(** The string without one final line feed, if it has one. *)
Definition chomp (s : pystr) : pystr :=
  if endswith s [10%N] then firstn (length s - 1) s else s.

(** The test requests (2.28 and later) applies to a header value when it
    prepares a request: the value must match [^\S[^\r\n]*$|^$], where [$]
    also matches before a final line feed.  A value that fails it raises
    [InvalidHeader]. *)
Definition valid_header_value (value : pystr) : bool :=
  match value with
  | [] => true
  | c :: rest =>
      pystr_eqb value [10%N]
      || (negb (py_isspace c) && negb (existsb line_break (chomp rest)))
  end.

(** [text.encode('latin-1')], by which [http.client] turns a header value
    into bytes, succeeds exactly when every code point is below 256. *)
Definition encodes_latin1 (text : pystr) : bool :=
  forallb (fun c => (c <? 256)%N) text.

(** The test [http.client] applies to the bytes of a header value, a search
    for [\n(?![ \t])|\r(?![ \t\n])]: a line feed not followed by a space or a
    tab, or a carriage return not followed by one of these or a line feed.
    A value that holds one raises ValueError. *)
Fixpoint illegal_header_value (value : pystr) : bool :=
  match value with
  | [] => false
  | c :: rest =>
      (if (c =? 10)%N then
         match rest with
         | n :: _ => negb ((n =? 32) || (n =? 9))%N
         | [] => true
         end
       else if (c =? 13)%N then
         match rest with
         | n :: _ => negb ((n =? 32) || (n =? 9) || (n =? 10))%N
         | [] => true
         end
       else false)
      || illegal_header_value rest
  end.

(* ================================================================= *)
(** ** The world: files, the remote service, and what the program did *)

(** The object of [requests.post(self.api_url, headers=headers, json=payload)]:
    the URL, the headers and the four entries of the payload. *)
Record request : Type := mkRequest {
  req_url : pystr;
  req_authorization : pystr;
  req_content_type : pystr;
  req_text : list pystr;
  req_source_lang : json;
  req_target_lang : json;
  req_model_type : pystr
}.

(** Why [json.load] or [json.loads] gives no value for a text that is JSON:
    an integer literal of more than 4300 digits (ValueError, CPython 3.11) or
    a nesting too deep for the interpreter's stack (RecursionError). *)
Inductive parse_failure : Type :=
| OverlongInteger
| NestedTooDeep.

Definition parse_failure_exn (why : parse_failure) : exn :=
  match why with
  | OverlongInteger => ValueError
  | NestedTooDeep => RecursionError
  end.

(** The response object: its status code and its body.  [body] is [None]
    when [response.json()] gives no value; [defect] then says why: [None]
    when the body is not JSON, the failure of the parser otherwise. *)
Record response : Type := mkResponse {
  status_code : Z;
  body : option json;
  defect : option parse_failure
}.

(** The lines the program prints, before formatting. *)
Inductive message : Type :=
| MsgBanner
| MsgRule
| MsgNotFound (path : json)
| MsgInvalidJSON (path : json)
| MsgTranslated (original_text : pystr) (translated_text : json)
| MsgBatchError (e : exn)
| MsgStarting (entries : nat) (batch_size : json)
| MsgProgress (processed total : nat) (batch_num total_batches : Z)
| MsgComplete (path : json)
| MsgTotalEntries (processed : nat)
| MsgTotalCalls (calls : Z).

(** The text of the line is ASCII whatever the library and the operating
    system contribute: the fixed lines, the lines that hold numbers only, and
    the lines whose strings are ASCII.  The text of an exception is not the
    program's, so nothing is said of it. *)
Definition ascii_line (line : message) : bool :=
  match line with
  | MsgBanner | MsgRule => true
  | MsgNotFound path | MsgInvalidJSON path | MsgComplete path => ascii_json path
  | MsgTranslated original_text translated_text =>
      encodes_ascii original_text && ascii_json translated_text
  | MsgBatchError _ => false
  | MsgStarting _ size => ascii_json size
  | MsgProgress _ _ _ _ | MsgTotalEntries _ | MsgTotalCalls _ => true
  end.

(** [EvPost] is a call of [requests.post]; [EvWrite] is a file opened for
    writing and filled with the dictionary; [EvTruncate] is a file opened for
    writing, and so emptied, whose dump did not come to its end. *)
Inductive event : Type :=
| EvPrint (line : message)
| EvPost (req : request)
| EvSleep (seconds : json)
| EvWrite (path : pystr) (content : pydict)
| EvTruncate (path : pystr).

(** Why [open(path, 'r')] or [json.load] fails on a path that names
    something, other than by JSONDecodeError: the file cannot be opened
    (PermissionError, IsADirectoryError: instances of OSError), the path
    holds a NUL character (ValueError) or a surrogate the file system
    encoding refuses (UnicodeEncodeError), the content is not UTF-8
    (UnicodeDecodeError), or the parser gives up. *)
Inductive load_failure : Type :=
| NoAccess
| NulInPath
| UnencodablePath
| NotUtf8
| Unparsed (why : parse_failure).

Definition load_failure_exn (why : load_failure) : exn :=
  match why with
  | NoAccess => OSError
  | NulInPath => ValueError
  | UnencodablePath => UnicodeEncodeError
  | NotUtf8 => UnicodeDecodeError
  | Unparsed p => parse_failure_exn p
  end.

(** The content of a file, as [open] and [json.load] see it. *)
Inductive file : Type :=
| NotJson
| Unreadable (why : load_failure)
| Json (document : json).

(** Why writing a path fails, whatever is written: there is no such
    directory, or the path is empty (FileNotFoundError); the file cannot be
    opened for writing (PermissionError, IsADirectoryError); the path holds a
    NUL character or a surrogate; or the file is opened, and so emptied, and
    the device then takes no more data (OSError). *)
Inductive write_failure : Type :=
| NoSuchDirectory
| WriteDenied
| NulInWritePath
| UnencodableWritePath
| DeviceFull.

Definition write_failure_exn (why : write_failure) : exn :=
  match why with
  | NoSuchDirectory => FileNotFoundError
  | WriteDenied => OSError
  | NulInWritePath => ValueError
  | UnencodableWritePath => UnicodeEncodeError
  | DeviceFull => OSError
  end.

(** Why the platform does not carry out a sleep whose length is in range:
    the deadline lies beyond what the kernel accepts (OSError), or the length
    is the largest float in range, whose conversion to a number of
    nanoseconds wraps to a negative one (ValueError). *)
Inductive clock_failure : Type :=
| DeadlineTooFar
| DurationWrapped.

Definition clock_failure_exn (why : clock_failure) : exn :=
  match why with
  | DeadlineTooFar => OSError
  | DurationWrapped => ValueError
  end.

(** What the program finds around it.
    - [files]: the files that can be read, by path.
    - [unwritable]: the paths that cannot be written, and why.
    - [remote]: what becomes of a call of [requests.post], which may depend
      on everything that happened before: [None] when the call ends without
      a response (the connection cannot be opened, or it breaks once the
      request is written); [Some r] when the connection opens and the
      response to the request, once written, is [r].
    - [clock]: whether the platform refuses a sleep, given what happened
      before.
    - [stdout_accepts]: whether [sys.stdout] can encode a line that is not
      known to be ASCII.
    - [trace]: the events so far, in the order they happened. *)
Record world : Type := mkWorld {
  files : pystr -> option file;
  unwritable : pystr -> option write_failure;
  remote : list event -> request -> option response;
  clock : list event -> json -> option clock_failure;
  stdout_accepts : message -> bool;
  trace : list event
}.

Definition M (A : Type) : Type := world -> outcome A * world.

Definition ret {A : Type} (a : A) : M A := fun w => (Returned a, w).

Definition raise {A : Type} (e : exn) : M A := fun w => (Raised e, w).

Definition bind {A B : Type} (m : M A) (k : A -> M B) : M B :=
  fun w =>
    match m w with
    | (Returned a, w') => k a w'
    | (Raised e, w') => (Raised e, w')
    end.

Definition lift {A : Type} (o : outcome A) : M A := fun w => (o, w).

Declare Scope py_scope.
Delimit Scope py_scope with py.
Notation "x <- m ;; k" := (bind m (fun x => k))
  (at level 61, m at next level, right associativity) : py_scope.
Notation "m ;; k" := (bind m (fun _ => k))
  (at level 61, right associativity) : py_scope.
Local Open Scope py_scope.

(** [try: body except ...]: [handlers] gives the clause that catches the
    exception, if one does; any other exception goes on to the caller. *)
Definition try_except {A : Type} (body : M A) (handlers : exn -> option (M A))
  : M A :=
  fun w =>
    match body w with
    | (Returned a, w') => (Returned a, w')
    | (Raised e, w') =>
        match handlers e with
        | Some handler => handler w'
        | None => (Raised e, w')
        end
    end.

(** The world after some more events. *)
Definition record_events (w : world) (events : list event) : world :=
  {| files := files w; unwritable := unwritable w; remote := remote w;
     clock := clock w; stdout_accepts := stdout_accepts w;
     trace := trace w ++ events |}.

Definition emit (e : event) : M unit :=
  fun w => (Returned tt, record_events w [e]).

(** [sys.stdout] shows the line: an ASCII text it always can, any other text
    when its encoding and error handler allow. *)
Definition prints (w : world) (line : message) : bool :=
  ascii_line line || stdout_accepts w line.

(** [print(line)]: a line [sys.stdout] cannot encode raises
    UnicodeEncodeError and nothing of it is shown. *)
Definition print (line : message) : M unit :=
  fun w =>
    if prints w line then (Returned tt, record_events w [EvPrint line])
    else (Raised UnicodeEncodeError, w).

(** [sys.exit(code)] raises SystemExit. *)
Definition sys_exit {A : Type} (code : Z) : M A := raise (SystemExit code).

(** What [time.sleep] (CPython 3.11) raises before it sleeps.  A value that
    is not a number raises TypeError.  The length becomes a number of
    nanoseconds in a signed 64-bit integer, and a length that does not fit
    raises OverflowError: for an [int] the product with 10^9 is exact; for a
    [float] it is rounded to the nearest float, so that the lengths in range
    are those from -2^63 - 1024 to 2^63 + 1024 nanoseconds.  A negative
    length in range raises ValueError. *)
Definition sleep_refusal (seconds : json) : option exn :=
  let of_int (z : Z) :=
    let ns := (z * 10 ^ 9)%Z in
    if ((ns <? - 2 ^ 63) || (2 ^ 63 - 1 <? ns))%Z then Some OverflowError
    else if (z <? 0)%Z then Some ValueError
    else None in
  match seconds with
  | JInt z => of_int z
  | JBool b => of_int (if b then 1 else 0)%Z
  | JFloat q =>
      let ns := (Qnum q * 10 ^ 9)%Z in
      let d := Z.pos (Qden q) in
      if ((ns <? (- 2 ^ 63 - 1024) * d) || ((2 ^ 63 + 1024) * d <? ns))%Z
      then Some OverflowError
      else if (Qnum q <? 0)%Z then Some ValueError
      else None
  | _ => Some TypeError
  end.

(** [time.sleep(seconds)] *)
Definition time_sleep (seconds : json) : M unit :=
  fun w =>
    match sleep_refusal seconds with
    | Some e => (Raised e, w)
    | None =>
        match clock w (trace w) seconds with
        | Some why => (Raised (clock_failure_exn why), w)
        | None => (Returned tt, record_events w [EvSleep seconds])
        end
    end.

(** [requests.post].  requests checks the header values when it prepares the
    request; the connection is opened next (the URL is https), and a
    connection that cannot be opened is a RequestException whatever the
    headers are; the headers are encoded and written only then, by
    [http.client], so that a value that cannot be written raises
    UnicodeEncodeError or ValueError with nothing sent, and neither is a
    RequestException.  The call sets no timeout: a call that never ends has
    no outcome, and no world describes one. *)
Definition requests_post (req : request) : M response :=
  fun w =>
    let w' := record_events w [EvPost req] in
    if negb (valid_header_value (req_authorization req))
    then (Raised (RequestException InvalidHeader), w')
    else
      match remote w (trace w) req with
      | None => (Raised (RequestException ConnectionError), w')
      | Some r =>
          if negb (encodes_latin1 (req_authorization req))
          then (Raised UnicodeEncodeError, w')
          else if illegal_header_value (req_authorization req)
          then (Raised ValueError, w')
          else (Returned r, w')
      end.

(** [response.raise_for_status()] raises HTTPError for a 4xx or 5xx status. *)
Definition raise_for_status (r : response) : M unit :=
  if ((400 <=? status_code r) && (status_code r <? 600))%Z
  then raise (RequestException (HTTPError (status_code r)))
  else ret tt.

(** [response.json()]: requests turns the JSONDecodeError of a body that is
    not JSON into its own, a RequestException, and lets any other exception
    of the parser through. *)
Definition response_json (r : response) : M json :=
  match body r with
  | Some document => ret document
  | None =>
      match defect r with
      | None => raise (RequestException InvalidJSON)
      | Some why => raise (parse_failure_exn why)
      end
  end.

(** [with open(path, 'r', encoding='utf-8') as f: json.load(f)].  An integer
    would name a file descriptor; descriptors are not part of [files], so
    opening one fails as for a closed descriptor. *)
Definition load_json_file (path : json) : M json :=
  match path with
  | JStr p =>
      fun w =>
        match files w p with
        | None => (Raised FileNotFoundError, w)
        | Some NotJson => (Raised JSONDecodeError, w)
        | Some (Unreadable why) => (Raised (load_failure_exn why), w)
        | Some (Json document) => (Returned document, w)
        end
  | JInt _ | JBool _ => raise OSError
  | _ => raise TypeError
  end.

(** The world after [open(p, 'w')] emptied the file and the dump stopped
    short: what the file holds is not JSON. *)
Definition truncated (w : world) (p : pystr) : world :=
  {| files := fun q => if pystr_eqb q p then Some NotJson else files w q;
     unwritable := unwritable w; remote := remote w; clock := clock w;
     stdout_accepts := stdout_accepts w;
     trace := trace w ++ [EvTruncate p] |}.

(** The world after the file was opened for writing and the dump came to its
    end. *)
Definition written (w : world) (p : pystr) (content : pydict) : world :=
  {| files := fun q => if pystr_eqb q p then Some (Json (JObj content))
                       else files w q;
     unwritable := unwritable w; remote := remote w; clock := clock w;
     stdout_accepts := stdout_accepts w;
     trace := trace w ++ [EvWrite p content] |}.

(** [with open(path, 'w', encoding='utf-8') as f:
       json.dump(content, f, ensure_ascii=False, indent=4)].
    A path that cannot be opened raises and changes nothing.  Opening the
    file empties it; the dump then writes the text piece by piece, and a
    string that holds a surrogate raises UnicodeEncodeError when its piece is
    written, which leaves the file with the pieces before it. *)
Definition dump_json_file (path : json) (content : pydict) : M unit :=
  match path with
  | JStr p =>
      fun w =>
        match unwritable w p with
        | Some DeviceFull => (Raised (write_failure_exn DeviceFull), truncated w p)
        | Some why => (Raised (write_failure_exn why), w)
        | None =>
            if utf8_json (JObj content) then (Returned tt, written w p content)
            else (Raised UnicodeEncodeError, truncated w p)
        end
  | JInt _ | JBool _ => raise OSError
  | _ => raise TypeError
  end.

(* ================================================================= *)
(** ** class DeepLTranslator *)

Record DeepLTranslator : Type := mkTranslator {
  config : json;
  api_key : pystr;
  source_lang : json;
  target_lang : json;
  delay : json;
  batch_size : json;
  api_url : pystr
}.

Definition placeholder_key : pystr := lit "YOUR_DEEPL_API_KEY_HERE".
Definition free_api_url : pystr := lit "https://api-free.deepl.com/v2/translate".
Definition paid_api_url : pystr := lit "https://api.deepl.com/v2/translate".
Definition free_suffix : pystr := lit ":fx".

(** [value == "..."] against a string literal. *)
Definition equals_str (value : json) (s : pystr) : bool :=
  match value with
  | JStr v => pystr_eqb v s
  | _ => false
  end.

(** [load_config]: the two except clauses catch FileNotFoundError and
    json.JSONDecodeError; the ValueError of the placeholder test is neither. *)
Definition load_config (config_file : pystr) : M json :=
  try_except
    (cfg <- load_json_file (JStr config_file) ;;
     key <- lift (getitem_str cfg (lit "deepl_api_key")) ;;
     if equals_str key placeholder_key then raise ValueError else ret cfg)
    (fun e =>
       match e with
       | FileNotFoundError =>
           Some (print (MsgNotFound (JStr config_file)) ;; sys_exit 1)
       | JSONDecodeError =>
           Some (print (MsgInvalidJSON (JStr config_file)) ;; sys_exit 1)
       | _ => None
       end).

(** The URL [__init__] leaves in [self.api_url]. *)
Definition select_api_url (key : pystr) : pystr :=
  if negb (endswith key free_suffix) then paid_api_url else free_api_url.

(** [__init__]; [endswith] is a method of [str] only. *)
Definition init (config_file : pystr) : M DeepLTranslator :=
  cfg <- load_config config_file ;;
  key <- lift (getitem_str cfg (lit "deepl_api_key")) ;;
  src <- lift (getitem_str cfg (lit "source_language")) ;;
  tgt <- lift (getitem_str cfg (lit "target_language")) ;;
  dly <- lift (getitem_str cfg (lit "delay_between_requests")) ;;
  bsz <- lift (getitem_str cfg (lit "batch_size")) ;;
  match key with
  | JStr k =>
      ret {| config := cfg; api_key := k; source_lang := src;
             target_lang := tgt; delay := dly; batch_size := bsz;
             api_url := select_api_url k |}
  | _ => raise AttributeError
  end.

Section Translator.
Context {U : UnicodeData}.
Variable self : DeepLTranslator.

(** The first loop of [translate_batch]. *)
Fixpoint filter_loop (texts : list pystr) (i : nat)
    (texts_to_translate : list pystr) (text_indices : list nat)
  : list pystr * list nat :=
  match texts with
  | [] => (texts_to_translate, text_indices)
  | text :: rest =>
      if is_already_translated text
      then filter_loop rest (S i) texts_to_translate text_indices
      else filter_loop rest (S i) (texts_to_translate ++ [text])
                       (text_indices ++ [i])
  end.

(** The second loop of [translate_batch]; it returns the dictionary and the
    final [translation_index]. *)
Fixpoint merge_loop (translations : json) (texts : list pystr)
    (translation_results : pydict) (translation_index : nat)
  : M (pydict * nat) :=
  match texts with
  | [] => ret (translation_results, translation_index)
  | original_text :: rest =>
      if is_already_translated original_text then
        merge_loop translations rest
          (dict_set translation_results original_text (JStr original_text))
          translation_index
      else
        item <- lift (getitem_int translations translation_index) ;;
        translated_text <- lift (getitem_str item (lit "text")) ;;
        print (MsgTranslated original_text translated_text) ;;
        merge_loop translations rest
          (dict_set translation_results original_text translated_text)
          (S translation_index)
  end.

Definition build_request (texts_to_translate : list pystr) : request :=
  {| req_url := api_url self;
     req_authorization := lit "DeepL-Auth-Key " ++ api_key self;
     req_content_type := lit "application/json";
     req_text := texts_to_translate;
     req_source_lang := source_lang self;
     req_target_lang := target_lang self;
     req_model_type := lit "prefer_quality_optimized" |}.

Definition translate_batch (texts : list pystr) : M pydict :=
  let texts_to_translate := fst (filter_loop texts 0 [] []) in
  match texts_to_translate with
  | [] => ret (identity_mapping texts)
  | _ :: _ =>
      try_except
        (r <- requests_post (build_request texts_to_translate) ;;
         raise_for_status r ;;
         result <- response_json r ;;
         translations <- lift (getitem_str result (lit "translations")) ;;
         merged <- merge_loop translations texts [] 0 ;;
         time_sleep (delay self) ;;
         ret (fst merged))
        (fun e =>
           match e with
           | RequestException _ =>
               Some (print (MsgBatchError e) ;; ret (identity_mapping texts))
           | _ => None
           end)
  end.

(** The body of [for i in range(0, len(texts_to_translate), self.batch_size)],
    over the values [range] yields. *)
Fixpoint batch_loop (texts_to_translate : list pystr) (total : nat)
    (indices : list Z) (translated_data : pydict) (processed : nat)
  : M (pydict * nat) :=
  match indices with
  | [] => ret (translated_data, processed)
  | i :: rest =>
      size <- lift (as_index (batch_size self)) ;;
      let batch := py_slice texts_to_translate i (i + size) in
      batch_results <- translate_batch batch ;;
      let translated_data := dict_update translated_data batch_results in
      let processed := processed + length batch in
      let batch_num := (i / size + 1)%Z in
      let total_batches := ((Z.of_nat total + size - 1) / size)%Z in
      print (MsgProgress processed total batch_num total_batches) ;;
      batch_loop texts_to_translate total rest translated_data processed
  end.

Definition translate_json_file : M unit :=
  input_file <- lift (getitem_str (config self) (lit "input_file")) ;;
  output_file <- lift (getitem_str (config self) (lit "output_file")) ;;
  data <- try_except (load_json_file input_file)
            (fun e =>
               match e with
               | FileNotFoundError =>
                   Some (print (MsgNotFound input_file) ;; sys_exit 1)
               | _ => None
               end) ;;
  entries <- lift (py_len data) ;;
  print (MsgStarting entries (batch_size self)) ;;
  texts_to_translate <- lift (keys_method data) ;;
  let total := length texts_to_translate in
  size <- lift (as_index (batch_size self)) ;;
  indices <- lift (py_range 0 (Z.of_nat total) size) ;;
  done <- batch_loop texts_to_translate total indices [] 0 ;;
  dump_json_file output_file (fst done) ;;
  print (MsgComplete output_file) ;;
  print (MsgTotalEntries (snd done)) ;;
  print (MsgTotalCalls ((Z.of_nat total + size - 1) / size)%Z).

End Translator.

Definition main {U : UnicodeData} : M unit :=
  print MsgBanner ;;
  print MsgRule ;;
  translator <- init (lit "config.json") ;;
  translate_json_file translator.

(** The exit status of the interpreter: 0 after a normal end, the code of
    [sys.exit], and 1 after any other exception that nothing caught. *)
Definition exit_status (o : outcome unit) : Z :=
  match o with
  | Returned _ => 0
  | Raised (SystemExit code) => code
  | Raised _ => 1
  end.

(* ================================================================= *)
(** ** Vocabulary of the properties *)

(** The strings of a batch that go to the service, in the order of the batch. *)
Definition submitted {U : UnicodeData} (texts : list pystr) : list pystr :=
  filter (fun text => negb (is_already_translated text)) texts.

(** [needle] occurs in [haystack] as a contiguous run. *)
Definition occurs_in (needle haystack : pystr) : Prop :=
  exists before after, haystack = before ++ needle ++ after.

(** The code point has no lower-case image other than itself. *)
Definition uncased {U : UnicodeData} (c : N) : Prop :=
  forall before after, to_lower_full before c after = [c].

(** The headers of the request can be written as they are: requests accepts
    the Authorization value and [http.client] can encode it as a header
    line. *)
Definition sendable (req : request) : bool :=
  valid_header_value (req_authorization req)
  && encodes_latin1 (req_authorization req)
  && negb (illegal_header_value (req_authorization req)).

(** The answer makes the call end in a [RequestException]: no response, a
    4xx or 5xx status, or a body that is not JSON. *)
Definition call_fails (answer : option response) : bool :=
  match answer with
  | None => true
  | Some r =>
      ((400 <=? status_code r) && (status_code r <? 600))%Z
      || match body r, defect r with None, None => true | _, _ => false end
  end.

(** The call of the batch ends in a [RequestException], which the except
    clause catches: requests refuses the header value, or no response
    arrives, or the headers can be written and the answer is a failure. *)
Definition call_caught (w : world) (req : request) : bool :=
  negb (valid_header_value (req_authorization req))
  || match remote w (trace w) req with
     | None => true
     | Some r => sendable req && call_fails (Some r)
     end.

(** The key makes a header value that can be written, so that every request
    of the translator is [sendable]. *)
Definition key_accepted (self : DeepLTranslator) : bool :=
  sendable (build_request self []).

(** The call of the batch gives a document: the headers can be written, a
    response arrives, its status is not a 4xx or 5xx one, and its body is a
    JSON value. *)
Definition call_succeeds (w : world) (req : request) : bool :=
  sendable req
  && match remote w (trace w) req with
     | None => false
     | Some r =>
         negb ((400 <=? status_code r) && (status_code r <? 600))%Z
         && match body r with Some _ => true | None => false end
     end.

(** [time.sleep] takes the value and the platform carries the sleep out,
    whenever it is asked. *)
Definition sleeps (w : world) (seconds : json) : Prop :=
  sleep_refusal seconds = None /\
  forall history, clock w history seconds = None.

(** [sys.stdout] shows every line. *)
Definition prints_all (w : world) : Prop :=
  forall line, prints w line = true.

(** The body is the JSON the service documents: an object whose
    ["translations"] is an array that starts with one object per submitted
    string, the i-th carrying [translated[i]] under ["text"]. *)
Definition carries (document : json) (translated : list json) : Prop :=
  exists items,
    getitem_str document (lit "translations") = Returned (JArr items) /\
    forall i text,
      nth_error translated i = Some text ->
      exists item, nth_error items i = Some item /\
                   getitem_str item (lit "text") = Returned text.

(** What the second loop of [translate_batch] assigns, entry by entry, when
    the response carries [translated]: a skipped string itself, any other
    string the next translation. *)
Fixpoint assignments {U : UnicodeData} (texts : list pystr)
    (translated : list json) : list (pystr * json) :=
  match texts with
  | [] => []
  | text :: rest =>
      if is_already_translated text
      then (text, JStr text) :: assignments rest translated
      else match translated with
           | [] => []
           | v :: more => (text, v) :: assignments rest more
           end
  end.

(** The lines the second loop prints. *)
Definition translated_lines {U : UnicodeData} (texts : list pystr)
    (translated : list json) : list message :=
  map (fun p => MsgTranslated (fst p) (snd p))
      (combine (submitted texts) translated).

(** The keys of a dictionary after assignments to [new], in order. *)
Definition add_keys (keys new : list pystr) : list pystr :=
  fold_left (fun acc key =>
               if existsb (fun k => pystr_eqb k key) acc then acc
               else acc ++ [key])
            new keys.

(** A service that answers every request either with a failure or with a
    body that carries one text per string of the request, and that puts no
    surrogate into the texts of a request that holds none. *)
Definition orderly (w : world) : Prop :=
  forall history req,
    match remote w history req with
    | None => True
    | Some r =>
        call_fails (Some r) = true \/
        exists document translated,
          body r = Some document /\ carries document translated /\
          length translated = length (req_text req) /\
          (forallb encodes_utf8 (req_text req) = true ->
           forallb utf8_json translated = true)
    end.

(** The batches of the orchestrator's loop, in order. *)
Definition batches_of (texts : list pystr) (size : Z) (indices : list Z)
  : list (list pystr) :=
  map (fun i => py_slice texts i (i + size)) indices.

Definition count_sleeps (events : list event) : nat :=
  length (filter (fun e => match e with EvSleep _ => true | _ => false end)
                 events).

Definition count_posts (events : list event) : nat :=
  length (filter (fun e => match e with EvPost _ => true | _ => false end)
                 events).


(** The requests of the calls of [requests.post], in order. *)
Fixpoint posts (events : list event) : list request :=
  match events with
  | [] => []
  | EvPost req :: rest => req :: posts rest
  | _ :: rest => posts rest
  end.

(** No event touches a file. *)
Definition leaves_files (events : list event) : bool :=
  forallb (fun e => match e with
                    | EvWrite _ _ | EvTruncate _ => false
                    | _ => true
                    end) events.


(** The batch holds a string the heuristic does not skip, so it needs a
    request. *)
Definition needs_call {U : UnicodeData} (texts : list pystr) : bool :=
  match submitted texts with
  | [] => false
  | _ :: _ => true
  end.

(** The number of batches that need a request. *)
Definition calls_needed {U : UnicodeData} (batches : list (list pystr))
  : nat :=
  length (filter needs_call batches).

(** The value the output holds for a key when the service turns every string
    [text] into [answer text]. *)
Definition expected_value {U : UnicodeData} (answer : pystr -> json)
    (key : pystr) : json :=
  if is_already_translated key then JStr key else answer key.

(** An entry a file opened as UTF-8 takes: no surrogate in its key or in
    its value. *)
Definition utf8_entry (kv : pystr * json) : bool :=
  encodes_utf8 (fst kv) && utf8_json (snd kv).

(** A service that answers every request, whatever came before, with status
    200 and one element per string, the text of each given by [answer]. *)
Definition answers_with (w : world) (answer : pystr -> json) : Prop :=
  forall history req,
    exists r document,
      remote w history req = Some r /\
      call_fails (Some r) = false /\
      body r = Some document /\
      carries document (map answer (req_text req)).

(** A service no request ever reaches, or that always fails. *)
Definition always_fails (w : world) : Prop :=
  forall history req, call_fails (remote w history req) = true.

(** The loop of the orchestrator in the words of the specification: every
    batch in turn goes to the batch translator, its mapping is merged into
    the result, and a progress line tells the number of the batch. *)
Fixpoint process_batches {U : UnicodeData} (self : DeepLTranslator)
    (total : nat) (size : Z) (batches : list (list pystr)) (batch_num : Z)
    (translated_data : pydict) (processed : nat) : M (pydict * nat) :=
  match batches with
  | [] => ret (translated_data, processed)
  | batch :: rest =>
      batch_results <- translate_batch self batch ;;
      let translated_data := dict_update translated_data batch_results in
      let processed := processed + length batch in
      print (MsgProgress processed total batch_num
               ((Z.of_nat total + size - 1) / size)) ;;
      process_batches self total size rest (batch_num + 1) translated_data
                      processed
  end.

(* ================================================================= *)
(** ** Sample data *)

(** An excerpt of the Unicode lower-case mapping: Latin-1, Greek, Cyrillic and
    full-width capitals, U+0130 and the Kelvin sign; every other code point is
    left as it is. *)
Definition excerpt_lower (before : pystr) (c : N) (after : pystr) : pystr :=
  if (c =? 0x130)%N then [0x69; 0x307]%N
  else if (c =? 0x212A)%N then [0x6B]%N
  else if ((0xC0 <=? c) && (c <=? 0xDE) && negb (c =? 0xD7))%N then [c + 32]%N
  else if ((0x391 <=? c) && (c <=? 0x3A9) && negb (c =? 0x3A2))%N
       then [c + 32]%N
  else if ((0x410 <=? c) && (c <=? 0x42F))%N then [c + 32]%N
  else if ((0xFF21 <=? c) && (c <=? 0xFF3A))%N then [c + 32]%N
  else [c].

Definition excerpt_unicode : UnicodeData :=
  {| to_lower_full := excerpt_lower |}.

Definition flame_sword_ja : pystr := [0x708E; 0x306E; 0x5263]%N.
Definition shield_ja : pystr := [0x76FE]%N.
Definition fire_sword : pystr := lit "Fire Sword".

Definition sample_keys : list pystr := [flame_sword_ja; fire_sword; shield_ja].

Definition sample_document : pydict :=
  [(flame_sword_ja, JInt 1); (fire_sword, JInt 1); (shield_ja, JInt 1)].

Definition sample_config (key : pystr) (size : Z) : json :=
  JObj [ (lit "deepl_api_key", JStr key);
         (lit "source_language", JStr (lit "JA"));
         (lit "target_language", JStr (lit "EN"));
         (lit "delay_between_requests", JInt 1);
         (lit "batch_size", JInt size);
         (lit "input_file", JStr (lit "input.json"));
         (lit "output_file", JStr (lit "output.json")) ].

Definition sample_translator (size : Z) : DeepLTranslator :=
  {| config := sample_config (lit "0123:fx") size;
     api_key := lit "0123:fx";
     source_lang := JStr (lit "JA");
     target_lang := JStr (lit "EN");
     delay := JInt 1;
     batch_size := JInt size;
     api_url := free_api_url |}.

Definition translation (text : pystr) : json := JObj [(lit "text", JStr text)].

Definition translations_body (items : list json) : json :=
  JObj [(lit "translations", JArr items)].

(** A service that knows two words and answers every request with them. *)
Definition sample_answer : response :=
  {| status_code := 200;
     body := Some (translations_body
                     [translation (lit "Flame Sword");
                      translation (lit "Shield")]);
     defect := None |}.

Definition sample_files (path : pystr) : option file :=
  if pystr_eqb path (lit "config.json")
  then Some (Json (sample_config (lit "0123:fx") 3))
  else if pystr_eqb path (lit "input.json")
  then Some (Json (JObj sample_document))
  else None.

(** A world with the given files and the same answer to every request: every
    path can be written, every sleep is carried out, and the terminal shows
    every line. *)
Definition world_of (fs : pystr -> option file) (answer : option response)
  : world :=
  {| files := fs; unwritable := fun _ => None; remote := fun _ _ => answer;
     clock := fun _ _ => None; stdout_accepts := fun _ => true; trace := [] |}.

Definition sample_world : world := world_of sample_files (Some sample_answer).

(** A service that returns every string as its own translation. *)
Definition echo_remote (history : list event) (req : request)
  : option response :=
  Some {| status_code := 200;
          body := Some (translations_body (map translation (req_text req)));
          defect := None |}.

Definition echo_world : world :=
  {| files := sample_files; unwritable := fun _ => None;
     remote := echo_remote; clock := fun _ _ => None;
     stdout_accepts := fun _ => true; trace := [] |}.

(** Three bodies that are JSON but not what the service documents: no
    ["translations"], one translation for two strings, and elements without
    ["text"]. *)
Definition empty_object_answer : response :=
  {| status_code := 200; body := Some (JObj []); defect := None |}.

Definition short_answer : response :=
  {| status_code := 200;
     body := Some (translations_body [translation (lit "Flame Sword")]);
     defect := None |}.

Definition textless_answer : response :=
  {| status_code := 200;
     body := Some (translations_body
                     [JObj [(lit "detected_source_language", JStr (lit "JA"))];
                      JObj [(lit "detected_source_language", JStr (lit "JA"))]]);
     defect := None |}.

(** A file system with a configuration and no input document. *)
Definition files_without_input (path : pystr) : option file :=
  if pystr_eqb path (lit "config.json")
  then Some (Json (sample_config (lit "0123:fx") 3))
  else None.

(** A configuration that still holds the placeholder key. *)
Definition files_with_placeholder (path : pystr) : option file :=
  if pystr_eqb path (lit "config.json")
  then Some (Json (sample_config placeholder_key 3))
  else sample_files path.

(** A file system with the sample configuration (batch size [size]) and the
    given content of the input file. *)
Definition files_with_input (size : Z) (content : file) (path : pystr)
  : option file :=
  if pystr_eqb path (lit "config.json")
  then Some (Json (sample_config (lit "0123:fx") size))
  else if pystr_eqb path (lit "input.json") then Some content
  else None.



(* ================================================================= *)
(** * Properties *)

(** ** Strings *)

Lemma pystr_eqb_eq (a b : pystr) : pystr_eqb a b = true <-> a = b.
Proof.
  revert b; induction a as [|x a IH]; intros [|y b]; simpl;
    try (split; [discriminate | intros H; inversion H]);
    try (split; reflexivity).
  rewrite andb_true_iff, N.eqb_eq, IH.
  split; [intros [-> ->]; reflexivity | intros H; inversion H; auto].
Qed.

Lemma pystr_eqb_refl (a : pystr) : pystr_eqb a a = true.
Proof. apply pystr_eqb_eq; reflexivity. Qed.

Lemma pystr_eqb_neq (a b : pystr) : pystr_eqb a b = false <-> a <> b.
Proof.
  rewrite <- pystr_eqb_eq. destruct (pystr_eqb a b); split; congruence.
Qed.

Lemma pystr_eq_dec (a b : pystr) : {a = b} + {a <> b}.
Proof.
  destruct (pystr_eqb a b) eqn:E.
  - left; apply pystr_eqb_eq; exact E.
  - right; apply pystr_eqb_neq; exact E.
Qed.

Lemma encodes_ascii_spec (text : pystr) :
  encodes_ascii text = true <-> Forall (fun c => (c < 128)%N) text.
Proof.
  unfold encodes_ascii. rewrite forallb_forall, Forall_forall.
  split; intros H c Hc; apply N.ltb_lt; auto.
Qed.

Lemma starts_with_spec (s prefix : pystr) :
  starts_with s prefix = true <-> exists rest, s = prefix ++ rest.
Proof.
  revert s; induction prefix as [|p prefix IH]; intros s; simpl.
  - split; [exists s; reflexivity | reflexivity].
  - destruct s as [|c s].
    + split; [discriminate | intros [rest H]; discriminate].
    + rewrite andb_true_iff, N.eqb_eq, IH. split.
      * intros [-> [rest ->]]. exists rest; reflexivity.
      * intros [rest H]. inversion H; subst. split; [|exists rest]; reflexivity.
Qed.

Lemma str_contains_spec (haystack needle : pystr) :
  str_contains haystack needle = true <-> occurs_in needle haystack.
Proof.
  unfold occurs_in. induction haystack as [|c rest IH].
  - simpl. rewrite orb_false_r, starts_with_spec. split.
    + intros [after H]. exists [], after. exact H.
    + intros [[|b before] [after H]]; [exists after; exact H | discriminate].
  - cbn [str_contains]. rewrite orb_true_iff, starts_with_spec, IH. split.
    + intros [[after H] | [before [after H]]].
      * exists [], after. exact H.
      * exists (c :: before), after. rewrite H. reflexivity.
    + intros [[|b before] [after H]].
      * left. exists after. exact H.
      * right. inversion H; subst. exists before, after. reflexivity.
Qed.

Section HeuristicFacts.
Context {U : UnicodeData}.

Lemma ascii_is_translated (text : pystr) :
  encodes_ascii text = true -> is_already_translated text = true.
Proof. unfold is_already_translated. intros ->. reflexivity. Qed.

Lemma pattern_loop_spec (text : pystr) :
  existsb (fun pattern => str_contains (lower text) (lower pattern))
          english_patterns = true
  <-> exists token, In token english_patterns /\
                    occurs_in (lower token) (lower text).
Proof.
  rewrite existsb_exists. split; intros [token [Hin H]]; exists token;
    (split; [exact Hin | apply str_contains_spec; exact H]).
Qed.

Lemma lower_from_plain (s : pystr) :
  forall before,
    Forall (fun c => (c < 128)%N \/ uncased c) s ->
    lower_from before s = map ascii_lower s.
Proof.
  induction s as [|c s IH]; intros before Hs; [reflexivity|].
  inversion Hs as [|c' s' Hc Hrest]; subst. simpl.
  rewrite (IH _ Hrest). destruct (c <? 128)%N eqn:E; [reflexivity|].
  apply N.ltb_ge in E. destruct Hc as [Hc | Hc]; [lia|].
  rewrite Hc. unfold ascii_lower.
  assert (Hle : (c <=? 90)%N = false) by (apply N.leb_gt; lia).
  rewrite Hle, andb_false_r. reflexivity.
Qed.

Lemma english_patterns_ascii (token : pystr) :
  In token english_patterns -> Forall (fun c => (c < 128)%N) token.
Proof.
  intros Hin. apply encodes_ascii_spec.
  assert (Hall : forallb encodes_ascii english_patterns = true)
    by (vm_compute; reflexivity).
  rewrite forallb_forall in Hall. apply Hall. exact Hin.
Qed.

Lemma lower_ascii (s : pystr) :
  Forall (fun c => (c < 128)%N) s -> lower s = map ascii_lower s.
Proof.
  intros Hs. apply lower_from_plain.
  eapply Forall_impl; [|exact Hs]. intros c Hc. left. exact Hc.
Qed.

Lemma occurs_in_map (f : N -> N) (needle s : pystr) :
  occurs_in (map f needle) (map f s) <->
  exists a u b, s = a ++ u ++ b /\ map f u = map f needle.
Proof.
  unfold occurs_in. split.
  - intros [x [y H]]. apply map_eq_app in H.
    destruct H as [a [r [-> [_ Hr]]]]. apply map_eq_app in Hr.
    destruct Hr as [u [b [-> [Hu _]]]]. exists a, u, b. split; auto.
  - intros [a [u [b [-> Hu]]]]. exists (map f a), (map f b).
    rewrite !map_app, Hu. reflexivity.
Qed.

(** C3.  [is_already_translated s] is true exactly when [s] holds 7-bit
    characters only (rule 1) or the lower-cased [s] contains the lower-cased
    form of a token of the allow-list (rule 2); otherwise it is false.  Rule 1
    decides first: an all-ASCII string is skipped whatever the list holds, and
    so is the empty string.  When the characters of [s] above 127 have no
    case, rule 2 says that a run of [s] equals a token up to the case of the
    ASCII letters.  The function is a total function of its argument (and of
    the Unicode tables) alone. *)
Theorem is_already_translated_spec (s : pystr) :
  (is_already_translated s = true <->
     Forall (fun c => (c < 128)%N) s \/
     exists token, In token english_patterns /\
                   occurs_in (lower token) (lower s))
  /\ (is_already_translated s = false <->
        ~ Forall (fun c => (c < 128)%N) s /\
        forall token, In token english_patterns ->
                      ~ occurs_in (lower token) (lower s))
  /\ (Forall (fun c => (c < 128)%N) s -> is_already_translated s = true)
  /\ is_already_translated [] = true
  /\ (Forall (fun c => (c < 128)%N \/ uncased c) s ->
      (is_already_translated s = true <->
         Forall (fun c => (c < 128)%N) s \/
         exists token a u b,
           In token english_patterns /\ s = a ++ u ++ b /\
           map ascii_lower u = map ascii_lower token)).
Proof.
  assert (Hiff : is_already_translated s = true <->
     Forall (fun c => (c < 128)%N) s \/
     exists token, In token english_patterns /\
                   occurs_in (lower token) (lower s)).
  { rewrite <- encodes_ascii_spec, <- pattern_loop_spec.
    unfold is_already_translated. destruct (encodes_ascii s).
    - split; auto.
    - split; [intros H; right; exact H | intros [H | H]; [discriminate | exact H]]. }
  split; [exact Hiff|]. split; [|split; [|split]].
  - rewrite <- not_true_iff_false, Hiff. split.
    + intros H. split; [intros Ha; apply H; left; exact Ha|].
      intros token Hin Hocc. apply H. right. exists token. split; assumption.
    + intros [Hna Hnt] [Ha | [token [Hin Hocc]]];
        [exact (Hna Ha) | exact (Hnt token Hin Hocc)].
  - intros Ha. apply Hiff. left. exact Ha.
  - reflexivity.
  - intros Hplain. rewrite Hiff.
    assert (Hlow : lower s = map ascii_lower s)
      by (apply lower_from_plain; exact Hplain).
    split; (intros [Ha | H]; [left; exact Ha | right]).
    + destruct H as [token [Hin Hocc]].
      rewrite Hlow, (lower_ascii token (english_patterns_ascii token Hin))
        in Hocc.
      apply occurs_in_map in Hocc. destruct Hocc as [a [u [b [Hs Hu]]]].
      exists token, a, u, b. repeat split; assumption.
    + destruct H as [token [a [u [b [Hin [Hs Hu]]]]]].
      exists token. split; [exact Hin|].
      rewrite Hlow, (lower_ascii token (english_patterns_ascii token Hin)).
      apply occurs_in_map. exists a, u, b. split; assumption.
Qed.

End HeuristicFacts.

(* ================================================================= *)
(** ** Dictionaries *)

Lemma existsb_key (keys : list pystr) (key : pystr) :
  existsb (fun k => pystr_eqb k key) keys = true <-> In key keys.
Proof.
  rewrite existsb_exists. split.
  - intros [k [Hin Heq]]. apply pystr_eqb_eq in Heq. subst. exact Hin.
  - intros Hin. exists key. split; [exact Hin | apply pystr_eqb_refl].
Qed.

Lemma dict_keys_set (d : pydict) (key : pystr) (value : json) :
  dict_keys (dict_set d key value)
  = if existsb (fun k => pystr_eqb k key) (dict_keys d) then dict_keys d
    else dict_keys d ++ [key].
Proof.
  induction d as [|[k v] d IH]; simpl; [reflexivity|].
  destruct (pystr_eqb k key) eqn:E; simpl; [reflexivity|].
  rewrite IH. destruct (existsb _ (dict_keys d)); reflexivity.
Qed.

Lemma dict_keys_update (d other : pydict) :
  dict_keys (dict_update d other) = add_keys (dict_keys d) (dict_keys other).
Proof.
  unfold dict_update, add_keys. revert d.
  induction other as [|[k v] other IH]; intros d; simpl; [reflexivity|].
  rewrite IH, dict_keys_set. reflexivity.
Qed.

Lemma add_keys_app (keys a b : list pystr) :
  add_keys keys (a ++ b) = add_keys (add_keys keys a) b.
Proof. unfold add_keys. apply fold_left_app. Qed.

Lemma add_keys_In (new keys : list pystr) (key : pystr) :
  In key (add_keys keys new) <-> In key keys \/ In key new.
Proof.
  revert keys; induction new as [|n new IH]; intros keys.
  - simpl. tauto.
  - change (add_keys keys (n :: new))
      with (add_keys (if existsb (fun k => pystr_eqb k n) keys then keys
                      else keys ++ [n]) new).
    rewrite IH. destruct (existsb _ keys) eqn:E.
    + apply existsb_key in E. simpl. split; [tauto|].
      intros [H | [H | H]]; subst; auto.
    + rewrite in_app_iff. simpl. tauto.
Qed.

Lemma add_keys_NoDup (new keys : list pystr) :
  NoDup keys -> NoDup (add_keys keys new).
Proof.
  revert keys; induction new as [|n new IH]; intros keys Hnd; [exact Hnd|].
  change (add_keys keys (n :: new))
    with (add_keys (if existsb (fun k => pystr_eqb k n) keys then keys
                    else keys ++ [n]) new).
  apply IH. destruct (existsb _ keys) eqn:E; [exact Hnd|].
  assert (Hnot : ~ In n keys).
  { intros Hin. apply existsb_key in Hin. congruence. }
  clear E. induction keys as [|k keys IHk]; simpl.
  - constructor; [intros [] | constructor].
  - inversion Hnd; subst. constructor.
    + rewrite in_app_iff. simpl. intros [H | [H | []]]; [auto|].
      subst. apply Hnot. left; reflexivity.
    + apply IHk; [assumption|]. intros H. apply Hnot. right; exact H.
Qed.

Lemma add_keys_fresh (new keys : list pystr) :
  NoDup (keys ++ new) -> add_keys keys new = keys ++ new.
Proof.
  revert keys; induction new as [|n new IH]; intros keys Hnd.
  - simpl. rewrite app_nil_r. reflexivity.
  - change (add_keys keys (n :: new))
      with (add_keys (if existsb (fun k => pystr_eqb k n) keys then keys
                      else keys ++ [n]) new).
    destruct (existsb _ keys) eqn:E.
    + apply existsb_key in E. apply NoDup_remove_2 in Hnd.
      exfalso. apply Hnd. apply in_or_app. left; exact E.
    + rewrite IH; rewrite <- app_assoc; [reflexivity | exact Hnd].
Qed.

Lemma dict_update_fresh (other d : pydict) :
  NoDup (dict_keys d ++ dict_keys other) -> dict_update d other = d ++ other.
Proof.
  unfold dict_update. revert d.
  induction other as [|[k v] other IH]; intros d Hnd; simpl.
  - rewrite app_nil_r. reflexivity.
  - assert (Hset : dict_set d k v = d ++ [(k, v)]).
    { simpl in Hnd. apply NoDup_remove_2 in Hnd.
      assert (Hnot : ~ In k (dict_keys d)).
      { intros H. apply Hnd. apply in_or_app. left; exact H. }
      clear -Hnot. induction d as [|[k' v'] d IHd]; simpl; [reflexivity|].
      destruct (pystr_eqb k' k) eqn:E.
      - apply pystr_eqb_eq in E. subst. exfalso. apply Hnot. left; reflexivity.
      - rewrite IHd; [reflexivity|]. intros H. apply Hnot. right; exact H. }
    rewrite Hset, IH.
    + rewrite <- app_assoc. reflexivity.
    + unfold dict_keys in *. rewrite map_app, <- app_assoc. exact Hnd.
Qed.

Lemma dict_get_In (d : pydict) (key : pystr) (value : json) :
  NoDup (dict_keys d) -> In (key, value) d -> dict_get d key = Some value.
Proof.
  induction d as [|[k v] d IH]; simpl; intros Hnd Hin; [contradiction|].
  inversion Hnd; subst. destruct Hin as [Heq | Hin].
  - inversion Heq; subst. rewrite pystr_eqb_refl. reflexivity.
  - destruct (pystr_eqb k key) eqn:E.
    + apply pystr_eqb_eq in E. subst. exfalso. apply H1.
      change key with (fst (key, value)). apply in_map. exact Hin.
    + apply IH; assumption.
Qed.

(* ================================================================= *)
(** ** The world *)

Lemma record_events_nil (w : world) : record_events w [] = w.
Proof. destruct w. unfold record_events. simpl. rewrite app_nil_r. reflexivity. Qed.

Lemma record_events_app (w : world) (a b : list event) :
  record_events (record_events w a) b = record_events w (a ++ b).
Proof. unfold record_events. simpl. rewrite app_assoc. reflexivity. Qed.

Lemma count_sleeps_app (a b : list event) :
  count_sleeps (a ++ b) = count_sleeps a + count_sleeps b.
Proof. unfold count_sleeps. rewrite filter_app, length_app. reflexivity. Qed.

Lemma count_posts_app (a b : list event) :
  count_posts (a ++ b) = count_posts a + count_posts b.
Proof. unfold count_posts. rewrite filter_app, length_app. reflexivity. Qed.


Lemma count_sleeps_prints (lines : list message) :
  count_sleeps (map EvPrint lines) = 0.
Proof. induction lines; [reflexivity | exact IHlines]. Qed.

Lemma count_posts_prints (lines : list message) :
  count_posts (map EvPrint lines) = 0.
Proof. induction lines; [reflexivity | exact IHlines]. Qed.


Lemma posts_app (a b : list event) : posts (a ++ b) = posts a ++ posts b.
Proof.
  induction a as [|e a IH]; [reflexivity|].
  destruct e; simpl; rewrite IH; reflexivity.
Qed.

Lemma posts_prints (lines : list message) : posts (map EvPrint lines) = [].
Proof. induction lines; [reflexivity | exact IHlines]. Qed.

Lemma leaves_files_app (a b : list event) :
  leaves_files (a ++ b) = leaves_files a && leaves_files b.
Proof. unfold leaves_files. apply forallb_app. Qed.

Lemma leaves_files_prints (lines : list message) :
  leaves_files (map EvPrint lines) = true.
Proof. induction lines; [reflexivity | exact IHlines]. Qed.


(** Inversion of the monad's operations on a run that returns. *)
Lemma bind_returned {A B : Type} (m : M A) (k : A -> M B) (w w' : world)
    (b : B) :
  bind m k w = (Returned b, w') ->
  exists a w1, m w = (Returned a, w1) /\ k a w1 = (Returned b, w').
Proof.
  unfold bind. destruct (m w) as [[a|e] w1]; intros H; [|discriminate].
  exists a, w1. split; [reflexivity | exact H].
Qed.

Lemma lift_returned {A : Type} (o : outcome A) (w w' : world) (a : A) :
  lift o w = (Returned a, w') -> o = Returned a /\ w' = w.
Proof. unfold lift. intros H. inversion H. split; reflexivity. Qed.

Lemma try_except_returned {A : Type} (body : M A)
    (handlers : exn -> option (M A)) (w w' : world) (a : A) :
  try_except body handlers w = (Returned a, w') ->
  body w = (Returned a, w') \/
  exists e w1 handler,
    body w = (Raised e, w1) /\ handlers e = Some handler /\
    handler w1 = (Returned a, w').
Proof.
  unfold try_except. destruct (body w) as [[x|e] w1]; intros H.
  - left. exact H.
  - destruct (handlers e) as [handler|] eqn:Hh; [|discriminate].
    right. exists e, w1, handler. repeat split; [exact Hh | exact H].
Qed.

Ltac bind_inv H :=
  let a := fresh "a" in
  let w := fresh "w" in
  let Hstep := fresh "Hstep" in
  apply bind_returned in H; destruct H as [a [w [Hstep H]]].

(** [print]: the line is shown, or UnicodeEncodeError is raised and nothing
    is. *)
Lemma print_ok (line : message) (w : world) :
  prints w line = true ->
  print line w = (Returned tt, record_events w [EvPrint line]).
Proof. unfold print. intros ->. reflexivity. Qed.

Lemma print_refused (line : message) (w : world) :
  prints w line = false -> print line w = (Raised UnicodeEncodeError, w).
Proof. unfold print. intros ->. reflexivity. Qed.

Lemma print_ascii (line : message) (w : world) :
  ascii_line line = true ->
  print line w = (Returned tt, record_events w [EvPrint line]).
Proof. intros H. apply print_ok. unfold prints. rewrite H. reflexivity. Qed.

Lemma print_returned (line : message) (w w' : world) (a : unit) :
  print line w = (Returned a, w') ->
  prints w line = true /\ w' = record_events w [EvPrint line].
Proof.
  unfold print. destruct (prints w line); intros H; inversion H.
  split; reflexivity.
Qed.

(** [time.sleep]: the sleep is carried out, or one exception of four is
    raised and nothing has happened. *)
Lemma time_sleep_ok (seconds : json) (w : world) :
  sleeps w seconds ->
  time_sleep seconds w = (Returned tt, record_events w [EvSleep seconds]).
Proof.
  intros [Hvalue Hclock]. unfold time_sleep. rewrite Hvalue, Hclock.
  reflexivity.
Qed.

Lemma sleep_refusal_kinds (seconds : json) (e : exn) :
  sleep_refusal seconds = Some e ->
  e = TypeError \/ e = OverflowError \/ e = ValueError.
Proof.
  unfold sleep_refusal. destruct seconds; intros H;
    try (inversion H; auto; fail);
    repeat match type of H with
           | (if ?c then _ else _) = _ => destruct c
           end;
    inversion H; auto.
Qed.

Lemma time_sleep_cases (seconds : json) (w : world) :
  time_sleep seconds w = (Returned tt, record_events w [EvSleep seconds]) \/
  exists e,
    time_sleep seconds w = (Raised e, w) /\
    (e = TypeError \/ e = OverflowError \/ e = ValueError \/ e = OSError).
Proof.
  unfold time_sleep. destruct (sleep_refusal seconds) as [e|] eqn:Hr.
  - right. exists e. split; [reflexivity|].
    destruct (sleep_refusal_kinds _ _ Hr) as [H | [H | H]]; auto.
  - destruct (clock w (trace w) seconds) as [[|]|].
    + right. exists OSError. auto.
    + right. exists ValueError. auto.
    + left. reflexivity.
Qed.

(** [requests.post]: the call is recorded; it returns the response of the
    service exactly when the headers can be written and a response arrives. *)
Lemma requests_post_ok (req : request) (w : world) (r : response) :
  sendable req = true ->
  remote w (trace w) req = Some r ->
  requests_post req w = (Returned r, record_events w [EvPost req]).
Proof.
  unfold sendable, requests_post. intros Hs Hr.
  apply andb_true_iff in Hs. destruct Hs as [Hs Hlegal].
  apply andb_true_iff in Hs. destruct Hs as [Hvalid Hlatin].
  apply negb_true_iff in Hlegal.
  rewrite Hvalid, Hr, Hlatin, Hlegal. reflexivity.
Qed.

Lemma requests_post_cases (req : request) (w : world) :
  exists o,
    requests_post req w = (o, record_events w [EvPost req]) /\
    match o with
    | Returned r => sendable req = true /\ remote w (trace w) req = Some r
    | Raised e =>
        (exists why, e = RequestException why /\
                     (why = InvalidHeader \/ why = ConnectionError) /\
                     call_caught w req = true) \/
        ((e = UnicodeEncodeError \/ e = ValueError) /\ sendable req = false /\
         call_caught w req = false)
    end.
Proof.
  unfold requests_post, call_caught, sendable.
  destruct (valid_header_value (req_authorization req)); cbn [negb andb orb].
  2:{ eexists. split; [reflexivity|]. left. eexists. auto. }
  destruct (remote w (trace w) req) as [r|].
  2:{ eexists. split; [reflexivity|]. left. eexists. auto. }
  destruct (encodes_latin1 (req_authorization req)); cbn [negb andb orb].
  2:{ eexists. split; [reflexivity|]. right. auto. }
  destruct (illegal_header_value (req_authorization req)); cbn [negb andb orb].
  - eexists. split; [reflexivity|]. right. auto.
  - eexists. split; [reflexivity|]. split; reflexivity.
Qed.

(** The Authorization value is the same for every request of a translator. *)
Lemma sendable_same_key (a b : request) :
  req_authorization a = req_authorization b -> sendable a = sendable b.
Proof. unfold sendable. intros ->. reflexivity. Qed.

(* ================================================================= *)
(** ** translate_batch *)

Section BatchFacts.
Context {U : UnicodeData}.
Variable self : DeepLTranslator.

Lemma filter_loop_submitted (texts : list pystr) :
  forall i acc indices,
    fst (filter_loop texts i acc indices) = acc ++ submitted texts.
Proof.
  induction texts as [|text rest IH]; intros i acc indices; simpl.
  - rewrite app_nil_r. reflexivity.
  - destruct (is_already_translated text); simpl; rewrite IH.
    + reflexivity.
    + rewrite <- app_assoc. reflexivity.
Qed.

Lemma filter_loop_indices (texts : list pystr) :
  forall i acc indices,
    length (snd (filter_loop texts i acc indices))
    = length indices + length (submitted texts).
Proof.
  induction texts as [|text rest IH]; intros i acc indices; simpl.
  - lia.
  - destruct (is_already_translated text); simpl; rewrite IH.
    + reflexivity.
    + rewrite length_app. simpl. lia.
Qed.

Lemma submitted_nil_iff (texts : list pystr) :
  submitted texts = [] <->
  forall text, In text texts -> is_already_translated text = true.
Proof.
  induction texts as [|text rest IH]; simpl.
  - split; [intros _ t [] | reflexivity].
  - destruct (is_already_translated text) eqn:E; simpl.
    + rewrite IH. split.
      * intros H t [<- | Hin]; [exact E | apply H; exact Hin].
      * intros H t Hin. apply H. right; exact Hin.
    + split; [discriminate|]. intros H.
      rewrite (H text (or_introl eq_refl)) in E. discriminate.
Qed.

Lemma add_keys_cons (new : list pystr) (d : pydict) (key : pystr)
    (value : json) :
  add_keys (dict_keys d) (key :: new)
  = add_keys (dict_keys (dict_set d key value)) new.
Proof. rewrite dict_keys_set. reflexivity. Qed.

(** Whenever the second loop runs to its end, the dictionary has the keys of
    [texts] added and the index has advanced once per submitted string. *)
Lemma merge_loop_returns (translations : json) (texts : list pystr) :
  forall acc idx w d i w',
    merge_loop translations texts acc idx w = (Returned (d, i), w') ->
    dict_keys d = add_keys (dict_keys acc) texts /\
    i = idx + length (submitted texts).
Proof.
  induction texts as [|text rest IH]; intros acc idx w d i w' Hrun.
  - simpl in Hrun. inversion Hrun; subst. split; [reflexivity | simpl; lia].
  - simpl in Hrun. simpl submitted.
    destruct (is_already_translated text) eqn:E; cbn [negb length].
    + apply IH in Hrun. destruct Hrun as [Hk Hi].
      rewrite (add_keys_cons rest acc text (JStr text)). split; assumption.
    + bind_inv Hrun. bind_inv Hrun. bind_inv Hrun.
      apply IH in Hrun. destruct Hrun as [Hk Hi].
      rewrite (add_keys_cons rest acc text a0). split; [assumption | lia].
Qed.

(** The second loop on a response that carries a text for every submitted
    string, when the terminal shows its lines. *)
Lemma merge_loop_success (texts : list pystr) :
  forall items translated acc idx w,
    length translated = length (submitted texts) ->
    (forall j v, nth_error translated j = Some v ->
       exists item, nth_error items (idx + j) = Some item /\
                    getitem_str item (lit "text") = Returned v) ->
    Forall (fun line => prints w line = true)
           (translated_lines texts translated) ->
    merge_loop (JArr items) texts acc idx w
    = (Returned (dict_update acc (assignments texts translated),
                 idx + length translated),
       record_events w (map EvPrint (translated_lines texts translated))).
Proof.
  unfold translated_lines.
  induction texts as [|text rest IH];
    intros items translated acc idx w Hlen Hi Hp.
  - simpl in *. destruct translated; [|discriminate]. simpl.
    rewrite record_events_nil, Nat.add_0_r. reflexivity.
  - simpl merge_loop. simpl submitted in *. simpl assignments.
    destruct (is_already_translated text) eqn:E; simpl in *.
    + rewrite (IH items translated _ idx w Hlen Hi Hp). reflexivity.
    + destruct translated as [|v more]; [discriminate|].
      destruct (Hi 0 v eq_refl) as [item [Hitem Htext]].
      rewrite Nat.add_0_r in Hitem. simpl in Hp.
      inversion Hp as [|line lines Hline Hlines]; subst.
      unfold bind at 1, lift, getitem_int. rewrite Hitem.
      unfold bind at 1. rewrite Htext.
      unfold bind at 1. rewrite (print_ok _ _ Hline).
      rewrite (IH items more _ (S idx) _).
      * rewrite record_events_app. simpl. f_equal. f_equal. f_equal. lia.
      * simpl in Hlen. lia.
      * intros j v' Hj. destruct (Hi (S j) v' Hj) as [item' [H1 H2]].
        exists item'. split; [|exact H2].
        replace (S idx + j) with (idx + S j) by lia. exact H1.
      * exact Hlines.
Qed.

(** With enough elements in the array the second loop never raises
    IndexError. *)
Lemma merge_loop_in_bounds (texts : list pystr) :
  forall items acc idx w,
    idx + length (submitted texts) <= length items ->
    fst (merge_loop (JArr items) texts acc idx w) <> Raised IndexError.
Proof.
  induction texts as [|text rest IH]; intros items acc idx w Hlen.
  - simpl. discriminate.
  - simpl merge_loop. simpl submitted in Hlen.
    destruct (is_already_translated text) eqn:E; cbn [negb length] in Hlen.
    + apply IH. exact Hlen.
    + unfold bind at 1, lift, getitem_int.
      destruct (nth_error items idx) as [item|] eqn:Hitem.
      * unfold bind at 1.
        destruct (getitem_str item (lit "text")) as [v|e] eqn:Htext.
        -- unfold bind at 1, print.
           destruct (prints w (MsgTranslated text v)).
           ++ apply IH. lia.
           ++ simpl. discriminate.
        -- simpl. unfold getitem_str in Htext.
           destruct item; try (inversion Htext; discriminate).
           destruct (dict_get members (lit "text"));
             inversion Htext; discriminate.
      * apply nth_error_None in Hitem. lia.
Qed.

(** Elements of the array past the number of submitted strings are never
    read. *)
Lemma merge_loop_ignores_extras (texts : list pystr) :
  forall items extra acc idx w,
    idx + length (submitted texts) <= length items ->
    merge_loop (JArr (items ++ extra)) texts acc idx w
    = merge_loop (JArr items) texts acc idx w.
Proof.
  induction texts as [|text rest IH]; intros items extra acc idx w Hlen.
  - reflexivity.
  - simpl merge_loop. simpl submitted in Hlen.
    destruct (is_already_translated text) eqn:E; cbn [negb length] in Hlen.
    + apply IH. exact Hlen.
    + unfold bind, lift, getitem_int. rewrite nth_error_app1 by lia.
      destruct (nth_error items idx) as [item|]; [|reflexivity].
      cbv beta iota.
      destruct (getitem_str item (lit "text")) as [v|e]; [|reflexivity].
      cbv beta iota.
      destruct (print (MsgTranslated text v) w) as [[u|e] w1]; [|reflexivity].
      apply IH. lia.
Qed.

Lemma dict_get_set (d : pydict) (key : pystr) (value : json) (k : pystr) :
  dict_get (dict_set d key value) k
  = if pystr_eqb key k then Some value else dict_get d k.
Proof.
  induction d as [|[k0 v0] d IH]; simpl.
  - destruct (pystr_eqb key k); reflexivity.
  - destruct (pystr_eqb k0 key) eqn:E0; simpl.
    + apply pystr_eqb_eq in E0. subst k0.
      destruct (pystr_eqb key k); reflexivity.
    + destruct (pystr_eqb k0 k) eqn:E1.
      * apply pystr_eqb_eq in E1. subst k0.
        apply pystr_eqb_neq in E0.
        destruct (pystr_eqb key k) eqn:E2; [|reflexivity].
        apply pystr_eqb_eq in E2. congruence.
      * exact IH.
Qed.

Lemma identity_fold_get (texts : list pystr) :
  forall acc k,
    dict_get (fold_left (fun d text => dict_set d text (JStr text)) texts acc) k
    = if existsb (fun t => pystr_eqb t k) texts then Some (JStr k)
      else dict_get acc k.
Proof.
  induction texts as [|text rest IH]; intros acc k; simpl; [reflexivity|].
  rewrite IH, dict_get_set.
  destruct (existsb _ rest); [rewrite orb_true_r; reflexivity|].
  rewrite orb_false_r.
  destruct (pystr_eqb text k) eqn:E; [|reflexivity].
  apply pystr_eqb_eq in E. subst. reflexivity.
Qed.

(** In the identity mapping every string of the batch maps to itself, and
    nothing else is a key. *)
Lemma identity_mapping_get (texts : list pystr) (k : pystr) :
  (In k texts -> dict_get (identity_mapping texts) k = Some (JStr k)) /\
  (~ In k texts -> dict_get (identity_mapping texts) k = None).
Proof.
  unfold identity_mapping. rewrite identity_fold_get.
  destruct (existsb _ texts) eqn:E.
  - apply existsb_key in E. split; [reflexivity | contradiction].
  - split; [|reflexivity]. intros Hin. apply existsb_key in Hin. congruence.
Qed.

Lemma identity_mapping_keys (texts : list pystr) :
  dict_keys (identity_mapping texts) = add_keys [] texts.
Proof.
  unfold identity_mapping. change (@nil pystr) with (dict_keys []).
  generalize (@nil (pystr * json)) as acc.
  induction texts as [|text rest IH]; intros acc; [reflexivity|].
  rewrite (add_keys_cons rest acc text (JStr text)). apply IH.
Qed.

Lemma assignments_keys (texts : list pystr) :
  forall translated,
    length (submitted texts) <= length translated ->
    dict_keys (assignments texts translated) = texts.
Proof.
  induction texts as [|text rest IH]; intros translated Hlen; [reflexivity|].
  simpl in *. destruct (is_already_translated text); simpl in *.
  - rewrite IH by exact Hlen. reflexivity.
  - destruct translated as [|v more]; simpl in *; [lia|].
    rewrite IH by lia. reflexivity.
Qed.

Lemma assignments_skipped (texts : list pystr) :
  forall translated text,
    length (submitted texts) <= length translated ->
    In text texts -> is_already_translated text = true ->
    In (text, JStr text) (assignments texts translated).
Proof.
  induction texts as [|t rest IH]; intros translated text Hlen Hin Hskip;
    [contradiction|].
  simpl in *. destruct (is_already_translated t) eqn:E; simpl in *.
  - destruct Hin as [-> | Hin]; [left; reflexivity|].
    right. apply IH; assumption.
  - destruct translated as [|v more]; simpl in *; [lia|].
    destruct Hin as [-> | Hin]; [congruence|].
    right. apply IH; [lia | assumption | assumption].
Qed.

Lemma assignments_submitted (texts : list pystr) :
  forall translated i text v,
    nth_error (submitted texts) i = Some text ->
    nth_error translated i = Some v ->
    In (text, v) (assignments texts translated).
Proof.
  induction texts as [|t rest IH]; intros translated i text v Ht Hv.
  - destruct i; discriminate.
  - simpl in *. destruct (is_already_translated t) eqn:E; simpl in *.
    + right. eapply IH; eassumption.
    + destruct translated as [|v0 more]; [destruct i; discriminate|].
      destruct i as [|i]; simpl in *.
      * inversion Ht; inversion Hv; subst. left; reflexivity.
      * right. eapply IH; eassumption.
Qed.

Lemma translate_batch_skip (texts : list pystr) (w : world) :
  submitted texts = [] ->
  translate_batch self texts w = (Returned (identity_mapping texts), w).
Proof.
  intros H. unfold translate_batch.
  rewrite filter_loop_submitted, H. reflexivity.
Qed.

(** The second loop only prints. *)
Lemma merge_loop_prints (translations : json) (texts : list pystr) :
  forall acc idx w,
    exists lines,
      snd (merge_loop translations texts acc idx w)
      = record_events w (map EvPrint lines).
Proof.
  induction texts as [|text rest IH]; intros acc idx w.
  - exists []. simpl. rewrite record_events_nil. reflexivity.
  - simpl merge_loop. destruct (is_already_translated text).
    + apply IH.
    + unfold bind at 1, lift.
      destruct (getitem_int translations idx) as [item|e].
      2:{ exists []. simpl. rewrite record_events_nil. reflexivity. }
      unfold bind at 1.
      destruct (getitem_str item (lit "text")) as [v|e].
      2:{ exists []. simpl. rewrite record_events_nil. reflexivity. }
      unfold bind at 1, print.
      destruct (prints w (MsgTranslated text v)).
      * destruct (IH (dict_set acc text v) (S idx)
                     (record_events w [EvPrint (MsgTranslated text v)]))
          as [lines Hlines].
        exists (MsgTranslated text v :: lines).
        rewrite Hlines, record_events_app. reflexivity.
      * exists []. simpl. rewrite record_events_nil. reflexivity.
Qed.

(** The except clause of [translate_batch]: it shows its line and returns
    the identity mapping, or the line cannot be shown. *)
Lemma except_clause_cases (e : exn) (texts : list pystr) (w : world) :
  (prints w (MsgBatchError e) = true /\
   (print (MsgBatchError e) ;; ret (identity_mapping texts)) w
   = (Returned (identity_mapping texts),
      record_events w [EvPrint (MsgBatchError e)])) \/
  (prints w (MsgBatchError e) = false /\
   (print (MsgBatchError e) ;; ret (identity_mapping texts)) w
   = (Raised UnicodeEncodeError, w)).
Proof.
  unfold bind, print. destruct (prints w (MsgBatchError e)); auto.
Qed.

(** One run of [translate_batch], whatever the world does: nothing happens
    when nothing is submitted; otherwise [requests.post] is called first,
    lines are printed, and the last event is the sleep exactly when the run
    returns after a call that gave a document. *)
Lemma translate_batch_shape (texts : list pystr) (w : world) :
  exists o events,
    translate_batch self texts w = (o, record_events w events) /\
    ((submitted texts = [] /\ events = [] /\
      o = Returned (identity_mapping texts)) \/
     (submitted texts <> [] /\
      exists lines tail,
        events = EvPost (build_request self (submitted texts))
                 :: map EvPrint lines ++ tail /\
        (tail = [] \/
         (tail = [EvSleep (delay self)] /\
          call_succeeds w (build_request self (submitted texts)) = true /\
          exists d, o = Returned d)))).
Proof.
  unfold translate_batch. rewrite filter_loop_submitted. cbn [app].
  destruct (submitted texts) as [|t0 ts] eqn:Es.
  { eexists _, []. rewrite record_events_nil. split; [reflexivity | auto]. }
  rewrite <- Es. assert (Hne : submitted texts <> []) by congruence.
  clear Es t0 ts. set (req := build_request self (submitted texts)).
  (* the except clause, run after the call and [lines] *)
  assert (Hcaught : forall why lines,
            exists o events,
              (print (MsgBatchError (RequestException why)) ;;
               ret (identity_mapping texts))
                (record_events w (EvPost req :: map EvPrint lines))
              = (o, record_events w events) /\
              exists lines' tail,
                events = EvPost req :: map EvPrint lines' ++ tail /\
                (tail = [] \/
                 (tail = [EvSleep (delay self)] /\
                  call_succeeds w req = true /\
                  exists d, o = @Returned pydict d))).
  { intros why lines.
    destruct (except_clause_cases (RequestException why) texts
                (record_events w (EvPost req :: map EvPrint lines)))
      as [[_ H] | [_ H]]; rewrite H.
    - rewrite record_events_app. eexists _, _. split; [reflexivity|].
      exists (lines ++ [MsgBatchError (RequestException why)]), [].
      split; [|auto]. rewrite map_app, app_nil_r. reflexivity.
    - eexists _, _. split; [reflexivity|]. exists lines, [].
      split; [|auto]. rewrite app_nil_r. reflexivity. }
  assert (Hquiet : forall (o : outcome pydict) lines,
            exists lines' tail,
              EvPost req :: map EvPrint lines
              = EvPost req :: map EvPrint lines' ++ tail /\
              (tail = [] \/
               (tail = [EvSleep (delay self)] /\
                call_succeeds w req = true /\
                exists d, o = Returned d))).
  { intros o lines. exists lines, []. rewrite app_nil_r. auto. }
  unfold try_except, bind at 1.
  destruct (requests_post_cases req w) as [o1 [Hpost Hkind]]. rewrite Hpost.
  destruct o1 as [r|e].
  2:{ destruct Hkind as [[why [-> _]] | [[-> | ->] _]].
      - destruct (Hcaught why []) as [o [events [Hrun Hshape]]].
        simpl map in Hrun. rewrite Hrun. eexists _, _.
        split; [reflexivity|]. right. split; [exact Hne | exact Hshape].
      - eexists _, _. split; [reflexivity|]. right. split; [exact Hne|].
        apply (Hquiet _ []).
      - eexists _, _. split; [reflexivity|]. right. split; [exact Hne|].
        apply (Hquiet _ []). }
  destruct Hkind as [Hsend Hr].
  unfold bind at 1, raise_for_status.
  destruct ((400 <=? status_code r) && (status_code r <? 600))%Z eqn:Hs.
  { cbn [raise].
    destruct (Hcaught (HTTPError (status_code r)) [])
      as [o [events [Hrun Hshape]]].
    simpl map in Hrun. rewrite Hrun. eexists _, _.
    split; [reflexivity|]. right. split; [exact Hne | exact Hshape]. }
  cbn [ret]. unfold bind at 1, response_json.
  destruct (body r) as [document|] eqn:Hb.
  2:{ destruct (defect r) as [why|]; cbn [raise].
      - destruct why; cbn [parse_failure_exn];
          (eexists _, _; split; [reflexivity|]; right; split; [exact Hne|];
           apply (Hquiet _ [])).
      - destruct (Hcaught InvalidJSON []) as [o [events [Hrun Hshape]]].
        simpl map in Hrun. rewrite Hrun. eexists _, _.
        split; [reflexivity|]. right. split; [exact Hne | exact Hshape]. }
  cbn [ret]. unfold bind at 1, lift.
  destruct (getitem_str document (lit "translations")) as [translations|e]
    eqn:Ht.
  2:{ assert (He : e = KeyError \/ e = TypeError).
      { unfold getitem_str in Ht. destruct document;
          try (inversion Ht; auto; fail).
        destruct (dict_get members (lit "translations")); inversion Ht; auto. }
      destruct He; subst e;
        (eexists _, _; split; [reflexivity|]; right; split; [exact Hne|];
         apply (Hquiet _ [])). }
  unfold bind at 1.
  destruct (merge_loop_prints translations texts [] 0
              (record_events w [EvPost req])) as [lines Hlines].
  destruct (merge_loop translations texts [] 0 (record_events w [EvPost req]))
    as [[merged|e] w1]; simpl in Hlines; subst w1;
    rewrite record_events_app; cbn [app].
  - unfold bind at 1.
    destruct (time_sleep_cases (delay self)
                (record_events w (EvPost req :: map EvPrint lines)))
      as [Hsl | [e [Hsl Hkind]]]; rewrite Hsl.
    + cbn [ret fst snd]. rewrite record_events_app.
      eexists _, _. split; [reflexivity|]. right. split; [exact Hne|].
      exists lines, [EvSleep (delay self)]. split; [reflexivity|]. right.
      split; [reflexivity|]. split; [|eexists; reflexivity].
      unfold call_succeeds. rewrite Hsend, Hr, Hs, Hb. reflexivity.
    + destruct Hkind as [-> | [-> | [-> | ->]]];
        (eexists _, _; split; [reflexivity|]; right; split; [exact Hne|];
         apply (Hquiet _ lines)).
  - destruct e;
      try (eexists _, _; split; [reflexivity|]; right; split; [exact Hne|];
           apply (Hquiet _ lines)).
    destruct (Hcaught why lines) as [o [events [Hrun Hshape]]].
    rewrite Hrun. eexists _, _. split; [reflexivity|].
    right. split; [exact Hne | exact Hshape].
Qed.

(** A call that ends in a RequestException: the except clause prints and
    returns the identity mapping. *)
Lemma translate_batch_failure (texts : list pystr) (w : world) :
  submitted texts <> [] ->
  call_caught w (build_request self (submitted texts)) = true ->
  (forall why, prints w (MsgBatchError (RequestException why)) = true) ->
  exists why,
    translate_batch self texts w
    = (Returned (identity_mapping texts),
       record_events w [EvPost (build_request self (submitted texts));
                        EvPrint (MsgBatchError (RequestException why))]).
Proof.
  intros Hne Hfail Hp. unfold translate_batch.
  rewrite filter_loop_submitted. cbn [app].
  destruct (submitted texts) as [|t0 ts] eqn:Es; [contradiction|].
  rewrite <- Es in *. clear Es t0 ts.
  set (req := build_request self (submitted texts)) in *.
  assert (Hclause : forall why,
            (print (MsgBatchError (RequestException why)) ;;
             ret (identity_mapping texts)) (record_events w [EvPost req])
            = (Returned (identity_mapping texts),
               record_events w
                 [EvPost req;
                  EvPrint (MsgBatchError (RequestException why))])).
  { intros why. unfold bind. rewrite print_ok by apply Hp.
    unfold ret. rewrite record_events_app. reflexivity. }
  unfold try_except, bind at 1.
  destruct (requests_post_cases req w) as [o1 [Hpost Hkind]]. rewrite Hpost.
  destruct o1 as [r|e].
  2:{ destruct Hkind as [[why [-> _]] | [_ [_ Hno]]]; [|congruence].
      exists why. apply Hclause. }
  destruct Hkind as [Hsend Hr].
  unfold call_caught in Hfail. fold req in Hfail. rewrite Hr, Hsend in Hfail.
  unfold sendable in Hsend. apply andb_true_iff in Hsend.
  destruct Hsend as [Hsend _]. apply andb_true_iff in Hsend.
  destruct Hsend as [Hvalid _]. rewrite Hvalid in Hfail.
  cbn [negb orb andb call_fails] in Hfail.
  unfold bind at 1, raise_for_status.
  destruct ((400 <=? status_code r) && (status_code r <? 600))%Z eqn:Hs.
  { exists (HTTPError (status_code r)). cbn [raise]. apply Hclause. }
  cbn [ret orb] in *. unfold bind at 1, response_json.
  destruct (body r); [discriminate|].
  destruct (defect r); [discriminate|].
  exists InvalidJSON. cbn [raise]. apply Hclause.
Qed.

(** A call that succeeds with a body that carries one text per submitted
    string. *)
Lemma translate_batch_success (texts : list pystr) (w : world) (r : response)
    (document : json) (translated : list json) :
  submitted texts <> [] ->
  sendable (build_request self (submitted texts)) = true ->
  remote w (trace w) (build_request self (submitted texts)) = Some r ->
  call_fails (Some r) = false ->
  body r = Some document ->
  carries document translated ->
  length translated = length (submitted texts) ->
  Forall (fun line => prints w line = true)
         (translated_lines texts translated) ->
  sleeps w (delay self) ->
  translate_batch self texts w
  = (Returned (dict_update [] (assignments texts translated)),
     record_events w
       (EvPost (build_request self (submitted texts))
        :: map EvPrint (translated_lines texts translated)
        ++ [EvSleep (delay self)])).
Proof.
  intros Hne Hsend Hr Hok Hbody [items [Hitems Hcarry]] Hlen Hp Hsleep.
  unfold translate_batch. rewrite filter_loop_submitted. cbn [app].
  destruct (submitted texts) as [|t0 ts] eqn:Es; [contradiction|].
  rewrite <- Es in *. clear Es t0 ts.
  unfold try_except, bind at 1.
  rewrite (requests_post_ok _ _ _ Hsend Hr).
  simpl in Hok. apply orb_false_iff in Hok. destruct Hok as [Hstatus _].
  unfold bind at 1, raise_for_status. rewrite Hstatus. cbn [ret].
  unfold bind at 1, response_json. rewrite Hbody. cbn [ret].
  unfold bind at 1, lift. rewrite Hitems.
  unfold bind at 1.
  rewrite (merge_loop_success texts items translated [] 0
             (record_events w [EvPost (build_request self (submitted texts))])
             Hlen Hcarry Hp).
  unfold bind at 1. rewrite time_sleep_ok.
  - cbn [ret fst]. rewrite !record_events_app. reflexivity.
  - destruct Hsleep as [Hvalue Hclock]. split; [exact Hvalue | exact Hclock].
Qed.

(** Whatever the service does, a batch that returns returns a dictionary whose
    keys are the strings of the batch. *)
Lemma translate_batch_returns (texts : list pystr) (w w' : world) (d : pydict) :
  translate_batch self texts w = (Returned d, w') ->
  dict_keys d = add_keys [] texts.
Proof.
  unfold translate_batch. rewrite filter_loop_submitted. cbn [app].
  destruct (submitted texts) as [|t0 ts].
  - intros H. inversion H. apply identity_mapping_keys.
  - intros H. apply try_except_returned in H.
    destruct H as [H | [e [w1 [handler [_ [Hh H]]]]]].
    + apply bind_returned in H. destruct H as [r [w1 [_ H]]].
      apply bind_returned in H. destruct H as [[] [w2 [_ H]]].
      apply bind_returned in H. destruct H as [result [w3 [_ H]]].
      apply bind_returned in H. destruct H as [translations [w4 [_ H]]].
      apply bind_returned in H. destruct H as [[merged i] [w5 [Hmerge H]]].
      apply bind_returned in H. destruct H as [[] [w6 [_ H]]].
      inversion H; subst. simpl.
      apply merge_loop_returns in Hmerge. apply Hmerge.
    + destruct e; try discriminate. inversion Hh; subst handler.
      apply bind_returned in H. destruct H as [[] [w2 [_ H]]].
      inversion H. apply identity_mapping_keys.
Qed.

Lemma count_sleeps_post_prints (req : request) (lines : list message)
    (rest : list event) :
  count_sleeps (EvPost req :: map EvPrint lines ++ rest) = count_sleeps rest.
Proof.
  change (EvPost req :: map EvPrint lines ++ rest)
    with ([EvPost req] ++ map EvPrint lines ++ rest).
  rewrite !count_sleeps_app, count_sleeps_prints. reflexivity.
Qed.

Lemma call_succeeds_answer (w : world) (req : request) :
  call_succeeds w req = true ->
  sendable req = true /\
  call_caught w req = false /\
  exists r document,
    remote w (trace w) req = Some r /\ call_fails (Some r) = false /\
    body r = Some document.
Proof.
  unfold call_succeeds, call_caught. intros H.
  apply andb_true_iff in H. destruct H as [Hsend H].
  destruct (remote w (trace w) req) as [r|]; [|discriminate].
  apply andb_true_iff in H. destruct H as [Hs Hb].
  apply negb_true_iff in Hs.
  destruct (body r) as [document|] eqn:Hbody; [|discriminate].
  split; [exact Hsend|]. split.
  - pose proof Hsend as Hvalid. unfold sendable in Hvalid.
    apply andb_true_iff in Hvalid. destruct Hvalid as [Hvalid _].
    apply andb_true_iff in Hvalid. destruct Hvalid as [Hvalid _].
    rewrite Hvalid, Hsend. cbn [negb orb andb call_fails].
    rewrite Hs, Hbody. reflexivity.
  - exists r, document. split; [reflexivity|]. split; [|exact Hbody].
    cbn [call_fails]. rewrite Hs, Hbody. reflexivity.
Qed.

Lemma translate_batch_in_bounds (texts : list pystr) (w : world) (r : response)
    (document : json) (items : list json) :
  remote w (trace w) (build_request self (submitted texts)) = Some r ->
  body r = Some document ->
  getitem_str document (lit "translations") = Returned (JArr items) ->
  length (submitted texts) <= length items ->
  fst (translate_batch self texts w) <> Raised IndexError.
Proof.
  intros Hr Hb Hitems Hlen.
  unfold translate_batch. rewrite filter_loop_submitted. cbn [app].
  destruct (submitted texts) as [|t0 ts] eqn:Es; [discriminate|].
  rewrite <- Es in *. clear Es t0 ts.
  set (req := build_request self (submitted texts)) in *.
  assert (Hclause : forall why w1,
            fst ((print (MsgBatchError (RequestException why)) ;;
                  ret (identity_mapping texts)) w1) <> Raised IndexError).
  { intros why w1.
    destruct (except_clause_cases (RequestException why) texts w1)
      as [[_ H] | [_ H]]; rewrite H; discriminate. }
  unfold try_except, bind at 1.
  destruct (requests_post_cases req w) as [o1 [Hpost Hkind]]. rewrite Hpost.
  destruct o1 as [r'|e].
  2:{ destruct Hkind as [[why [-> _]] | [[-> | ->] _]];
        [apply Hclause | discriminate | discriminate]. }
  destruct Hkind as [_ Hr']. rewrite Hr in Hr'. inversion Hr'; subst r'.
  unfold bind at 1, raise_for_status.
  destruct ((400 <=? status_code r) && (status_code r <? 600))%Z;
    [cbn [raise]; apply Hclause|].
  cbn [ret]. unfold bind at 1, response_json. rewrite Hb. cbn [ret].
  unfold bind at 1, lift. rewrite Hitems. unfold bind at 1.
  pose proof (merge_loop_in_bounds texts items [] 0
                (record_events w [EvPost req]) Hlen) as Hsafe.
  destruct (merge_loop (JArr items) texts [] 0 _) as [[merged|e] w1].
  - unfold bind at 1.
    destruct (time_sleep_cases (delay self) w1) as [Hsl | [e [Hsl Hkind]]];
      rewrite Hsl; [discriminate|].
    destruct Hkind as [-> | [-> | [-> | ->]]]; discriminate.
  - simpl in Hsafe. destruct e; try discriminate; [congruence|].
    apply Hclause.
Qed.

(** C4.  On the success path of a batch (a batch holds distinct keys; the
    headers can be written, the response carries one translation per
    submitted string, the terminal shows the lines of the loop and the
    delay is slept): [requests.post] is called once, with exactly the strings
    the heuristic does not skip, in the order of the batch; the mapping
    returned has the strings of the batch as its keys, maps each skipped
    string to itself and the i-th submitted string to the i-th translation of
    the response.  In particular, with batch size 3 the keys 炎の剣,
    Fire Sword, 盾 are one batch, the request carries 炎の剣 and 盾, and the
    response Flame Sword, Shield yields the mapping 炎の剣 -> Flame Sword,
    Fire Sword -> Fire Sword, 盾 -> Shield (the four Japanese code points
    have no case in Unicode). *)
Theorem translate_batch_success_mapping (texts : list pystr) (w : world)
    (r : response) (document : json) (translated : list json) :
  NoDup texts ->
  submitted texts <> [] ->
  sendable (build_request self (submitted texts)) = true ->
  remote w (trace w) (build_request self (submitted texts)) = Some r ->
  call_fails (Some r) = false ->
  body r = Some document ->
  carries document translated ->
  length translated = length (submitted texts) ->
  Forall (fun line => prints w line = true)
         (translated_lines texts translated) ->
  sleeps w (delay self) ->
  (exists result events,
     translate_batch self texts w = (Returned result, record_events w events) /\
     events = EvPost (build_request self (submitted texts))
              :: map EvPrint (translated_lines texts translated)
              ++ [EvSleep (delay self)] /\
     posts events = [build_request self (submitted texts)] /\
     req_text (build_request self (submitted texts))
     = filter (fun text => negb (is_already_translated text)) texts /\
     dict_keys result = texts /\
     (forall text, In text texts -> is_already_translated text = true ->
                   dict_get result text = Some (JStr text)) /\
     (forall i text, nth_error (submitted texts) i = Some text ->
                     exists v, nth_error translated i = Some v /\
                               dict_get result text = Some v))
  /\
  (uncased 0x708E%N -> uncased 0x306E%N -> uncased 0x5263%N ->
   uncased 0x76FE%N ->
   forall w0,
     remote w0 (trace w0) (build_request self [flame_sword_ja; shield_ja])
     = Some sample_answer ->
     prints w0 (MsgTranslated flame_sword_ja (JStr (lit "Flame Sword")))
     = true ->
     prints w0 (MsgTranslated shield_ja (JStr (lit "Shield"))) = true ->
     sleeps w0 (delay self) ->
     py_range 0 3 3 = Returned [0%Z] /\
     batches_of sample_keys 3 [0%Z] = [sample_keys] /\
     submitted sample_keys = [flame_sword_ja; shield_ja] /\
     posts (trace (snd (translate_batch self sample_keys w0)))
     = posts (trace w0) ++ [build_request self [flame_sword_ja; shield_ja]] /\
     fst (translate_batch self sample_keys w0)
     = Returned [ (flame_sword_ja, JStr (lit "Flame Sword"));
                  (fire_sword, JStr (lit "Fire Sword"));
                  (shield_ja, JStr (lit "Shield")) ]).
Proof.
  intros Hnd Hne Hsend Hr Hok Hb Hcarry Hlen Hp Hsleep.
  assert (Hkeys : dict_keys (assignments texts translated) = texts).
  { apply assignments_keys. lia. }
  assert (Hfresh : dict_update [] (assignments texts translated)
                   = assignments texts translated).
  { apply dict_update_fresh. simpl. rewrite Hkeys. exact Hnd. }
  split.
  - exists (assignments texts translated).
    eexists. split; [|split; [reflexivity|]].
    + rewrite <- Hfresh.
      exact (translate_batch_success texts w r document translated Hne Hsend
               Hr Hok Hb Hcarry Hlen Hp Hsleep).
    + split.
      { change (EvPost (build_request self (submitted texts))
                :: map EvPrint (translated_lines texts translated)
                ++ [EvSleep (delay self)])
          with ([EvPost (build_request self (submitted texts))]
                ++ map EvPrint (translated_lines texts translated)
                ++ [EvSleep (delay self)]).
        rewrite !posts_app, posts_prints. reflexivity. }
      split; [reflexivity|]. split; [exact Hkeys|]. split.
      * intros text Hin Hskip. apply dict_get_In.
        -- rewrite Hkeys. exact Hnd.
        -- apply assignments_skipped; [lia | exact Hin | exact Hskip].
      * intros i text Hi.
        destruct (nth_error translated i) as [v|] eqn:Hv.
        -- exists v. split; [reflexivity|]. apply dict_get_In.
           ++ rewrite Hkeys. exact Hnd.
           ++ eapply assignments_submitted; eassumption.
        -- apply nth_error_None in Hv.
           assert (i < length (submitted texts)).
           { apply nth_error_Some. congruence. }
           lia.
  - clear - Hsend. intros H1 H2 H3 H4 w0 Hr0 Hp1 Hp2 Hsleep0.
    assert (Hflame : is_already_translated flame_sword_ja = false).
    { unfold is_already_translated, lower, flame_sword_ja. cbn [encodes_ascii forallb N.ltb N.compare Pos.compare Pos.compare_cont andb].
      cbn [lower_from N.ltb N.compare Pos.compare Pos.compare_cont app].
      rewrite H1, H2, H3. vm_compute. reflexivity. }
    assert (Hshield : is_already_translated shield_ja = false).
    { unfold is_already_translated, lower, shield_ja. cbn [encodes_ascii forallb N.ltb N.compare Pos.compare Pos.compare_cont andb].
      cbn [lower_from N.ltb N.compare Pos.compare Pos.compare_cont app].
      rewrite H4. vm_compute. reflexivity. }
    assert (Hfire : is_already_translated fire_sword = true).
    { apply ascii_is_translated. vm_compute. reflexivity. }
    assert (Hsub : submitted sample_keys = [flame_sword_ja; shield_ja]).
    { unfold submitted, sample_keys. cbn [filter].
      rewrite Hflame, Hfire, Hshield. reflexivity. }
    split; [reflexivity|]. split; [reflexivity|]. split; [exact Hsub|].
    assert (Hcarry : carries (translations_body
                                [translation (lit "Flame Sword");
                                 translation (lit "Shield")])
                             [JStr (lit "Flame Sword"); JStr (lit "Shield")]).
    { eexists. split; [reflexivity|].
      intros [|[|i]] text Hi; simpl in Hi;
        [inversion Hi; eexists; split; reflexivity ..|].
      destruct i; discriminate. }
    assert (Hlines : translated_lines sample_keys
                       [JStr (lit "Flame Sword"); JStr (lit "Shield")]
                     = [MsgTranslated flame_sword_ja (JStr (lit "Flame Sword"));
                        MsgTranslated shield_ja (JStr (lit "Shield"))]).
    { unfold translated_lines. rewrite Hsub. reflexivity. }
    assert (Hsend0 : sendable (build_request self (submitted sample_keys))
                     = true).
    { rewrite <- Hsend. apply sendable_same_key. reflexivity. }
    assert (Hrun : translate_batch self sample_keys w0
                   = (Returned
                        (dict_update []
                           (assignments sample_keys
                              [JStr (lit "Flame Sword"); JStr (lit "Shield")])),
                      record_events w0
                        (EvPost (build_request self (submitted sample_keys))
                         :: map EvPrint
                              (translated_lines sample_keys
                                 [JStr (lit "Flame Sword");
                                  JStr (lit "Shield")])
                         ++ [EvSleep (delay self)]))).
    { apply (translate_batch_success sample_keys w0 sample_answer
               (translations_body [translation (lit "Flame Sword");
                                   translation (lit "Shield")])
               [JStr (lit "Flame Sword"); JStr (lit "Shield")]).
      - rewrite Hsub. discriminate.
      - exact Hsend0.
      - rewrite Hsub. exact Hr0.
      - reflexivity.
      - reflexivity.
      - exact Hcarry.
      - rewrite Hsub. reflexivity.
      - rewrite Hlines. repeat constructor; assumption.
      - exact Hsleep0. }
    rewrite Hrun, Hsub, Hlines. split.
    + cbn [snd trace record_events].
      rewrite posts_app. cbn [posts map app]. reflexivity.
    + unfold sample_keys. cbn [fst assignments].
      rewrite Hflame, Hfire, Hshield. vm_compute. reflexivity.
Qed.

(** C6.  When the heuristic skips every string of the batch, [translate_batch]
    leaves the world as it found it (no request is sent, nothing is printed,
    no sleep) and returns the identity mapping: its keys are the strings of
    the batch and each maps to itself. *)
Theorem all_skipped_no_remote_call (texts : list pystr) (w : world) :
  (forall text, In text texts -> is_already_translated text = true) ->
  exists result,
    translate_batch self texts w = (Returned result, w) /\
    result = identity_mapping texts /\
    count_posts (trace (snd (translate_batch self texts w)))
    = count_posts (trace w) /\
    (forall text, In text texts -> dict_get result text = Some (JStr text)) /\
    (forall key, In key (dict_keys result) <-> In key texts).
Proof.
  intros Hskip. apply submitted_nil_iff in Hskip.
  exists (identity_mapping texts).
  rewrite (translate_batch_skip texts w Hskip).
  split; [reflexivity|]. split; [reflexivity|]. split; [reflexivity|]. split.
  - intros text Hin. apply identity_mapping_get. exact Hin.
  - intros key. rewrite identity_mapping_keys, add_keys_In. simpl. tauto.
Qed.

(** C7.  The delay is slept once, as the last event and after the call of
    [requests.post], in a batch whose call succeeds (and whose lines the
    terminal shows); a batch that needs no call leaves the trace alone; a
    batch whose call does not give a document never sleeps, whether the
    failure is caught (the batch then returns the identity mapping) or not.
    No run of [translate_batch] sleeps more than once, and a run that sleeps
    is one that returned after a call that gave a document. *)
Theorem delay_once_per_successful_call (texts : list pystr) (w : world) :
  (submitted texts = [] ->
   translate_batch self texts w = (Returned (identity_mapping texts), w))
  /\
  (submitted texts <> [] ->
   call_succeeds w (build_request self (submitted texts)) = false ->
   exists o events,
     translate_batch self texts w = (o, record_events w events) /\
     count_sleeps events = 0 /\
     (call_caught w (build_request self (submitted texts)) = true ->
      (forall why, prints w (MsgBatchError (RequestException why)) = true) ->
      o = Returned (identity_mapping texts)))
  /\
  (forall r document translated,
     submitted texts <> [] ->
     sendable (build_request self (submitted texts)) = true ->
     remote w (trace w) (build_request self (submitted texts)) = Some r ->
     call_fails (Some r) = false ->
     body r = Some document ->
     carries document translated ->
     length translated = length (submitted texts) ->
     Forall (fun line => prints w line = true)
            (translated_lines texts translated) ->
     sleeps w (delay self) ->
     exists d lines,
       translate_batch self texts w
       = (Returned d,
          record_events w
            (EvPost (build_request self (submitted texts))
             :: map EvPrint lines ++ [EvSleep (delay self)])) /\
       count_sleeps (EvPost (build_request self (submitted texts))
                     :: map EvPrint lines ++ [EvSleep (delay self)]) = 1)
  /\
  (exists o events,
     translate_batch self texts w = (o, record_events w events) /\
     count_sleeps events <= 1 /\
     (count_sleeps events = 1 ->
      submitted texts <> [] /\
      call_succeeds w (build_request self (submitted texts)) = true /\
      exists d lines,
        o = Returned d /\
        events = EvPost (build_request self (submitted texts))
                 :: map EvPrint lines ++ [EvSleep (delay self)])).
Proof.
  split; [apply translate_batch_skip|]. split; [|split].
  - intros Hne Hfail.
    destruct (translate_batch_shape texts w) as [o [events [Hrun Hshape]]].
    exists o, events. split; [exact Hrun|].
    destruct Hshape as [[Hnil _] | [_ [lines [tail [-> Htail]]]]];
      [contradiction|].
    destruct Htail as [-> | [_ [Hok _]]]; [|congruence].
    split; [rewrite count_sleeps_post_prints; reflexivity|].
    intros Hcaught Hp.
    destruct (translate_batch_failure texts w Hne Hcaught Hp) as [why Hrun'].
    rewrite Hrun' in Hrun. inversion Hrun. reflexivity.
  - intros r document translated Hne Hsend Hr Hok Hb Hcarry Hlen Hp Hsleep.
    eexists _, _. split.
    + exact (translate_batch_success texts w r document translated Hne Hsend
               Hr Hok Hb Hcarry Hlen Hp Hsleep).
    + rewrite count_sleeps_post_prints. reflexivity.
  - destruct (translate_batch_shape texts w) as [o [events [Hrun Hshape]]].
    exists o, events. split; [exact Hrun|].
    destruct Hshape as [[_ [-> _]] | [Hne [lines [tail [-> Htail]]]]].
    { split; [apply Nat.le_0_l | discriminate]. }
    rewrite count_sleeps_post_prints.
    destruct Htail as [-> | [-> [Hok [d Ho]]]].
    + split; [apply Nat.le_0_l | discriminate].
    + split; [apply Nat.le_refl|]. intros _. split; [exact Hne|].
      split; [exact Hok|]. exists d, lines. split; [exact Ho | reflexivity].
Qed.

(** C10.  When the array of translations has at least as many elements as
    strings were submitted, the second loop never reads past its end (it
    never raises IndexError, and neither does [translate_batch]); the first
    loop and the second agree on the strings that are not skipped, so a walk
    that ends has consumed exactly one translation per submitted string; and
    elements past that count change nothing. *)
Theorem merge_walk_in_bounds (texts : list pystr) (items extra : list json)
    (w : world) (r : response) (document : json) :
  length (submitted texts) <= length items ->
  fst (filter_loop texts 0 [] []) = submitted texts /\
  (forall acc, fst (merge_loop (JArr items) texts acc 0 w) <> Raised IndexError)
  /\
  (forall acc d i w',
     merge_loop (JArr items) texts acc 0 w = (Returned (d, i), w') ->
     i = length (submitted texts) /\ i <= length items)
  /\
  (forall acc,
     merge_loop (JArr (items ++ extra)) texts acc 0 w
     = merge_loop (JArr items) texts acc 0 w)
  /\
  (remote w (trace w) (build_request self (submitted texts)) = Some r ->
   body r = Some document ->
   getitem_str document (lit "translations") = Returned (JArr items) ->
   fst (translate_batch self texts w) <> Raised IndexError).
Proof.
  intros Hlen. split; [apply (filter_loop_submitted texts 0 [] [])|].
  split; [|split; [|split]].
  - intros acc. apply merge_loop_in_bounds. exact Hlen.
  - intros acc d i w' Hrun. apply merge_loop_returns in Hrun.
    destruct Hrun as [_ Hi]. simpl in Hi. lia.
  - intros acc. apply merge_loop_ignores_extras. exact Hlen.
  - intros Hr Hb Hitems.
    exact (translate_batch_in_bounds texts w r document items Hr Hb Hitems Hlen).
Qed.

End BatchFacts.
(* ================================================================= *)
(** ** Batching *)

Lemma range_length_ceil (n : nat) (size : Z) :
  (1 <= size)%Z ->
  let count := Z.of_nat (range_length 0 (Z.of_nat n) size) in
  ((count - 1) * size < Z.of_nat n <= count * size)%Z.
Proof.
  intros Hsize. unfold range_length.
  destruct (0 <? size)%Z eqn:Hpos; [|apply Z.ltb_ge in Hpos; lia].
  destruct (0 <? Z.of_nat n)%Z eqn:Hn.
  - apply Z.ltb_lt in Hn. cbv zeta.
    rewrite Z.sub_0_r.
    pose proof (Z.div_mod (Z.of_nat n - 1) size ltac:(lia)) as Hdm.
    pose proof (Z.mod_pos_bound (Z.of_nat n - 1) size ltac:(lia)) as Hmod.
    assert (0 <= (Z.of_nat n - 1) / size)%Z by (apply Z.div_pos; lia).
    rewrite Z2Nat.id by lia. nia.
  - apply Z.ltb_ge in Hn. cbv zeta. change (Z.of_nat 0) with 0%Z. lia.
Qed.

Lemma ceil_unique (n size count : Z) :
  (1 <= size)%Z ->
  ((count - 1) * size < n <= count * size)%Z ->
  count = ((n + size - 1) / size)%Z.
Proof.
  intros Hsize Hc.
  apply (Z.div_unique_pos _ _ _ (n + size - 1 - size * count)); lia.
Qed.

Lemma firstn_add {A : Type} (n m : nat) (l : list A) :
  firstn (n + m) l = firstn n l ++ firstn m (skipn n l).
Proof.
  revert l; induction n as [|n IH]; intros l; [reflexivity|].
  destruct l as [|x l]; simpl.
  - destruct m; reflexivity.
  - rewrite IH. reflexivity.
Qed.

(** Inside the list, the slice the loop takes is the next [size] elements, or
    what is left of the list. *)
Lemma py_slice_chunk {A : Type} (l : list A) (k b : nat) :
  1 <= b -> k * b <= length l ->
  py_slice l (0 + Z.of_nat k * Z.of_nat b)
             (0 + Z.of_nat k * Z.of_nat b + Z.of_nat b)
  = firstn b (skipn (k * b) l).
Proof.
  intros Hb Hk. unfold py_slice, slice_bound.
  assert (Hlo : (0 + Z.of_nat k * Z.of_nat b <? 0)%Z = false)
    by (apply Z.ltb_ge; lia).
  assert (Hhi : (0 + Z.of_nat k * Z.of_nat b + Z.of_nat b <? 0)%Z = false)
    by (apply Z.ltb_ge; lia).
  rewrite Hlo, Hhi.
  replace (Z.to_nat (Z.min (0 + Z.of_nat k * Z.of_nat b) (Z.of_nat (length l))))
    with (k * b) by lia.
  destruct (Nat.le_gt_cases (k * b + b) (length l)) as [Hin | Hout].
  - replace (Z.to_nat (Z.min (0 + Z.of_nat k * Z.of_nat b + Z.of_nat b)
                             (Z.of_nat (length l))) - k * b)
      with b by lia.
    reflexivity.
  - replace (Z.to_nat (Z.min (0 + Z.of_nat k * Z.of_nat b + Z.of_nat b)
                             (Z.of_nat (length l))) - k * b)
      with (length l - k * b) by lia.
    rewrite !firstn_all2; [reflexivity | |]; rewrite length_skipn; lia.
Qed.

Lemma concat_chunks {A : Type} (l : list A) (b count : nat) :
  concat (map (fun k => firstn b (skipn (k * b) l)) (seq 0 count))
  = firstn (count * b) l.
Proof.
  induction count as [|count IH]; [reflexivity|].
  rewrite seq_S, map_app, concat_app, IH. simpl.
  rewrite app_nil_r, (Nat.add_comm b), firstn_add. reflexivity.
Qed.

(** The batches of a list, for a size of at least one, are its consecutive
    chunks. *)
Lemma batches_of_chunks (texts : list pystr) (size : Z) :
  (1 <= size)%Z ->
  batches_of texts size
    (map (fun k => (0 + Z.of_nat k * size)%Z)
         (seq 0 (range_length 0 (Z.of_nat (length texts)) size)))
  = map (fun k => firstn (Z.to_nat size) (skipn (k * Z.to_nat size) texts))
        (seq 0 (range_length 0 (Z.of_nat (length texts)) size)).
Proof.
  intros Hsize. unfold batches_of. rewrite map_map.
  apply map_ext_in. intros k Hk. apply in_seq in Hk.
  pose proof (range_length_ceil (length texts) size Hsize) as Hceil.
  cbv zeta in Hceil.
  rewrite <- (Z2Nat.id size) at 1 2 3 by lia.
  apply py_slice_chunk; [lia|]. nia.
Qed.

Lemma NoDup_concat_unique {A : Type} (ls : list (list A)) :
  NoDup (concat ls) ->
  forall i j a b x,
    nth_error ls i = Some a -> nth_error ls j = Some b ->
    In x a -> In x b -> i = j.
Proof.
  induction ls as [|l ls IH]; intros Hnd i j a b x Hi Hj Ha Hb.
  - destruct i; discriminate.
  - simpl in Hnd.
    assert (Hsep : forall y c n, In y l -> nth_error ls n = Some c ->
                                 In y c -> False).
    { intros y c n Hy Hn Hc. apply in_split in Hy.
      destruct Hy as [l1 [l2 ->]]. rewrite <- app_assoc in Hnd. simpl in Hnd.
      apply NoDup_remove_2 in Hnd. apply Hnd.
      apply in_or_app. right. apply in_or_app. right.
      apply in_concat. exists c. split; [|exact Hc].
      eapply nth_error_In. exact Hn. }
    destruct i as [|i], j as [|j]; simpl in Hi, Hj.
    + reflexivity.
    + inversion Hi; subst. exfalso. eapply Hsep; eassumption.
    + inversion Hj; subst. exfalso. eapply Hsep; eassumption.
    + f_equal. apply NoDup_app_remove_l in Hnd.
      eapply IH; eassumption.
Qed.

Lemma batches_partition_helper (texts : list pystr) (size : Z) :
  (1 <= size)%Z ->
  exists indices,
    py_range 0 (Z.of_nat (length texts)) size = Returned indices /\
    concat (batches_of texts size indices) = texts.
Proof.
  intros Hsize. eexists. split.
  { unfold py_range. destruct (size =? 0)%Z eqn:E; [|reflexivity].
    apply Z.eqb_eq in E. lia. }
  rewrite (batches_of_chunks texts size Hsize), concat_chunks.
  apply firstn_all2.
  pose proof (range_length_ceil (length texts) size Hsize) as Hceil.
  cbv zeta in Hceil. nia.
Qed.

Lemma add_keys_nested (new : list pystr) :
  forall keys a,
    add_keys keys (add_keys a new) = add_keys (add_keys keys a) new.
Proof.
  induction new as [|n new IH]; intros keys a; [reflexivity|].
  change (add_keys a (n :: new))
    with (add_keys (if existsb (fun k => pystr_eqb k n) a then a
                    else a ++ [n]) new).
  change (add_keys (add_keys keys a) (n :: new))
    with (add_keys (if existsb (fun k => pystr_eqb k n) (add_keys keys a)
                    then add_keys keys a else add_keys keys a ++ [n]) new).
  rewrite IH. f_equal.
  destruct (existsb (fun k => pystr_eqb k n) a) eqn:Ea.
  - apply existsb_key in Ea.
    assert (Hin : In n (add_keys keys a)) by (apply add_keys_In; auto).
    apply existsb_key in Hin. rewrite Hin. reflexivity.
  - rewrite add_keys_app. reflexivity.
Qed.

(** [json.dump] into a file: a run that returns has written the dictionary,
    and it returns when the path can be written and no string holds a
    surrogate. *)
Lemma dump_json_file_ok (p : pystr) (content : pydict) (w : world) :
  unwritable w p = None ->
  utf8_json (JObj content) = true ->
  dump_json_file (JStr p) content w = (Returned tt, written w p content).
Proof. unfold dump_json_file. intros -> ->. reflexivity. Qed.

Lemma dump_json_file_returned (path : json) (content : pydict) (w w' : world)
    (a : unit) :
  dump_json_file path content w = (Returned a, w') ->
  exists p,
    path = JStr p /\ unwritable w p = None /\
    utf8_json (JObj content) = true /\ w' = written w p content.
Proof.
  unfold dump_json_file, raise. destruct path; try discriminate.
  destruct (unwritable w s) as [[| | | |]|] eqn:Hw; try discriminate.
  destruct (utf8_json (JObj content)) eqn:Hu; [|discriminate].
  intros H. inversion H. exists s.
  split; [reflexivity|]. split; [exact Hw|]. split; reflexivity.
Qed.

Lemma bind_cong {A B : Type} (m1 m2 : M A) (k1 k2 : A -> M B) (w : world) :
  m1 w = m2 w -> (forall a w1, k1 a w1 = k2 a w1) ->
  bind m1 k1 w = bind m2 k2 w.
Proof.
  intros Hm Hk. unfold bind. rewrite Hm.
  destruct (m2 w) as [[a|e] w1]; [apply Hk | reflexivity].
Qed.

Section BatchingFacts.
Context {U : UnicodeData}.
Variable self : DeepLTranslator.

(** The loop over the values of [range] is the loop over the batches: the
    k-th value is k times the size, its slice is the k-th batch, and its
    batch number is k + 1. *)
Lemma batch_loop_process (texts : list pystr) (total : nat) (size : Z) :
  (1 <= size)%Z ->
  as_index (batch_size self) = Returned size ->
  forall count first translated_data processed w,
    batch_loop self texts total
      (map (fun k => (0 + Z.of_nat k * size)%Z) (seq first count))
      translated_data processed w
    = process_batches self total size
        (batches_of texts size
           (map (fun k => (0 + Z.of_nat k * size)%Z) (seq first count)))
        (Z.of_nat first + 1) translated_data processed w.
Proof.
  intros Hsize Hidx.
  induction count as [|count IH]; intros first translated_data processed w.
  - reflexivity.
  - cbn [seq map batches_of batch_loop process_batches].
    unfold bind at 1, lift. rewrite Hidx.
    replace ((0 + Z.of_nat first * size) / size + 1)%Z
      with (Z.of_nat first + 1)%Z
      by (rewrite Z.add_0_l, Z.div_mul by lia; reflexivity).
    unfold bind at 1 3.
    destruct (translate_batch self _ w) as [[d|e] w1]; [|reflexivity].
    unfold bind at 1 2.
    destruct (print _ w1) as [[u|e] w2]; [|reflexivity].
    rewrite (IH (S first)). unfold batches_of.
    replace (Z.of_nat (S first) + 1)%Z with (Z.of_nat first + 1 + 1)%Z by lia.
    reflexivity.
Qed.

(** C5.  For a key list of length N and a batch size B >= 1 the loop of the
    orchestrator handles ceil(N/B) batches (the number k with
    (k-1)*B < N <= k*B, which is (N+B-1) div B); every batch but the last has
    B keys, the last has N mod B keys when that is not zero (and B
    otherwise); the batches joined in order are the key list, so a key of a
    duplicate-free list lies in exactly one batch.  These batches are what
    the loop works on: [batch_loop] over the values of [range] hands each of
    them, in order and with its number, to [translate_batch], and
    [translate_json_file] on a document with these keys is the first line,
    this loop, the dump and the closing lines. *)
Theorem batches_partition_keys (texts : list pystr) (size : Z) :
  (1 <= size)%Z ->
  exists indices,
    py_range 0 (Z.of_nat (length texts)) size = Returned indices /\
    let batches := batches_of texts size indices in
    let count := Z.of_nat (length batches) in
    let n := Z.of_nat (length texts) in
    ((count - 1) * size < n <= count * size)%Z /\
    count = ((n + size - 1) / size)%Z /\
    concat batches = texts /\
    (forall k batch,
       nth_error batches k = Some batch -> S k < length batches ->
       Z.of_nat (length batch) = size) /\
    (forall batch,
       nth_error batches (length batches - 1) = Some batch ->
       Z.of_nat (length batch)
       = if (n mod size =? 0)%Z then size else (n mod size)%Z) /\
    (forall batch, In batch batches ->
                   (1 <= Z.of_nat (length batch) <= size)%Z) /\
    (NoDup texts ->
     forall key, In key texts ->
       exists k batch,
         nth_error batches k = Some batch /\ In key batch /\
         forall k' batch', nth_error batches k' = Some batch' ->
                           In key batch' -> k' = k) /\
    (as_index (batch_size self) = Returned size ->
     forall total translated_data processed w,
       batch_loop self texts total indices translated_data processed w
       = process_batches self total size batches 1 translated_data
                         processed w) /\
    (as_index (batch_size self) = Returned size ->
     forall (D : pydict) (inp : pystr) (out : json) (w : world),
       dict_keys D = texts ->
       getitem_str (config self) (lit "input_file") = Returned (JStr inp) ->
       getitem_str (config self) (lit "output_file") = Returned out ->
       files w inp = Some (Json (JObj D)) ->
       translate_json_file self w
       = (print (MsgStarting (length D) (batch_size self)) ;;
          done <- process_batches self (length texts) size batches 1 [] 0 ;;
          dump_json_file out (fst done) ;;
          print (MsgComplete out) ;;
          print (MsgTotalEntries (snd done)) ;;
          print (MsgTotalCalls ((n + size - 1) / size)%Z)) w).
Proof.
  intros Hsize. eexists. split.
  { unfold py_range. destruct (size =? 0)%Z eqn:E; [|reflexivity].
    apply Z.eqb_eq in E. lia. }
  cbv zeta.
  assert (Hloop : as_index (batch_size self) = Returned size ->
            forall total translated_data processed w,
              batch_loop self texts total
                (map (fun k => (0 + Z.of_nat k * size)%Z)
                   (seq 0 (range_length 0 (Z.of_nat (length texts)) size)))
                translated_data processed w
              = process_batches self total size
                  (batches_of texts size
                     (map (fun k => (0 + Z.of_nat k * size)%Z)
                        (seq 0 (range_length 0 (Z.of_nat (length texts))
                                  size))))
                  1 translated_data processed w).
  { intros Hidx total translated_data processed w.
    exact (batch_loop_process texts total size Hsize Hidx _ 0 translated_data
             processed w). }
  assert (Hfile : as_index (batch_size self) = Returned size ->
            forall (D : pydict) (inp : pystr) (out : json) (w : world),
              dict_keys D = texts ->
              getitem_str (config self) (lit "input_file")
              = Returned (JStr inp) ->
              getitem_str (config self) (lit "output_file") = Returned out ->
              files w inp = Some (Json (JObj D)) ->
              translate_json_file self w
              = (print (MsgStarting (length D) (batch_size self)) ;;
                 done <- process_batches self (length texts) size
                           (batches_of texts size
                              (map (fun k => (0 + Z.of_nat k * size)%Z)
                                 (seq 0 (range_length 0
                                           (Z.of_nat (length texts)) size))))
                           1 [] 0 ;;
                 dump_json_file out (fst done) ;;
                 print (MsgComplete out) ;;
                 print (MsgTotalEntries (snd done)) ;;
                 print (MsgTotalCalls
                          ((Z.of_nat (length texts) + size - 1) / size)%Z)) w).
  { intros Hidx D inp out w Hkeys Hinp Hout Hfiles.
    unfold translate_json_file.
    unfold bind at 1, lift. rewrite Hinp.
    unfold bind at 1. rewrite Hout.
    unfold bind at 1, try_except, load_json_file. rewrite Hfiles.
    unfold bind at 1. cbn [py_len].
    apply bind_cong; [reflexivity|]. intros u w1.
    unfold bind at 1. cbn [keys_method]. cbv zeta. rewrite Hkeys.
    unfold bind at 1. rewrite Hidx.
    unfold bind at 1, py_range.
    destruct (size =? 0)%Z eqn:E; [apply Z.eqb_eq in E; lia|].
    apply bind_cong; [apply (Hloop Hidx) | reflexivity]. }
  rewrite (batches_of_chunks texts size Hsize) in *.
  set (b := Z.to_nat size).
  set (count := range_length 0 (Z.of_nat (length texts)) size).
  pose proof (range_length_ceil (length texts) size Hsize) as Hceil.
  cbv zeta in Hceil. fold count in Hceil.
  rewrite length_map, length_seq.
  assert (Hconcat : concat (map (fun k => firstn b (skipn (k * b) texts))
                                (seq 0 count)) = texts).
  { rewrite concat_chunks. apply firstn_all2. subst b. nia. }
  assert (Hnth : forall k batch,
             nth_error (map (fun k => firstn b (skipn (k * b) texts))
                            (seq 0 count)) k = Some batch ->
             k < count /\ batch = firstn b (skipn (k * b) texts)).
  { intros k batch H. rewrite nth_error_map, nth_error_seq in H.
    destruct (k <? count) eqn:Hk; [|discriminate].
    apply Nat.ltb_lt in Hk. simpl in H. inversion H. split; [exact Hk | reflexivity]. }
  split; [exact Hceil|]. split; [apply ceil_unique; assumption|].
  split; [exact Hconcat|].
  split; [|split; [|split; [|split; [|split; [exact Hloop | exact Hfile]]]]].
  - intros k batch Hk Hlast. apply Hnth in Hk. destruct Hk as [_ ->].
    rewrite length_firstn, length_skipn. subst b. nia.
  - intros batch Hk. apply Hnth in Hk. destruct Hk as [Hlt ->].
    rewrite length_firstn, length_skipn.
    pose proof (Z.div_mod (Z.of_nat (length texts)) size ltac:(lia)) as Hdm.
    pose proof (Z.mod_pos_bound (Z.of_nat (length texts)) size ltac:(lia))
      as Hmod.
    assert (Hq : (0 <= Z.of_nat (length texts) / size)%Z)
      by (apply Z.div_pos; lia).
    destruct (Z.of_nat (length texts) mod size =? 0)%Z eqn:E.
    + apply Z.eqb_eq in E.
      assert (Z.of_nat count = Z.of_nat (length texts) / size)%Z by nia.
      subst b. nia.
    + apply Z.eqb_neq in E.
      assert (Z.of_nat count = Z.of_nat (length texts) / size + 1)%Z by nia.
      subst b. nia.
  - intros batch Hin. apply In_nth_error in Hin. destruct Hin as [k Hk].
    apply Hnth in Hk. destruct Hk as [Hlt ->].
    rewrite length_firstn, length_skipn. subst b. nia.
  - intros Hnd key Hin. rewrite <- Hconcat in Hin.
    apply in_concat in Hin. destruct Hin as [batch [Hb Hkey]].
    apply In_nth_error in Hb. destruct Hb as [k Hk].
    exists k, batch. split; [exact Hk|]. split; [exact Hkey|].
    intros k' batch' Hk' Hkey'.
    rewrite <- Hconcat in Hnd.
    exact (NoDup_concat_unique _ Hnd k' k batch' batch key Hk' Hk Hkey' Hkey).
Qed.

End BatchingFacts.

(* ================================================================= *)
(** ** translate_json_file *)

Section OrchestratorFacts.
Context {U : UnicodeData}.
Variable self : DeepLTranslator.

(** Whenever the loop over the batches runs to its end, the accumulated
    dictionary has gained the keys of all batches and [processed] has grown by
    their number. *)
Lemma batch_loop_returns (texts : list pystr) (total : nat) (size : Z) :
  as_index (batch_size self) = Returned size ->
  forall indices acc processed w d p w',
    batch_loop self texts total indices acc processed w
    = (Returned (d, p), w') ->
    dict_keys d
    = add_keys (dict_keys acc) (concat (batches_of texts size indices)) /\
    p = processed + length (concat (batches_of texts size indices)).
Proof.
  intros Hsize.
  induction indices as [|i rest IH]; intros acc processed w d p w' Hrun.
  - simpl in Hrun. inversion Hrun; subst. simpl. split; [reflexivity | lia].
  - simpl in Hrun. bind_inv Hrun.
    apply lift_returned in Hstep. destruct Hstep as [Ha ->].
    rewrite Hsize in Ha. inversion Ha; subst a. clear Ha.
    bind_inv Hrun. apply translate_batch_returns in Hstep.
    bind_inv Hrun. apply IH in Hrun. destruct Hrun as [Hkeys Hp].
    simpl batches_of. rewrite concat_cons, add_keys_app, length_app.
    split; [|lia].
    rewrite Hkeys, dict_keys_update, Hstep, add_keys_nested. reflexivity.
Qed.

(** C1.  Whenever [translate_json_file] completes on an input document D
    with a batch size B >= 1, the object it has written to the output file
    has the keys of D and no others, each once, whatever the heuristic
    skipped and whatever the service answered; as D is a dictionary its keys
    are distinct, and then the output lists them in the order of D. *)
Theorem result_keys_equal_source_keys (w w' : world) (D : pydict) (B : Z)
    (inp out : pystr) :
  batch_size self = JInt B ->
  (1 <= B)%Z ->
  getitem_str (config self) (lit "input_file") = Returned (JStr inp) ->
  getitem_str (config self) (lit "output_file") = Returned (JStr out) ->
  files w inp = Some (Json (JObj D)) ->
  translate_json_file self w = (Returned tt, w') ->
  exists result,
    files w' out = Some (Json (JObj result)) /\
    In (EvWrite out result) (trace w') /\
    NoDup (dict_keys result) /\
    (forall key, In key (dict_keys result) <-> In key (dict_keys D)) /\
    (NoDup (dict_keys D) -> dict_keys result = dict_keys D).
Proof.
  intros Hbs HB Hinp Hout Hfile Hrun.
  unfold translate_json_file in Hrun.
  bind_inv Hrun. apply lift_returned in Hstep. destruct Hstep as [Ha ->].
  rewrite Hinp in Ha. inversion Ha; subst a. clear Ha.
  bind_inv Hrun. apply lift_returned in Hstep. destruct Hstep as [Ha ->].
  rewrite Hout in Ha. inversion Ha; subst a. clear Ha.
  bind_inv Hrun. unfold try_except, load_json_file in Hstep.
  rewrite Hfile in Hstep. inversion Hstep; subst a w0. clear Hstep.
  bind_inv Hrun. apply lift_returned in Hstep. destruct Hstep as [_ ->].
  bind_inv Hrun. apply print_returned in Hstep. destruct Hstep as [_ ->].
  bind_inv Hrun. apply lift_returned in Hstep. destruct Hstep as [Ha ->].
  inversion Ha; subst a1. clear Ha.
  bind_inv Hrun. apply lift_returned in Hstep. destruct Hstep as [Ha ->].
  rewrite Hbs in Ha. inversion Ha; subst a1. clear Ha.
  bind_inv Hrun. apply lift_returned in Hstep. destruct Hstep as [Ha ->].
  destruct (batches_partition_helper (dict_keys D) B HB)
    as [indices [Hrange Hconcat]].
  rewrite Hrange in Ha. inversion Ha; subst a1. clear Ha.
  bind_inv Hrun. destruct a1 as [result processed].
  apply (batch_loop_returns (dict_keys D) (length (dict_keys D)) B) in Hstep;
    [|rewrite Hbs; reflexivity].
  rewrite Hconcat in Hstep. destruct Hstep as [Hkeys _]. simpl in Hkeys.
  bind_inv Hrun. apply dump_json_file_returned in Hstep.
  destruct Hstep as [p [Hp [_ [_ ->]]]]. inversion Hp; subst p. clear Hp.
  bind_inv Hrun. apply print_returned in Hstep. destruct Hstep as [_ ->].
  bind_inv Hrun. apply print_returned in Hstep. destruct Hstep as [_ ->].
  apply print_returned in Hrun. destruct Hrun as [_ ->].
  exists result. cbn [fst]. split; [|split; [|split; [|split]]].
  - cbn. rewrite pystr_eqb_refl. reflexivity.
  - cbn. rewrite !in_app_iff. left. left. left. right. left. reflexivity.
  - rewrite Hkeys. apply add_keys_NoDup. constructor.
  - intros key. rewrite Hkeys, add_keys_In. simpl. tauto.
  - intros Hnd. rewrite Hkeys. apply add_keys_fresh. exact Hnd.
Qed.

End OrchestratorFacts.
(* ================================================================= *)
(** ** Construction and the fatal conditions *)

Lemma getitem_str_raises (obj : json) (key : pystr) (e : exn) :
  getitem_str obj key = Raised e -> e = KeyError \/ e = TypeError.
Proof.
  unfold getitem_str. destruct obj; try (intros H; inversion H; auto).
  destruct (dict_get members key); inversion H; auto.
Qed.

Lemma endswith_spec (s suffix : pystr) :
  endswith s suffix = true <-> exists prefix, s = prefix ++ suffix.
Proof.
  unfold endswith. rewrite pystr_eqb_eq. split.
  - intros H. exists (firstn (length s - length suffix) s).
    pose proof (firstn_skipn (length s - length suffix) s) as Hsplit.
    rewrite H in Hsplit. symmetry. exact Hsplit.
  - intros [prefix ->]. rewrite length_app.
    replace (length prefix + length suffix - length suffix)
      with (length prefix) by lia.
    rewrite skipn_app, skipn_all, Nat.sub_diag. reflexivity.
Qed.

Lemma select_api_url_cases (key : pystr) :
  (endswith key free_suffix = true /\ select_api_url key = free_api_url) \/
  (endswith key free_suffix = false /\ select_api_url key = paid_api_url).
Proof.
  unfold select_api_url. destruct (endswith key free_suffix); auto.
Qed.

Lemma urls_differ : free_api_url <> paid_api_url.
Proof. apply pystr_eqb_neq. vm_compute. reflexivity. Qed.

(** A construction that returns left the world as it was, read its fields
    from the configuration file, and did not find the placeholder there. *)
Lemma init_returned (config_file : pystr) (w w' : world)
    (self : DeepLTranslator) :
  init config_file w = (Returned self, w') ->
  w' = w /\
  files w config_file = Some (Json (config self)) /\
  getitem_str (config self) (lit "deepl_api_key")
  = Returned (JStr (api_key self)) /\
  api_key self <> placeholder_key /\
  api_url self = select_api_url (api_key self).
Proof.
  unfold init. intros H.
  bind_inv H. unfold load_config in Hstep.
  apply try_except_returned in Hstep.
  destruct Hstep as [Hbody | [e [w1 [handler [_ [Hh Hrun]]]]]].
  2:{ destruct e; try discriminate; inversion Hh; subst handler;
      bind_inv Hrun; discriminate. }
  bind_inv Hbody. unfold load_json_file in Hstep.
  destruct (files w config_file) as [[|why|document]|] eqn:Hfile;
    try discriminate.
  inversion Hstep; subst a0 w1. clear Hstep.
  bind_inv Hbody. apply lift_returned in Hstep. destruct Hstep as [Hkey ->].
  destruct (equals_str a0 placeholder_key) eqn:Hplace; [discriminate|].
  inversion Hbody; subst a w0. clear Hbody.
  bind_inv H. apply lift_returned in Hstep. destruct Hstep as [Hkey' ->].
  rewrite Hkey in Hkey'. inversion Hkey'; subst a. clear Hkey'.
  bind_inv H. apply lift_returned in Hstep. destruct Hstep as [_ ->].
  bind_inv H. apply lift_returned in Hstep. destruct Hstep as [_ ->].
  bind_inv H. apply lift_returned in Hstep. destruct Hstep as [_ ->].
  bind_inv H. apply lift_returned in Hstep. destruct Hstep as [_ ->].
  destruct a0 as [| | | |k| |]; try discriminate.
  inversion H; subst. simpl. repeat split; try assumption; try reflexivity.
  intros Heq. subst k. unfold equals_str in Hplace.
  rewrite pystr_eqb_refl in Hplace. discriminate.
Qed.

(** The construction on a configuration file that holds an object with a
    string key other than the placeholder and the four other entries. *)
Lemma init_runs (config_file : pystr) (w : world) (cfg src tgt dly bsz : json)
    (k : pystr) :
  files w config_file = Some (Json cfg) ->
  getitem_str cfg (lit "deepl_api_key") = Returned (JStr k) ->
  k <> placeholder_key ->
  getitem_str cfg (lit "source_language") = Returned src ->
  getitem_str cfg (lit "target_language") = Returned tgt ->
  getitem_str cfg (lit "delay_between_requests") = Returned dly ->
  getitem_str cfg (lit "batch_size") = Returned bsz ->
  init config_file w
  = (Returned {| config := cfg; api_key := k; source_lang := src;
                 target_lang := tgt; delay := dly; batch_size := bsz;
                 api_url := select_api_url k |}, w).
Proof.
  intros Hcfg Hkey Hk Hsrc Htgt Hdly Hbs.
  unfold init, load_config, try_except, load_json_file, bind, lift.
  rewrite Hcfg, Hkey.
  assert (Hplace : equals_str (JStr k) placeholder_key = false).
  { unfold equals_str. apply pystr_eqb_neq. exact Hk. }
  rewrite Hplace. cbn [ret]. rewrite Hkey, Hsrc, Htgt, Hdly, Hbs.
  reflexivity.
Qed.

(** The outcome of a construction depends on the files only. *)
Lemma init_frame (config_file : pystr) (w w' : world) (self : DeepLTranslator)
    (events : list event) :
  init config_file w = (Returned self, w') ->
  init config_file (record_events w events)
  = (Returned self, record_events w events).
Proof.
  intros H. pose proof (init_returned _ _ _ _ H) as [-> [Hfile _]].
  revert H.
  unfold init, load_config, try_except, bind, load_json_file, lift.
  cbn [files record_events]. rewrite Hfile.
  destruct (getitem_str (config self) (lit "deepl_api_key")) as [key|e];
    [|destruct e; try discriminate;
      unfold print, sys_exit, raise; destruct (prints _ _); discriminate].
  destruct (equals_str key placeholder_key); [discriminate|].
  cbn [ret].
  repeat match goal with
         | |- context [getitem_str (config self) ?k] =>
             destruct (getitem_str (config self) k); [|discriminate]
         end.
  match goal with
  | |- match ?k with _ => _ end _ = _ -> _ => destruct k; try discriminate
  end.
  unfold ret. intros H. inversion H. reflexivity.
Qed.

(** C8.  The URL is a function of the credential alone: the free-tier URL
    exactly when the credential ends with ":fx", the paid URL for every other
    credential (the two URLs differ).  [__init__] computes it once, from the
    key the configuration file holds: a construction on a file with the key
    [k] returns a translator whose URL is that of [k]; conversely a
    translator that was constructed holds the configuration of the file, the
    key of that configuration, and the URL of that key; and every request of
    the translator goes to the URL stored then. *)
Theorem endpoint_from_credential (key : pystr) :
  (select_api_url key = free_api_url <->
   exists prefix, key = prefix ++ lit ":fx")
  /\
  (select_api_url key = paid_api_url <->
   ~ exists prefix, key = prefix ++ lit ":fx")
  /\
  free_api_url <> paid_api_url
  /\
  (forall config_file w cfg src tgt dly bsz,
     files w config_file = Some (Json cfg) ->
     getitem_str cfg (lit "deepl_api_key") = Returned (JStr key) ->
     key <> placeholder_key ->
     getitem_str cfg (lit "source_language") = Returned src ->
     getitem_str cfg (lit "target_language") = Returned tgt ->
     getitem_str cfg (lit "delay_between_requests") = Returned dly ->
     getitem_str cfg (lit "batch_size") = Returned bsz ->
     exists self,
       init config_file w = (Returned self, w) /\
       config self = cfg /\ api_key self = key /\
       api_url self = select_api_url key /\
       forall texts, req_url (build_request self texts) = select_api_url key)
  /\
  (forall config_file w w' self,
     init config_file w = (Returned self, w') ->
     w' = w /\
     files w config_file = Some (Json (config self)) /\
     getitem_str (config self) (lit "deepl_api_key")
     = Returned (JStr (api_key self)) /\
     api_url self = select_api_url (api_key self) /\
     forall texts, req_url (build_request self texts) = api_url self).
Proof.
  change (lit ":fx") with free_suffix.
  pose proof urls_differ as Hdiff.
  split; [|split; [|split; [|split]]].
  - rewrite <- endswith_spec.
    destruct (select_api_url_cases key) as [[He Hu] | [He Hu]];
      rewrite He, Hu; split; congruence.
  - rewrite <- endswith_spec.
    destruct (select_api_url_cases key) as [[He Hu] | [He Hu]];
      rewrite He, Hu; split; congruence.
  - exact Hdiff.
  - intros config_file w cfg src tgt dly bsz Hcfg Hkey Hk Hsrc Htgt Hdly Hbs.
    eexists. split.
    + exact (init_runs config_file w cfg src tgt dly bsz key Hcfg Hkey Hk
               Hsrc Htgt Hdly Hbs).
    + repeat split.
  - intros config_file w w' self H.
    apply init_returned in H. destruct H as [Hw [Hfile [Hkey [_ Hurl]]]].
    split; [exact Hw|]. split; [exact Hfile|]. split; [exact Hkey|].
    split; [exact Hurl | reflexivity].
Qed.

(** The two except clauses of [load_config]. *)
Lemma load_config_missing (config_file : pystr) (w : world) :
  files w config_file = None ->
  load_config config_file w
  = (print (MsgNotFound (JStr config_file)) ;; sys_exit 1) w.
Proof.
  intros Hfile. unfold load_config, try_except. unfold bind at 1.
  unfold load_json_file. rewrite Hfile. reflexivity.
Qed.

Lemma load_config_not_json (config_file : pystr) (w : world) :
  files w config_file = Some NotJson ->
  load_config config_file w
  = (print (MsgInvalidJSON (JStr config_file)) ;; sys_exit 1) w.
Proof.
  intros Hfile. unfold load_config, try_except. unfold bind at 1.
  unfold load_json_file. rewrite Hfile. reflexivity.
Qed.

Lemma exit_after_line (line : message) (w : world) :
  prints w line = true ->
  (print line ;; @sys_exit json 1) w
  = (Raised (SystemExit 1), record_events w [EvPrint line]).
Proof. intros H. unfold bind. rewrite (print_ok _ _ H). reflexivity. Qed.

(** [main] up to the construction: the banner and the rule are ASCII. *)
Lemma main_prefix {U : UnicodeData} (w : world) :
  main w
  = (translator <- init (lit "config.json") ;;
     translate_json_file translator)
      (record_events w [EvPrint MsgBanner; EvPrint MsgRule]).
Proof.
  unfold main. unfold bind at 1. rewrite print_ascii by reflexivity.
  unfold bind at 1. rewrite print_ascii by reflexivity.
  rewrite record_events_app. reflexivity.
Qed.

Section FatalConditions.
Context {U : UnicodeData}.

(** C9.  A missing configuration file, a configuration that is not JSON, a
    key equal to the placeholder and a missing input document each end the
    process with a status other than 0 (status 1: [sys.exit(1)], and for the
    placeholder the ValueError no except clause catches).  When the input
    document is missing the process ends with the files as they were and
    without having written anything. *)
Theorem fatal_conditions_exit_nonzero (w : world) :
  (files w (lit "config.json") = None ->
   exit_status (fst (main w)) = 1%Z /\ fst (main w) = Raised (SystemExit 1))
  /\
  (files w (lit "config.json") = Some NotJson ->
   exit_status (fst (main w)) = 1%Z /\ fst (main w) = Raised (SystemExit 1))
  /\
  (forall cfg,
     files w (lit "config.json") = Some (Json cfg) ->
     getitem_str cfg (lit "deepl_api_key") = Returned (JStr placeholder_key) ->
     exit_status (fst (main w)) = 1%Z /\ fst (main w) = Raised ValueError)
  /\
  (forall self w1 inp,
     init (lit "config.json") w = (Returned self, w1) ->
     getitem_str (config self) (lit "input_file") = Returned (JStr inp) ->
     files w inp = None ->
     exit_status (fst (main w)) <> 0%Z /\
     files (snd (main w)) = files w /\
     forall path content,
       In (EvWrite path content) (trace (snd (main w))) ->
       In (EvWrite path content) (trace w)).
Proof.
  split; [|split; [|split]].
  - intros Hfile.
    assert (Hmain : fst (main w) = Raised (SystemExit 1)).
    { rewrite main_prefix.
      unfold bind at 1. unfold init. unfold bind at 1.
      rewrite load_config_missing by exact Hfile.
      rewrite exit_after_line by reflexivity. reflexivity. }
    rewrite Hmain. split; reflexivity.
  - intros Hfile.
    assert (Hmain : fst (main w) = Raised (SystemExit 1)).
    { rewrite main_prefix.
      unfold bind at 1. unfold init. unfold bind at 1.
      rewrite load_config_not_json by exact Hfile.
      rewrite exit_after_line by reflexivity. reflexivity. }
    rewrite Hmain. split; reflexivity.
  - intros cfg Hfile Hkey.
    assert (Hmain : fst (main w) = Raised ValueError).
    { rewrite main_prefix.
      unfold init, load_config, try_except, load_json_file, bind, lift.
      cbn [files record_events]. rewrite Hfile, Hkey.
      unfold equals_str. rewrite pystr_eqb_refl. reflexivity. }
    rewrite Hmain. split; reflexivity.
  - intros self w1 inp Hinit Hinp Hfile.
    assert (Hmain : exists e events,
               main w = (Raised e, record_events w events) /\
               exit_status (Raised e) <> 0%Z /\
               forall path content, ~ In (EvWrite path content) events).
    { rewrite main_prefix. unfold bind at 1.
      rewrite (init_frame _ _ _ _ [EvPrint MsgBanner; EvPrint MsgRule] Hinit).
      unfold translate_json_file. unfold bind at 1, lift. rewrite Hinp.
      unfold bind at 1.
      destruct (getitem_str (config self) (lit "output_file")) as [out|e]
        eqn:Hout.
      - unfold bind at 1, try_except, load_json_file.
        cbn [files record_events]. rewrite Hfile.
        unfold bind at 1, print.
        destruct (prints _ (MsgNotFound (JStr inp))).
        + rewrite record_events_app.
          eexists _, _. split; [reflexivity|]. split; [cbn; discriminate|].
          intros path content Hin. simpl in Hin.
          destruct Hin as [H | [H | [H | []]]]; discriminate.
        + eexists _, _. split; [reflexivity|]. split; [cbn; discriminate|].
          intros path content Hin. simpl in Hin.
          destruct Hin as [H | [H | []]]; discriminate.
      - eexists _, _. split; [reflexivity|].
        split; [destruct (getitem_str_raises _ _ _ Hout); subst e; cbn;
                discriminate|].
        intros path content Hin. simpl in Hin.
        destruct Hin as [H | [H | []]]; discriminate. }
    destruct Hmain as [e [events [Hmain [Hexit Hnone]]]].
    rewrite Hmain. cbn [fst snd]. split; [exact Hexit|].
    split; [reflexivity|].
    intros path content Hin. cbn [trace record_events] in Hin.
    apply in_app_or in Hin. destruct Hin as [Hin | Hin]; [exact Hin|].
    exfalso. exact (Hnone path content Hin).
Qed.

End FatalConditions.

(* ================================================================= *)
(** ** Failures of the remote call *)

(** X2.  A call that ends in a RequestException (requests refuses the header
    value, no response arrives, or the response has a 4xx or 5xx status or a
    body that is not JSON) is caught.  When the terminal shows the line of
    the except clause, the batch returns after its one call of
    [requests.post] and every string of it maps to itself; when it does not,
    the UnicodeEncodeError of [print] leaves the batch. *)
Lemma request_failure_identity {U : UnicodeData} (self : DeepLTranslator)
    (texts : list pystr) (w : world) :
  submitted texts <> [] ->
  call_caught w (build_request self (submitted texts)) = true ->
  ((forall why, prints w (MsgBatchError (RequestException why)) = true) ->
   exists events,
     translate_batch self texts w
     = (Returned (identity_mapping texts), record_events w events) /\
     posts events = [build_request self (submitted texts)] /\
     count_sleeps events = 0 /\
     (forall text, In text texts ->
                   dict_get (identity_mapping texts) text = Some (JStr text)) /\
     (forall key, In key (dict_keys (identity_mapping texts)) <-> In key texts))
  /\
  ((forall why, prints w (MsgBatchError (RequestException why)) = false) ->
   translate_batch self texts w
   = (Raised UnicodeEncodeError,
      record_events w [EvPost (build_request self (submitted texts))])).
Proof.
  intros Hne Hfail. split.
  - intros Hp.
    destruct (translate_batch_failure self texts w Hne Hfail Hp) as [why Hrun].
    eexists. split; [exact Hrun|]. split; [reflexivity|].
    split; [reflexivity|]. split.
    + intros text Hin. apply identity_mapping_get. exact Hin.
    + intros key. rewrite identity_mapping_keys, add_keys_In. simpl. tauto.
  - intros Hp. unfold translate_batch.
    rewrite filter_loop_submitted. cbn [app].
    destruct (submitted texts) as [|t0 ts] eqn:Es; [contradiction|].
    rewrite <- Es in *. clear Es t0 ts.
    set (req := build_request self (submitted texts)) in *.
    assert (Hclause : forall why,
              (print (MsgBatchError (RequestException why)) ;;
               ret (identity_mapping texts)) (record_events w [EvPost req])
              = (Raised UnicodeEncodeError, record_events w [EvPost req])).
    { intros why. unfold bind. rewrite print_refused by apply Hp.
      reflexivity. }
    unfold try_except, bind at 1.
    destruct (requests_post_cases req w) as [o1 [Hpost Hkind]]. rewrite Hpost.
    destruct o1 as [r|e].
    2:{ destruct Hkind as [[why [-> _]] | [_ [_ Hno]]]; [|congruence].
        apply Hclause. }
    destruct Hkind as [Hsend Hr].
    unfold call_caught in Hfail. fold req in Hfail. rewrite Hr, Hsend in Hfail.
    unfold sendable in Hsend. apply andb_true_iff in Hsend.
    destruct Hsend as [Hsend _]. apply andb_true_iff in Hsend.
    destruct Hsend as [Hvalid _]. rewrite Hvalid in Hfail.
    cbn [negb orb andb call_fails] in Hfail.
    unfold bind at 1, raise_for_status.
    destruct ((400 <=? status_code r) && (status_code r <? 600))%Z eqn:Hs.
    { cbn [raise]. apply Hclause. }
    cbn [ret orb] in *. unfold bind at 1, response_json.
    destruct (body r); [discriminate|].
    destruct (defect r); [discriminate|].
    cbn [raise]. apply Hclause.
Qed.

(** C2, at the inputs where the code departs from it.  The batch 炎の剣,
    Fire Sword, 盾 is sent, and the service answers 200 with a JSON body that
    has no "translations" entry, or fewer translations than strings, or
    elements without "text": [translate_batch] raises KeyError or IndexError
    to its caller instead of returning the identity mapping, and the whole
    run ends there, with no output file. *)
Theorem malformed_body_escapes :
  fst (@translate_batch excerpt_unicode (sample_translator 3) sample_keys
         (world_of sample_files (Some empty_object_answer)))
  = Raised KeyError
  /\
  fst (@translate_batch excerpt_unicode (sample_translator 3) sample_keys
         (world_of sample_files (Some short_answer)))
  = Raised IndexError
  /\
  fst (@translate_batch excerpt_unicode (sample_translator 3) sample_keys
         (world_of sample_files (Some textless_answer)))
  = Raised KeyError
  /\
  fst (@main excerpt_unicode (world_of sample_files (Some empty_object_answer)))
  = Raised KeyError
  /\
  files (snd (@main excerpt_unicode
                (world_of sample_files (Some empty_object_answer))))
        (lit "output.json")
  = None.
Proof.
  split; [vm_compute; reflexivity|].
  split; [vm_compute; reflexivity|].
  split; [vm_compute; reflexivity|].
  split; vm_compute; reflexivity.
Qed.
(* ================================================================= *)
(** ** What a batch does to the world *)

Section BatchEffects.
Context {U : UnicodeData}.
Variable self : DeepLTranslator.

Lemma shape_counts (req : request) (lines : list message)
    (tail : list event) (seconds : json) :
  tail = [] \/ tail = [EvSleep seconds] ->
  posts (EvPost req :: map EvPrint lines ++ tail) = [req] /\
  count_posts (EvPost req :: map EvPrint lines ++ tail) = 1 /\
  leaves_files (EvPost req :: map EvPrint lines ++ tail) = true /\
  count_sleeps (EvPost req :: map EvPrint lines ++ tail) <= 1.
Proof.
  intros Htail.
  change (EvPost req :: map EvPrint lines ++ tail)
    with ([EvPost req] ++ map EvPrint lines ++ tail).
  rewrite !posts_app, !count_posts_app, !leaves_files_app, !count_sleeps_app,
    posts_prints, count_posts_prints, leaves_files_prints,
    count_sleeps_prints.
  destruct Htail; subst tail; cbn; auto.
Qed.

(** A request whose headers cannot be written, to a service that can be
    reached: the call raises, nothing catches the exception, and nothing
    else happens. *)
Lemma translate_batch_unsendable (texts : list pystr) (w : world)
    (r : response) :
  submitted texts <> [] ->
  valid_header_value
    (req_authorization (build_request self (submitted texts))) = true ->
  sendable (build_request self (submitted texts)) = false ->
  remote w (trace w) (build_request self (submitted texts)) = Some r ->
  exists e,
    translate_batch self texts w
    = (Raised e,
       record_events w [EvPost (build_request self (submitted texts))]) /\
    e = (if encodes_latin1
              (req_authorization (build_request self (submitted texts)))
         then ValueError else UnicodeEncodeError).
Proof.
  intros Hne Hvalid Hsend Hr. unfold translate_batch.
  rewrite filter_loop_submitted. cbn [app].
  destruct (submitted texts) as [|t0 ts] eqn:Es; [contradiction|].
  rewrite <- Es in *. clear Es t0 ts.
  unfold try_except, bind at 1, requests_post. rewrite Hvalid, Hr.
  unfold sendable in Hsend. rewrite Hvalid in Hsend. cbn [andb negb] in *.
  destruct (encodes_latin1 _); cbn [andb negb] in *.
  - apply negb_false_iff in Hsend. rewrite Hsend.
    eexists. split; reflexivity.
  - eexists. split; reflexivity.
Qed.

(** X3.  Whatever the world does and however the run ends (a return or an
    exception), one run of [translate_batch] calls [requests.post] once when
    the batch holds a string the heuristic does not skip and not at all
    otherwise; the call comes before everything else the run does, names the
    URL chosen at construction, has the key in its Authorization header, and
    carries the non-empty list of those strings; the run sleeps at most once
    and touches no file.  When the service can be reached but the header
    value cannot be written (a key with a character above U+00FF, or ending
    with a line feed), the call raises UnicodeEncodeError or ValueError,
    which leaves [translate_batch]. *)
Theorem translate_batch_effects (texts : list pystr) (w : world) :
  exists o events,
    translate_batch self texts w = (o, record_events w events) /\
    files (snd (translate_batch self texts w)) = files w /\
    posts events
    = (if needs_call texts then [build_request self (submitted texts)]
       else []) /\
    leaves_files events = true /\
    count_sleeps events <= 1 /\
    (needs_call texts = true ->
     exists rest,
       events = EvPost (build_request self (submitted texts)) :: rest /\
       req_text (build_request self (submitted texts)) <> [] /\
       req_url (build_request self (submitted texts)) = api_url self /\
       req_authorization (build_request self (submitted texts))
       = lit "DeepL-Auth-Key " ++ api_key self) /\
    (forall r,
       needs_call texts = true ->
       remote w (trace w) (build_request self (submitted texts)) = Some r ->
       valid_header_value (lit "DeepL-Auth-Key " ++ api_key self) = true ->
       ((encodes_latin1 (api_key self) = false ->
         o = Raised UnicodeEncodeError) /\
        (encodes_latin1 (api_key self) = true ->
         illegal_header_value (lit "DeepL-Auth-Key " ++ api_key self) = true ->
         o = Raised ValueError))).
Proof.
  destruct (translate_batch_shape self texts w) as [o [events [Hrun Hshape]]].
  exists o, events. rewrite Hrun. split; [reflexivity|].
  split; [reflexivity|]. unfold needs_call.
  destruct Hshape as [[Hnil [-> _]] | [Hne [lines [tail [-> Htail]]]]].
  - rewrite Hnil. repeat split; auto; discriminate.
  - assert (Htail' : tail = [] \/ tail = [EvSleep (delay self)])
      by (destruct Htail as [-> | [-> _]]; auto).
    destruct (shape_counts (build_request self (submitted texts)) lines tail
                (delay self) Htail') as [Hp [_ [Hw Hs]]].
    destruct (submitted texts) as [|t0 ts] eqn:Es; [contradiction|].
    rewrite <- Es in *.
    split; [exact Hp|]. split; [exact Hw|]. split; [exact Hs|]. split.
    { intros _. eexists. split; [reflexivity|].
      split; [exact Hne|]. split; reflexivity. }
    intros r _ Hr Hvalid.
    assert (Hcase : sendable (build_request self (submitted texts)) = false ->
              o = Raised (if encodes_latin1
                               (lit "DeepL-Auth-Key " ++ api_key self)
                          then ValueError else UnicodeEncodeError)).
    { intros Hsend.
      destruct (translate_batch_unsendable texts w r Hne Hvalid Hsend Hr)
        as [e [Hrun' He]].
      rewrite Hrun' in Hrun. inversion Hrun. subst e. reflexivity. }
    assert (Hlatin : encodes_latin1 (lit "DeepL-Auth-Key " ++ api_key self)
                     = encodes_latin1 (api_key self)).
    { unfold encodes_latin1. rewrite forallb_app. reflexivity. }
    rewrite Hlatin in Hcase. split.
    + intros Hl. rewrite Hl in Hcase. apply Hcase.
      unfold sendable. cbn [req_authorization build_request].
      rewrite Hlatin, Hl, andb_false_r. reflexivity.
    + intros Hl Hill. rewrite Hl in Hcase. apply Hcase.
      unfold sendable. cbn [req_authorization build_request].
      rewrite Hill, andb_false_r. reflexivity.
Qed.

End BatchEffects.

(* ================================================================= *)
(** ** What a run does to the world *)





Section OrchestratorEffects.
Context {U : UnicodeData}.
Variable self : DeepLTranslator.

Lemma translate_batch_counts (texts : list pystr) (w : world) :
  exists o events,
    translate_batch self texts w = (o, record_events w events) /\
    count_posts events = (if needs_call texts then 1 else 0) /\
    leaves_files events = true.
Proof.
  destruct (translate_batch_shape self texts w) as [o [events [Hrun Hshape]]].
  exists o, events. split; [exact Hrun|]. unfold needs_call.
  destruct Hshape as [[Hnil [-> _]] | [Hne [lines [tail [-> Htail]]]]].
  - rewrite Hnil. split; reflexivity.
  - assert (Htail' : tail = [] \/ tail = [EvSleep (delay self)])
      by (destruct Htail as [-> | [-> _]]; auto).
    destruct (shape_counts (build_request self (submitted texts)) lines tail
                (delay self) Htail') as [_ [Hp [Hw _]]].
    destruct (submitted texts); [contradiction|]. split; assumption.
Qed.

(** The loop over the batches touches no file and calls [requests.post] at
    most once per batch; when it runs to its end it has called it once per
    batch that needed it. *)
Lemma batch_loop_shape (texts : list pystr) (total : nat) :
  forall indices acc processed w,
    exists o events,
      batch_loop self texts total indices acc processed w
      = (o, record_events w events) /\
      leaves_files events = true /\
      count_posts events <= length indices /\
      (forall size done,
         as_index (batch_size self) = Returned size -> o = Returned done ->
         count_posts events = calls_needed (batches_of texts size indices)).
Proof.
  induction indices as [|i rest IH]; intros acc processed w.
  - eexists _, []. rewrite record_events_nil. simpl.
    repeat split; auto.
  - simpl batch_loop. unfold bind at 1, lift.
    destruct (as_index (batch_size self)) as [size|e] eqn:Hsize.
    2:{ eexists _, []. rewrite record_events_nil.
        split; [reflexivity|]. split; [reflexivity|].
        split; [apply Nat.le_0_l|].
        intros size done Hs Ho. discriminate. }
    destruct (translate_batch_counts (py_slice texts i (i + size)) w)
      as [o1 [ev1 [Hrun [Hp1 Hw1]]]].
    unfold bind at 1. rewrite Hrun. destruct o1 as [d|e].
    2:{ eexists _, ev1. split; [reflexivity|]. split; [exact Hw1|].
        split; [rewrite Hp1; destruct (needs_call _); simpl; lia|].
        intros size' done Hs Ho. discriminate. }
    unfold bind at 1. rewrite print_ascii by reflexivity.
    rewrite record_events_app.
    match goal with
    | |- context [batch_loop self texts total rest ?a ?p ?w1] =>
        destruct (IH a p w1) as [o2 [ev2 [Hloop [Hw2 [Hp2 Hcalls]]]]];
        rewrite Hloop
    end.
    rewrite record_events_app. eexists _, _. split; [reflexivity|].
    rewrite !leaves_files_app, !count_posts_app, Hw1, Hw2, Hp1.
    split; [reflexivity|]. split.
    + cbn [count_posts filter length]. simpl length.
      destruct (needs_call _); simpl; lia.
    + intros size' done Hs Ho. inversion Hs; subst size'.
      rewrite (Hcalls size done eq_refl Ho).
      unfold calls_needed. simpl batches_of. cbn [filter].
      destruct (needs_call (py_slice texts i (i + size))); simpl; lia.
Qed.



End OrchestratorEffects.
(* ================================================================= *)
(** ** The values of the output *)

Lemma Forall_dict_set (P : pystr * json -> Prop) (d : pydict) (key : pystr)
    (value : json) :
  Forall P d -> P (key, value) -> Forall P (dict_set d key value).
Proof.
  intros Hd Hnew. induction d as [|[k v] d IH]; simpl.
  - constructor; [exact Hnew | constructor].
  - inversion Hd; subst. destruct (pystr_eqb k key) eqn:E.
    + apply pystr_eqb_eq in E. subst k. constructor; assumption.
    + constructor; [assumption | apply IH; assumption].
Qed.

Lemma Forall_dict_update (P : pystr * json -> Prop) (other d : pydict) :
  Forall P d -> Forall P other -> Forall P (dict_update d other).
Proof.
  unfold dict_update. revert d.
  induction other as [|[k v] other IH]; intros d Hd Ho; [exact Hd|].
  inversion Ho; subst. simpl. apply IH; [|assumption].
  apply Forall_dict_set; assumption.
Qed.

Lemma dict_get_Forall (P : pystr * json -> Prop) (d : pydict) (key : pystr)
    (value : json) :
  Forall P d -> dict_get d key = Some value -> P (key, value).
Proof.
  induction d as [|[k v] d IH]; simpl; intros Hd Hget; [discriminate|].
  inversion Hd; subst. destruct (pystr_eqb k key) eqn:E.
  - apply pystr_eqb_eq in E. inversion Hget; subst. assumption.
  - apply IH; assumption.
Qed.

Lemma dict_get_key (d : pydict) (key : pystr) :
  In key (dict_keys d) -> exists value, dict_get d key = Some value.
Proof.
  induction d as [|[k v] d IH]; simpl; intros Hin; [contradiction|].
  destruct (pystr_eqb k key) eqn:E; [exists v; reflexivity|].
  destruct Hin as [Heq | Hin]; [|apply IH; exact Hin].
  subst k. rewrite pystr_eqb_refl in E. discriminate.
Qed.

(** Looking a key up in a dictionary all of whose entries satisfy [P]. *)
Lemma entries_lookup (P : pystr * json -> Prop) (d : pydict) (key : pystr) :
  Forall P d -> In key (dict_keys d) ->
  exists value, dict_get d key = Some value /\ P (key, value).
Proof.
  intros Hd Hin. destruct (dict_get_key d key Hin) as [value Hget].
  exists value. split; [exact Hget|]. exact (dict_get_Forall P d key value Hd Hget).
Qed.

Lemma identity_mapping_entries (texts : list pystr) :
  Forall (fun kv => In (fst kv) texts /\ snd kv = JStr (fst kv))
         (identity_mapping texts).
Proof.
  unfold identity_mapping.
  assert (Hgen : forall rest acc,
            (forall text, In text rest -> In text texts) ->
            Forall (fun kv => In (fst kv) texts /\ snd kv = JStr (fst kv)) acc ->
            Forall (fun kv => In (fst kv) texts /\ snd kv = JStr (fst kv))
                   (fold_left (fun d text => dict_set d text (JStr text))
                              rest acc)).
  { induction rest as [|text rest IH]; intros acc Hsub Hacc; [exact Hacc|].
    simpl. apply IH.
    - intros t Ht. apply Hsub. right. exact Ht.
    - apply Forall_dict_set; [exact Hacc|]. simpl. split; [|reflexivity].
      apply Hsub. left. reflexivity. }
  apply Hgen; [auto | constructor].
Qed.

Lemma utf8_entries (d : pydict) :
  Forall (fun kv => utf8_entry kv = true) d -> utf8_json (JObj d) = true.
Proof.
  intros H. cbn [utf8_json]. apply forallb_forall. intros kv Hin.
  rewrite Forall_forall in H. exact (H kv Hin).
Qed.

Lemma In_firstn {A : Type} (n : nat) (l : list A) (x : A) :
  In x (firstn n l) -> In x l.
Proof.
  revert l; induction n as [|n IH]; intros [|y l]; simpl; try tauto.
  intros [H | H]; [left; exact H | right; apply IH; exact H].
Qed.

Lemma In_skipn {A : Type} (n : nat) (l : list A) (x : A) :
  In x (skipn n l) -> In x l.
Proof.
  revert l; induction n as [|n IH]; intros [|y l]; simpl; try tauto.
  intros H. right. apply IH. exact H.
Qed.

Lemma In_py_slice {A : Type} (l : list A) (lo hi : Z) (x : A) :
  In x (py_slice l lo hi) -> In x l.
Proof.
  unfold py_slice. intros H. apply In_firstn in H.
  eapply In_skipn. exact H.
Qed.

(** What the second loop assigns when the response carries [translated]:
    its keys are strings of the batch, and a value is its key or one of the
    translations. *)
Lemma assignments_entries {U : UnicodeData} (texts : list pystr) :
  forall translated,
    Forall (fun kv => In (fst kv) texts /\
                      (snd kv = JStr (fst kv) \/ In (snd kv) translated))
           (assignments texts translated).
Proof.
  induction texts as [|text rest IH]; intros translated; simpl;
    [constructor|].
  destruct (is_already_translated text).
  - constructor; [simpl; auto|].
    eapply Forall_impl; [|apply IH]. intros kv [H1 H2]. split; auto.
  - destruct translated as [|v more]; [constructor|].
    constructor; [simpl; auto|].
    eapply Forall_impl; [|apply (IH more)].
    intros kv [H1 [H2 | H2]]; simpl; auto.
Qed.

Section OutputValues.
Context {U : UnicodeData}.
Variable self : DeepLTranslator.

(** The second loop gives a skipped string itself as its value, whatever the
    response holds. *)
Lemma merge_loop_skipped (translations : json) (texts : list pystr) :
  forall acc idx w d i w',
    Forall (fun kv => is_already_translated (fst kv) = true ->
                      snd kv = JStr (fst kv)) acc ->
    merge_loop translations texts acc idx w = (Returned (d, i), w') ->
    Forall (fun kv => is_already_translated (fst kv) = true ->
                      snd kv = JStr (fst kv)) d.
Proof.
  induction texts as [|text rest IH]; intros acc idx w d i w' Hacc Hrun.
  - simpl in Hrun. inversion Hrun; subst. exact Hacc.
  - simpl in Hrun. destruct (is_already_translated text) eqn:E.
    + eapply IH; [|exact Hrun]. apply Forall_dict_set; [exact Hacc|].
      simpl. reflexivity.
    + bind_inv Hrun. bind_inv Hrun. bind_inv Hrun.
      eapply IH; [|exact Hrun]. apply Forall_dict_set; [exact Hacc|].
      simpl. congruence.
Qed.

Lemma translate_batch_skipped (texts : list pystr) (w w' : world) (d : pydict) :
  translate_batch self texts w = (Returned d, w') ->
  Forall (fun kv => is_already_translated (fst kv) = true ->
                    snd kv = JStr (fst kv)) d.
Proof.
  assert (Hid : Forall (fun kv => is_already_translated (fst kv) = true ->
                                  snd kv = JStr (fst kv))
                       (identity_mapping texts)).
  { eapply Forall_impl; [|apply identity_mapping_entries].
    intros kv [_ H] _. exact H. }
  unfold translate_batch. rewrite filter_loop_submitted. cbn [app].
  destruct (submitted texts) as [|t0 ts].
  - intros H. inversion H; subst. exact Hid.
  - intros H. apply try_except_returned in H.
    destruct H as [H | [e [w1 [handler [_ [Hh H]]]]]].
    + bind_inv H. bind_inv H. bind_inv H. bind_inv H. bind_inv H.
      bind_inv H. inversion H; subst.
      match goal with
      | Hm : merge_loop _ _ _ _ _ = (Returned ?m, _) |- _ =>
          destruct m as [merged i]; simpl;
          exact (merge_loop_skipped _ _ _ _ _ _ _ _ (Forall_nil _) Hm)
      end.
    + destruct e; try discriminate. inversion Hh; subst handler.
      bind_inv H. inversion H; subst. exact Hid.
Qed.

(** A run of [translate_batch] only adds events to the world. *)
Lemma translate_batch_world (texts : list pystr) (w w' : world)
    (o : outcome pydict) :
  translate_batch self texts w = (o, w') ->
  exists events, w' = record_events w events.
Proof.
  intros H.
  destruct (translate_batch_shape self texts w) as [o1 [events [Hrun _]]].
  rewrite Hrun in H. inversion H; subst. exists events. reflexivity.
Qed.

(** A property of its entries that every batch result has, the accumulated
    dictionary has too.  The batches are slices of [texts], and the worlds
    they run in differ from the first by their traces only. *)
Lemma batch_loop_entries (P : pystr * json -> Prop) (w0 : world)
    (texts : list pystr) (total : nat) :
  (forall batch events d w2,
     (forall text, In text batch -> In text texts) ->
     translate_batch self batch (record_events w0 events) = (Returned d, w2) ->
     Forall P d) ->
  forall indices acc processed events d p w',
    Forall P acc ->
    batch_loop self texts total indices acc processed (record_events w0 events)
    = (Returned (d, p), w') ->
    Forall P d.
Proof.
  intros Hbatch.
  induction indices as [|i rest IH];
    intros acc processed events d p w' Hacc Hrun.
  - simpl in Hrun. inversion Hrun; subst. exact Hacc.
  - simpl in Hrun. bind_inv Hrun.
    apply lift_returned in Hstep. destruct Hstep as [_ ->].
    bind_inv Hrun.
    assert (Hd : Forall P a0).
    { eapply Hbatch; [|exact Hstep]. intros text. apply In_py_slice. }
    destruct (translate_batch_world _ _ _ _ Hstep) as [events1 ->].
    bind_inv Hrun. apply print_returned in Hstep0.
    destruct Hstep0 as [_ ->].
    rewrite !record_events_app in Hrun.
    eapply IH; [|exact Hrun].
    apply Forall_dict_update; assumption.
Qed.

(** A run that returned, taken apart: the range, the loop and what was
    written. *)
Lemma translate_json_file_returned (w w' : world) (D : pydict) (B : Z)
    (inp : pystr) :
  as_index (batch_size self) = Returned B ->
  getitem_str (config self) (lit "input_file") = Returned (JStr inp) ->
  files w inp = Some (Json (JObj D)) ->
  translate_json_file self w = (Returned tt, w') ->
  exists out indices result processed events,
    getitem_str (config self) (lit "output_file") = Returned (JStr out) /\
    py_range 0 (Z.of_nat (length (dict_keys D))) B = Returned indices /\
    batch_loop self (dict_keys D) (length (dict_keys D)) indices [] 0
      (record_events w [EvPrint (MsgStarting (length D) (batch_size self))])
    = (Returned (result, processed),
       record_events w
         (EvPrint (MsgStarting (length D) (batch_size self)) :: events)) /\
    files w' out = Some (Json (JObj result)) /\
    trace w'
    = trace w
      ++ EvPrint (MsgStarting (length D) (batch_size self))
         :: events
         ++ [EvWrite out result;
             EvPrint (MsgComplete (JStr out));
             EvPrint (MsgTotalEntries processed);
             EvPrint (MsgTotalCalls
                        ((Z.of_nat (length (dict_keys D)) + B - 1) / B)%Z)].
Proof.
  intros Hbs Hinp Hfile Hrun. unfold translate_json_file in Hrun.
  bind_inv Hrun. apply lift_returned in Hstep. destruct Hstep as [Ha ->].
  rewrite Hinp in Ha. inversion Ha; subst a. clear Ha.
  bind_inv Hrun. apply lift_returned in Hstep. destruct Hstep as [Hout ->].
  bind_inv Hrun. unfold try_except, load_json_file in Hstep.
  rewrite Hfile in Hstep. inversion Hstep; subst a0 w0. clear Hstep.
  bind_inv Hrun. apply lift_returned in Hstep. destruct Hstep as [Ha ->].
  inversion Ha; subst a0. clear Ha.
  bind_inv Hrun. apply print_returned in Hstep. destruct Hstep as [_ ->].
  bind_inv Hrun. apply lift_returned in Hstep. destruct Hstep as [Ha ->].
  inversion Ha; subst a1. clear Ha.
  bind_inv Hrun. apply lift_returned in Hstep. destruct Hstep as [Ha ->].
  rewrite Hbs in Ha. inversion Ha; subst a1. clear Ha.
  bind_inv Hrun. apply lift_returned in Hstep. destruct Hstep as [Hrange ->].
  bind_inv Hrun. destruct a2 as [result processed].
  destruct (batch_loop_shape self (dict_keys D) (length (dict_keys D)) a1 [] 0
              (record_events w
                 [EvPrint (MsgStarting (length D) (batch_size self))]))
    as [o [events [Hloop _]]].
  rewrite Hloop in Hstep. inversion Hstep; subst o w0. clear Hstep.
  bind_inv Hrun. apply dump_json_file_returned in Hstep.
  destruct Hstep as [out [-> [_ [_ ->]]]].
  bind_inv Hrun. apply print_returned in Hstep. destruct Hstep as [_ ->].
  bind_inv Hrun. apply print_returned in Hstep. destruct Hstep as [_ ->].
  apply print_returned in Hrun. destruct Hrun as [_ ->].
  exists out, a1, result, processed, events.
  split; [exact Hout|]. split; [exact Hrange|].
  split; [rewrite Hloop, record_events_app; reflexivity|].
  split; [cbn; rewrite pystr_eqb_refl; reflexivity|].
  cbn. rewrite <- !app_assoc. reflexivity.
Qed.

(** The entries of the object a returned run has written. *)
Lemma output_entries (P : pystr * json -> Prop) (w w' : world) (D : pydict)
    (B : Z) (inp : pystr) :
  (forall batch events d w2,
     (forall text, In text batch -> In text (dict_keys D)) ->
     translate_batch self batch (record_events w events) = (Returned d, w2) ->
     Forall P d) ->
  as_index (batch_size self) = Returned B ->
  (1 <= B)%Z ->
  getitem_str (config self) (lit "input_file") = Returned (JStr inp) ->
  files w inp = Some (Json (JObj D)) ->
  translate_json_file self w = (Returned tt, w') ->
  exists out result,
    getitem_str (config self) (lit "output_file") = Returned (JStr out) /\
    files w' out = Some (Json (JObj result)) /\
    dict_keys result = add_keys [] (dict_keys D) /\
    Forall P result.
Proof.
  intros Hbatch Hbs HB Hinp Hfile Hrun.
  destruct (translate_json_file_returned w w' D B inp Hbs Hinp Hfile Hrun)
    as [out [indices [result [processed [events
        [Hout [Hrange [Hloop [Hwritten _]]]]]]]]].
  exists out, result. split; [exact Hout|]. split; [exact Hwritten|]. split.
  - destruct (batches_partition_helper (dict_keys D) B HB)
      as [indices' [Hrange' Hconcat]].
    rewrite Hrange in Hrange'. inversion Hrange'; subst indices'.
    pose proof Hloop as Hkeys.
    apply (batch_loop_returns self (dict_keys D) (length (dict_keys D)) B Hbs)
      in Hkeys.
    destruct Hkeys as [Hkeys _]. rewrite Hconcat in Hkeys. exact Hkeys.
  - eapply (batch_loop_entries P w (dict_keys D) (length (dict_keys D)) Hbatch);
      [|exact Hloop]. constructor.
Qed.

(** X5.  A key the heuristic skips is never altered: in the object a returned
    run has written, every key of the input document that
    [is_already_translated] accepts maps to itself, whatever the service
    answered for the other strings of its batch. *)
Theorem skipped_keys_unchanged (w w' : world) (D : pydict) (B : Z)
    (inp : pystr) :
  batch_size self = JInt B ->
  (1 <= B)%Z ->
  getitem_str (config self) (lit "input_file") = Returned (JStr inp) ->
  files w inp = Some (Json (JObj D)) ->
  translate_json_file self w = (Returned tt, w') ->
  exists out result,
    getitem_str (config self) (lit "output_file") = Returned (JStr out) /\
    files w' out = Some (Json (JObj result)) /\
    forall key,
      In key (dict_keys D) -> is_already_translated key = true ->
      dict_get result key = Some (JStr key).
Proof.
  intros Hbs HB Hinp Hfile Hrun.
  assert (Hidx : as_index (batch_size self) = Returned B)
    by (rewrite Hbs; reflexivity).
  destruct (output_entries
              (fun kv => is_already_translated (fst kv) = true ->
                         snd kv = JStr (fst kv))
              w w' D B inp
              (fun batch events d w2 _ H =>
                 translate_batch_skipped batch _ w2 d H)
              Hidx HB Hinp Hfile Hrun)
    as [out [result [Hout [Hwritten [Hkeys Hall]]]]].
  exists out, result. split; [exact Hout|]. split; [exact Hwritten|].
  intros key Hin Hskip.
  destruct (entries_lookup _ result key Hall) as [value [Hget Hval]].
  - rewrite Hkeys. apply add_keys_In. right. exact Hin.
  - simpl in Hval. rewrite Hget, (Hval Hskip). reflexivity.
Qed.

(** When every batch returns, so does the loop. *)
Lemma batch_loop_runs (P : pystr * json -> Prop) (w0 : world)
    (texts : list pystr) (total : nat) (size : Z) :
  as_index (batch_size self) = Returned size ->
  (forall batch events,
     (forall text, In text batch -> In text texts) ->
     exists d events',
       translate_batch self batch (record_events w0 events)
       = (Returned d, record_events w0 (events ++ events')) /\
       Forall P d) ->
  forall indices acc processed events,
    Forall P acc ->
    exists done events',
      batch_loop self texts total indices acc processed
        (record_events w0 events)
      = (Returned done, record_events w0 (events ++ events')) /\
      Forall P (fst done).
Proof.
  intros Hsize Hbatch.
  induction indices as [|i rest IH]; intros acc processed events Hacc.
  - eexists _, []. rewrite app_nil_r. split; [reflexivity | exact Hacc].
  - simpl. unfold bind at 1, lift. rewrite Hsize.
    destruct (Hbatch (py_slice texts i (i + size)) events)
      as [d [events1 [Hrun Hd]]].
    { intros text. apply In_py_slice. }
    unfold bind at 1. rewrite Hrun.
    unfold bind at 1. rewrite print_ascii by reflexivity.
    rewrite record_events_app.
    match goal with
    | |- context [batch_loop self texts total rest ?a ?p (record_events w0 ?ev)] =>
        destruct (IH a p ev) as [done [events2 [Hloop Hdone]]];
        [apply Forall_dict_update; assumption|]; rewrite Hloop
    end.
    eexists _, _. rewrite <- !app_assoc. split; [reflexivity | exact Hdone].
Qed.

(** A run on a complete setup returns when every batch does and the output
    can be written: the terminal shows the first and the closing lines, the
    output path can be written, and no entry of a batch holds a surrogate. *)
Lemma translate_json_file_runs (w : world) (D : pydict) (B : Z)
    (inp out : pystr) :
  as_index (batch_size self) = Returned B ->
  B <> 0%Z ->
  getitem_str (config self) (lit "input_file") = Returned (JStr inp) ->
  getitem_str (config self) (lit "output_file") = Returned (JStr out) ->
  files w inp = Some (Json (JObj D)) ->
  prints w (MsgStarting (length D) (batch_size self)) = true ->
  prints w (MsgComplete (JStr out)) = true ->
  unwritable w out = None ->
  (forall batch events,
     (forall text, In text batch -> In text (dict_keys D)) ->
     exists d events',
       translate_batch self batch (record_events w events)
       = (Returned d, record_events w (events ++ events')) /\
       Forall (fun kv => utf8_entry kv = true) d) ->
  exists w', translate_json_file self w = (Returned tt, w').
Proof.
  intros Hbs HB Hinp Hout Hfile Hp1 Hp2 Hwrite Hbatch.
  unfold translate_json_file.
  unfold bind at 1, lift. rewrite Hinp.
  unfold bind at 1. rewrite Hout.
  unfold bind at 1, try_except, load_json_file. rewrite Hfile.
  unfold bind at 1. cbn [py_len].
  unfold bind at 1. rewrite (print_ok _ _ Hp1).
  unfold bind at 1. cbn [keys_method]. cbv zeta.
  unfold bind at 1. rewrite Hbs.
  unfold bind at 1. unfold py_range.
  destruct (B =? 0)%Z eqn:E; [apply Z.eqb_eq in E; contradiction|].
  unfold bind at 1.
  match goal with
  | |- context [batch_loop self ?k ?t ?ix ?a ?p (record_events w ?ev)] =>
      destruct (batch_loop_runs (fun kv => utf8_entry kv = true) w k t B Hbs
                  Hbatch ix a p ev (Forall_nil _))
        as [done [events [Hloop Hdone]]]; rewrite Hloop
  end.
  unfold bind at 1.
  rewrite dump_json_file_ok by (first [exact Hwrite | apply utf8_entries;
                                       exact Hdone]).
  unfold bind at 1. rewrite print_ok by exact Hp2.
  unfold bind at 1. rewrite print_ascii by reflexivity.
  rewrite print_ascii by reflexivity.
  eexists. reflexivity.
Qed.

Lemma identity_mapping_utf8 (texts batch : list pystr) :
  forallb encodes_utf8 texts = true ->
  (forall text, In text batch -> In text texts) ->
  Forall (fun kv => utf8_entry kv = true) (identity_mapping batch).
Proof.
  intros Hk Hsub. rewrite forallb_forall in Hk.
  eapply Forall_impl; [|apply identity_mapping_entries].
  intros [k v] [Hin Hv]. simpl in *. subst v. unfold utf8_entry. simpl.
  rewrite (Hk k (Hsub k Hin)). reflexivity.
Qed.

Lemma assignments_utf8 (texts batch : list pystr) (translated : list json) :
  forallb encodes_utf8 texts = true ->
  (forall text, In text batch -> In text texts) ->
  forallb utf8_json translated = true ->
  Forall (fun kv => utf8_entry kv = true) (assignments batch translated).
Proof.
  intros Hk Hsub Ht. rewrite forallb_forall in Hk, Ht.
  eapply Forall_impl; [|apply assignments_entries].
  intros [k v] [Hin Hv]. simpl in *. unfold utf8_entry. simpl.
  rewrite (Hk k (Hsub k Hin)). destruct Hv as [-> | Hv].
  - simpl. apply (Hk k (Hsub k Hin)).
  - simpl. apply Ht. exact Hv.
Qed.

Lemma key_accepted_sendable (texts : list pystr) :
  key_accepted self = true -> sendable (build_request self texts) = true.
Proof.
  unfold key_accepted. intros <-. apply sendable_same_key. reflexivity.
Qed.

Lemma always_fails_batch (w : world) (texts batch : list pystr)
    (events : list event) :
  always_fails w -> prints_all w -> key_accepted self = true ->
  forallb encodes_utf8 texts = true ->
  (forall text, In text batch -> In text texts) ->
  exists events',
    translate_batch self batch (record_events w events)
    = (Returned (identity_mapping batch), record_events w (events ++ events'))
    /\ Forall (fun kv => utf8_entry kv = true) (identity_mapping batch).
Proof.
  intros Hfail Hp Hkey Hk Hsub.
  assert (Hclean := identity_mapping_utf8 texts batch Hk Hsub).
  destruct (submitted batch) as [|t0 ts] eqn:Es.
  - exists []. rewrite app_nil_r. split; [|exact Hclean].
    apply translate_batch_skip. exact Es.
  - assert (Hne : submitted batch <> []) by congruence.
    destruct (translate_batch_failure self batch (record_events w events) Hne)
      as [why Hrun].
    + unfold call_caught.
      rewrite (key_accepted_sendable (submitted batch) Hkey).
      pose proof (Hfail (trace (record_events w events))
                    (build_request self (submitted batch))) as Hf.
      change (remote (record_events w events)) with (remote w).
      destruct (remote w _ _); [|apply orb_true_r].
      rewrite Hf. apply orb_true_r.
    + intros why. apply Hp.
    + eexists. rewrite Hrun, record_events_app. split; [reflexivity|].
      exact Hclean.
Qed.

Lemma orderly_batch (w : world) (texts batch : list pystr)
    (events : list event) :
  orderly w -> prints_all w -> sleeps w (delay self) ->
  key_accepted self = true ->
  forallb encodes_utf8 texts = true ->
  (forall text, In text batch -> In text texts) ->
  exists d events',
    translate_batch self batch (record_events w events)
    = (Returned d, record_events w (events ++ events')) /\
    Forall (fun kv => utf8_entry kv = true) d.
Proof.
  intros Hord Hp Hsleep Hkey Hk Hsub.
  destruct (submitted batch) as [|t0 ts] eqn:Es.
  - exists (identity_mapping batch), []. rewrite app_nil_r. split.
    + apply translate_batch_skip. exact Es.
    + exact (identity_mapping_utf8 texts batch Hk Hsub).
  - assert (Hne : submitted batch <> []) by congruence.
    clear Es t0 ts.
    pose proof (key_accepted_sendable (submitted batch) Hkey) as Hsend.
    specialize (Hord (trace (record_events w events))
                     (build_request self (submitted batch))).
    destruct (remote w (trace (record_events w events))
                (build_request self (submitted batch))) as [r|] eqn:Hr.
    + destruct (call_fails (Some r)) eqn:Hf.
      * destruct (translate_batch_failure self batch (record_events w events)
                    Hne) as [why Hrun].
        { unfold call_caught.
          change (remote (record_events w events)) with (remote w).
          rewrite Hr, Hsend, Hf. apply orb_true_r. }
        { intros why. apply Hp. }
        eexists _, _. rewrite Hrun, record_events_app.
        split; [reflexivity|].
        exact (identity_mapping_utf8 texts batch Hk Hsub).
      * destruct Hord as [Hbad | [document [translated [Hb [Hc [Hl Hu]]]]]];
          [congruence|].
        eexists _, _. split.
        -- rewrite (translate_batch_success self batch (record_events w events)
                      r document translated Hne Hsend Hr Hf Hb Hc Hl).
           ++ rewrite record_events_app. reflexivity.
           ++ apply Forall_forall. intros line _. apply Hp.
           ++ exact Hsleep.
        -- apply Forall_dict_update; [constructor|].
           apply (assignments_utf8 texts batch translated Hk Hsub).
           apply Hu. cbn [req_text build_request].
           apply forallb_forall. intros text Hin.
           apply filter_In in Hin. destruct Hin as [Hin _].
           rewrite forallb_forall in Hk. apply Hk, Hsub, Hin.
    + destruct (translate_batch_failure self batch (record_events w events)
                  Hne) as [why Hrun].
      { unfold call_caught.
        change (remote (record_events w events)) with (remote w).
        rewrite Hr. apply orb_true_r. }
      { intros why. apply Hp. }
      eexists _, _. rewrite Hrun, record_events_app.
      split; [reflexivity|].
      exact (identity_mapping_utf8 texts batch Hk Hsub).
Qed.

(** X1.  A run returns on a complete setup: a batch size of at least one, a
    delay that is slept, a key that makes a header value that can be
    written, an input file that holds a JSON object whose keys hold no
    surrogate, an output path that can be written, a terminal that shows
    every line, and an orderly service. *)
Lemma translate_json_file_completes (w : world) (D : pydict) (B : Z)
    (inp out : pystr) :
  batch_size self = JInt B ->
  (1 <= B)%Z ->
  sleeps w (delay self) ->
  key_accepted self = true ->
  getitem_str (config self) (lit "input_file") = Returned (JStr inp) ->
  getitem_str (config self) (lit "output_file") = Returned (JStr out) ->
  files w inp = Some (Json (JObj D)) ->
  forallb encodes_utf8 (dict_keys D) = true ->
  unwritable w out = None ->
  prints_all w ->
  orderly w ->
  exists w', translate_json_file self w = (Returned tt, w').
Proof.
  intros Hbs HB Hsleep Hkey Hinp Hout Hfile Hk Hwrite Hp Hord.
  apply (translate_json_file_runs w D B inp out); try assumption;
    try apply Hp.
  - rewrite Hbs. reflexivity.
  - lia.
  - intros batch events Hsub.
    exact (orderly_batch w (dict_keys D) batch events Hord Hp Hsleep Hkey Hk
             Hsub).
Qed.

(** X6.  When no request ever succeeds (the service is unreachable, or every
    answer is a 4xx or 5xx status or not JSON), a run on an otherwise
    complete setup still returns, and the object it writes maps every key of
    the input document to itself. *)
Theorem unreachable_service_identity_output (w : world) (D : pydict) (B : Z)
    (inp out : pystr) :
  batch_size self = JInt B ->
  (1 <= B)%Z ->
  key_accepted self = true ->
  getitem_str (config self) (lit "input_file") = Returned (JStr inp) ->
  getitem_str (config self) (lit "output_file") = Returned (JStr out) ->
  files w inp = Some (Json (JObj D)) ->
  forallb encodes_utf8 (dict_keys D) = true ->
  unwritable w out = None ->
  prints_all w ->
  always_fails w ->
  exists w' result,
    translate_json_file self w = (Returned tt, w') /\
    files w' out = Some (Json (JObj result)) /\
    (forall key, In key (dict_keys D) ->
                 dict_get result key = Some (JStr key)) /\
    (forall key, In key (dict_keys result) -> In key (dict_keys D)).
Proof.
  intros Hbs HB Hkey Hinp Hout Hfile Hk Hwrite Hp Hfail.
  assert (Hidx : as_index (batch_size self) = Returned B)
    by (rewrite Hbs; reflexivity).
  destruct (translate_json_file_runs w D B inp out Hidx ltac:(lia) Hinp Hout
              Hfile (Hp _) (Hp _) Hwrite) as [w' Hrun].
  { intros batch events Hsub.
    destruct (always_fails_batch w (dict_keys D) batch events Hfail Hp Hkey Hk
                Hsub) as [events' [He Hclean]].
    eexists _, _. split; [exact He | exact Hclean]. }
  destruct (output_entries (fun kv => snd kv = JStr (fst kv))
              w w' D B inp) as [out' [result [Hout' [Hwritten [Hkeys Hall]]]]];
    try assumption.
  { intros batch events d w2 Hsub Hb.
    destruct (always_fails_batch w (dict_keys D) batch events Hfail Hp Hkey Hk
                Hsub) as [events' [He _]].
    rewrite He in Hb. inversion Hb; subst.
    eapply Forall_impl; [|apply identity_mapping_entries].
    intros kv [_ H]. exact H. }
  rewrite Hout in Hout'. inversion Hout'; subst out'.
  exists w', result. split; [exact Hrun|]. split; [exact Hwritten|]. split.
  - intros key Hin.
    destruct (entries_lookup _ result key Hall) as [value [Hget Hval]].
    + rewrite Hkeys. apply add_keys_In. right. exact Hin.
    + simpl in Hval. rewrite Hget, Hval. reflexivity.
  - intros key Hin. rewrite Hkeys in Hin. apply add_keys_In in Hin.
    destruct Hin as [[] | Hin]. exact Hin.
Qed.

Lemma assignments_expected (answer : pystr -> json) (texts : list pystr) :
  Forall (fun kv => snd kv = expected_value answer (fst kv))
         (assignments texts (map answer (submitted texts))).
Proof.
  induction texts as [|text rest IH]; simpl; [constructor|].
  destruct (is_already_translated text) eqn:E; simpl.
  - constructor; [|exact IH]. simpl. unfold expected_value. rewrite E.
    reflexivity.
  - constructor; [|exact IH]. simpl. unfold expected_value. rewrite E.
    reflexivity.
Qed.

Lemma answers_with_batch (w : world) (answer : pystr -> json)
    (texts batch : list pystr) (events : list event) :
  answers_with w answer -> prints_all w -> sleeps w (delay self) ->
  key_accepted self = true ->
  forallb encodes_utf8 texts = true ->
  (forall text, In text texts -> utf8_json (answer text) = true) ->
  (forall text, In text batch -> In text texts) ->
  exists d events',
    translate_batch self batch (record_events w events)
    = (Returned d, record_events w (events ++ events')) /\
    Forall (fun kv => snd kv = expected_value answer (fst kv)) d /\
    Forall (fun kv => utf8_entry kv = true) d.
Proof.
  intros Hans Hp Hsleep Hkey Hk Hu Hsub.
  destruct (submitted batch) as [|t0 ts] eqn:Es.
  - exists (identity_mapping batch), []. rewrite app_nil_r.
    split; [apply translate_batch_skip; exact Es|]. split.
    + eapply Forall_impl; [|apply identity_mapping_entries].
      intros kv [Hin Hval]. rewrite Hval. unfold expected_value.
      rewrite (proj1 (submitted_nil_iff batch) Es _ Hin). reflexivity.
    + exact (identity_mapping_utf8 texts batch Hk Hsub).
  - assert (Hne : submitted batch <> []) by congruence.
    destruct (Hans (trace (record_events w events))
                (build_request self (submitted batch)))
      as [r [document [Hanswer [Hok [Hbody Hcarry]]]]].
    eexists _, _. split; [|split].
    + rewrite (translate_batch_success self batch (record_events w events)
                 r document (map answer (submitted batch)) Hne
                 (key_accepted_sendable (submitted batch) Hkey) Hanswer Hok
                 Hbody Hcarry (length_map _ _)).
      * rewrite record_events_app. reflexivity.
      * apply Forall_forall. intros line _. apply Hp.
      * exact Hsleep.
    + apply Forall_dict_update; [constructor | apply assignments_expected].
    + apply Forall_dict_update; [constructor|].
      apply (assignments_utf8 texts batch _ Hk Hsub).
      apply forallb_forall. intros v Hv. apply in_map_iff in Hv.
      destruct Hv as [text [<- Hin]]. apply Hu, Hsub.
      apply filter_In in Hin. exact (proj1 Hin).
Qed.

(** X7.  With a service that answers every request with one element per
    string, the text for [text] being [answer text], a run on an otherwise
    complete setup returns, and the object it writes maps every key of the
    input document to itself when the heuristic skips it and to [answer key]
    otherwise, however the keys fall into batches. *)
Theorem translating_service_output (w : world) (D : pydict) (B : Z)
    (inp out : pystr) (answer : pystr -> json) :
  batch_size self = JInt B ->
  (1 <= B)%Z ->
  sleeps w (delay self) ->
  key_accepted self = true ->
  getitem_str (config self) (lit "input_file") = Returned (JStr inp) ->
  getitem_str (config self) (lit "output_file") = Returned (JStr out) ->
  files w inp = Some (Json (JObj D)) ->
  forallb encodes_utf8 (dict_keys D) = true ->
  (forall text, In text (dict_keys D) -> utf8_json (answer text) = true) ->
  unwritable w out = None ->
  prints_all w ->
  answers_with w answer ->
  exists w' result,
    translate_json_file self w = (Returned tt, w') /\
    files w' out = Some (Json (JObj result)) /\
    (forall key, In key (dict_keys D) ->
                 dict_get result key
                 = Some (if is_already_translated key then JStr key
                         else answer key)) /\
    (forall key, In key (dict_keys result) -> In key (dict_keys D)).
Proof.
  intros Hbs HB Hsleep Hkey Hinp Hout Hfile Hk Hu Hwrite Hp Hans.
  assert (Hidx : as_index (batch_size self) = Returned B)
    by (rewrite Hbs; reflexivity).
  destruct (translate_json_file_runs w D B inp out Hidx ltac:(lia) Hinp Hout
              Hfile (Hp _) (Hp _) Hwrite) as [w' Hrun].
  { intros batch events Hsub.
    destruct (answers_with_batch w answer (dict_keys D) batch events Hans Hp
                Hsleep Hkey Hk Hu Hsub) as [d [events' [He [_ Hclean]]]].
    eexists _, _. split; [exact He | exact Hclean]. }
  destruct (output_entries
              (fun kv => snd kv = expected_value answer (fst kv))
              w w' D B inp) as [out' [result [Hout' [Hwritten [Hkeys Hall]]]]];
    try assumption.
  { intros batch events d w2 Hsub Hb.
    destruct (answers_with_batch w answer (dict_keys D) batch events Hans Hp
                Hsleep Hkey Hk Hu Hsub) as [d' [events' [He [Hd _]]]].
    rewrite He in Hb. inversion Hb; subst. exact Hd. }
  rewrite Hout in Hout'. inversion Hout'; subst out'.
  exists w', result. split; [exact Hrun|]. split; [exact Hwritten|]. split.
  - intros key Hin.
    destruct (entries_lookup _ result key Hall) as [value [Hget Hval]].
    + rewrite Hkeys. apply add_keys_In. right. exact Hin.
    + simpl in Hval. rewrite Hget, Hval. reflexivity.
  - intros key Hin. rewrite Hkeys in Hin. apply add_keys_In in Hin.
    destruct Hin as [[] | Hin]. exact Hin.
Qed.

End OutputValues.

(* ================================================================= *)
(** ** The summary, and the edges of [translate_json_file] *)

Lemma py_range_length (n : nat) (size : Z) (indices : list Z) :
  (1 <= size)%Z ->
  py_range 0 (Z.of_nat n) size = Returned indices ->
  Z.of_nat (length indices) = ((Z.of_nat n + size - 1) / size)%Z.
Proof.
  intros Hsize. unfold py_range.
  destruct (size =? 0)%Z; [discriminate|]. intros H. inversion H.
  rewrite length_map, length_seq.
  apply ceil_unique; [exact Hsize|].
  exact (range_length_ceil n size Hsize).
Qed.


Section EdgeCases.
Context {U : UnicodeData}.
Variable self : DeepLTranslator.

(** X8.  The closing lines of a returned run report the number of keys as
    entries translated and the number of batches, ceil(N/B), as API calls
    made, whereas the calls of [requests.post] the run made are as many as
    the batches that hold a string the heuristic does not skip: the reported
    call count is an upper bound of the calls, not their number. *)
Theorem summary_counts (w w' : world) (D : pydict) (B : Z) (inp : pystr) :
  batch_size self = JInt B ->
  (1 <= B)%Z ->
  getitem_str (config self) (lit "input_file") = Returned (JStr inp) ->
  files w inp = Some (Json (JObj D)) ->
  translate_json_file self w = (Returned tt, w') ->
  exists out result indices events,
    py_range 0 (Z.of_nat (length D)) B = Returned indices /\
    trace w'
    = trace w
      ++ EvPrint (MsgStarting (length D) (JInt B))
         :: events
         ++ [EvWrite out result;
             EvPrint (MsgComplete (JStr out));
             EvPrint (MsgTotalEntries (length D));
             EvPrint (MsgTotalCalls
                        (Z.of_nat (length (batches_of (dict_keys D) B
                                                      indices))))] /\
    Z.of_nat (length (batches_of (dict_keys D) B indices))
    = ((Z.of_nat (length D) + B - 1) / B)%Z /\
    count_posts events = calls_needed (batches_of (dict_keys D) B indices) /\
    count_posts events <= length (batches_of (dict_keys D) B indices).
Proof.
  intros Hbs HB Hinp Hfile Hrun.
  assert (Hidx : as_index (batch_size self) = Returned B)
    by (rewrite Hbs; reflexivity).
  destruct (translate_json_file_returned self w w' D B inp Hidx Hinp Hfile
              Hrun)
    as [out [indices [result [processed [events
        [_ [Hrange [Hloop [_ Htrace]]]]]]]]].
  assert (HlenD : length (dict_keys D) = length D) by apply length_map.
  rewrite HlenD in Hrange, Htrace.
  pose proof (py_range_length (length D) B indices HB Hrange) as Hcount.
  assert (Hbatches : length (batches_of (dict_keys D) B indices)
                     = length indices) by apply length_map.
  (* the entries the loop counted *)
  pose proof Hloop as Hkeys.
  apply (batch_loop_returns self (dict_keys D) (length (dict_keys D)) B Hidx)
    in Hkeys.
  destruct Hkeys as [_ Hprocessed].
  destruct (batches_partition_helper (dict_keys D) B HB)
    as [indices' [Hrange' Hconcat]].
  rewrite HlenD, Hrange in Hrange'. inversion Hrange'; subst indices'.
  rewrite Hconcat, HlenD in Hprocessed. simpl in Hprocessed.
  (* the calls the loop made *)
  destruct (batch_loop_shape self (dict_keys D) (length (dict_keys D)) indices
              [] 0
              (record_events w
                 [EvPrint (MsgStarting (length D) (batch_size self))]))
    as [o [events' [Hshape [_ [Hle Hcalls]]]]].
  rewrite Hloop in Hshape. inversion Hshape as [[Ho Hworld]].
  unfold record_events in Hworld. simpl in Hworld.
  rewrite <- app_assoc in Hworld. apply app_inv_head in Hworld.
  simpl in Hworld. inversion Hworld; subst events'. clear Hworld.
  exists out, result, indices, events.
  split; [exact Hrange|]. split.
  { rewrite Htrace, Hbs, Hprocessed, Hbatches, Hcount. reflexivity. }
  split; [rewrite Hbatches; exact Hcount|]. split.
  - exact (Hcalls B (result, processed) Hidx (eq_sym Ho)).
  - rewrite Hbatches. exact Hle.
Qed.

(** X9.  A batch size of zero makes [range] raise ValueError after the first
    printed line: nothing is requested or written.  A negative batch size
    makes the loop run no batch at all: when the output path can be written
    and the terminal shows the line that names it, the run returns and
    writes an empty object, whatever the input document holds; when the
    output path cannot be opened, the run raises the exception of [open]
    after its first line. *)
Theorem nonpositive_batch_size (w : world) (D : pydict) (inp out : pystr) :
  getitem_str (config self) (lit "input_file") = Returned (JStr inp) ->
  getitem_str (config self) (lit "output_file") = Returned (JStr out) ->
  files w inp = Some (Json (JObj D)) ->
  (batch_size self = JInt 0 ->
   translate_json_file self w
   = (Raised ValueError,
      record_events w [EvPrint (MsgStarting (length D) (JInt 0))]))
  /\
  (forall B,
     batch_size self = JInt B -> (B < 0)%Z ->
     unwritable w out = None ->
     prints w (MsgComplete (JStr out)) = true ->
     exists w',
       translate_json_file self w = (Returned tt, w') /\
       files w' out = Some (Json (JObj [])) /\
       trace w'
       = trace w
         ++ [EvPrint (MsgStarting (length D) (JInt B));
             EvWrite out [];
             EvPrint (MsgComplete (JStr out));
             EvPrint (MsgTotalEntries 0);
             EvPrint (MsgTotalCalls
                        ((Z.of_nat (length (dict_keys D)) + B - 1) / B)%Z)])
  /\
  (forall B why,
     batch_size self = JInt B -> (B < 0)%Z ->
     unwritable w out = Some why -> why <> DeviceFull ->
     translate_json_file self w
     = (Raised (write_failure_exn why),
        record_events w [EvPrint (MsgStarting (length D) (JInt B))])).
Proof.
  intros Hinp Hout Hfile. split; [|split].
  - intros Hbs. unfold translate_json_file.
    unfold bind at 1, lift. rewrite Hinp.
    unfold bind at 1. rewrite Hout.
    unfold bind at 1, try_except, load_json_file. rewrite Hfile.
    unfold bind at 1. cbn [py_len].
    unfold bind at 1. rewrite print_ascii by (rewrite Hbs; reflexivity).
    unfold bind at 1. cbn [keys_method]. cbv zeta.
    unfold bind at 1. rewrite Hbs. cbn [as_index].
    unfold bind at 1. reflexivity.
  - intros B Hbs HB Hwrite Hp. unfold translate_json_file.
    unfold bind at 1, lift. rewrite Hinp.
    unfold bind at 1. rewrite Hout.
    unfold bind at 1, try_except, load_json_file. rewrite Hfile.
    unfold bind at 1. cbn [py_len].
    unfold bind at 1. rewrite print_ascii by (rewrite Hbs; reflexivity).
    unfold bind at 1. cbn [keys_method]. cbv zeta.
    unfold bind at 1. rewrite Hbs. cbn [as_index].
    unfold bind at 1, py_range, range_length.
    assert (H0 : (B =? 0)%Z = false) by (apply Z.eqb_neq; lia).
    assert (H1 : (0 <? B)%Z = false) by (apply Z.ltb_ge; lia).
    assert (H2 : (Z.of_nat (length (dict_keys D)) <? 0)%Z = false)
      by (apply Z.ltb_ge; lia).
    rewrite H0, H1, H2. cbn [seq map].
    unfold bind at 1. cbn [batch_loop ret fst snd].
    unfold bind at 1.
    rewrite dump_json_file_ok by (first [exact Hwrite | reflexivity]).
    unfold bind at 1. rewrite print_ok by exact Hp.
    unfold bind at 1. rewrite print_ascii by reflexivity.
    rewrite print_ascii by reflexivity.
    eexists. split; [reflexivity|]. cbn.
    rewrite pystr_eqb_refl. split; [reflexivity|].
    rewrite <- !app_assoc. reflexivity.
  - intros B why Hbs HB Hwrite Hwhy. unfold translate_json_file.
    unfold bind at 1, lift. rewrite Hinp.
    unfold bind at 1. rewrite Hout.
    unfold bind at 1, try_except, load_json_file. rewrite Hfile.
    unfold bind at 1. cbn [py_len].
    unfold bind at 1. rewrite print_ascii by (rewrite Hbs; reflexivity).
    unfold bind at 1. cbn [keys_method]. cbv zeta.
    unfold bind at 1. rewrite Hbs. cbn [as_index].
    unfold bind at 1, py_range, range_length.
    assert (H0 : (B =? 0)%Z = false) by (apply Z.eqb_neq; lia).
    assert (H1 : (0 <? B)%Z = false) by (apply Z.ltb_ge; lia).
    assert (H2 : (Z.of_nat (length (dict_keys D)) <? 0)%Z = false)
      by (apply Z.ltb_ge; lia).
    rewrite H0, H1, H2. cbn [seq map].
    unfold bind at 1. cbn [batch_loop ret fst snd].
    unfold bind at 1. unfold dump_json_file.
    cbn [unwritable record_events]. rewrite Hwrite.
    destruct why; try reflexivity. contradiction.
Qed.


End EdgeCases.

(* ================================================================= *)
(** ** Construction, and the whole program *)




Section WholeProgram.
Context {U : UnicodeData}.


End WholeProgram.

Section EmptyDocument.
Context {U : UnicodeData}.
Variable self : DeepLTranslator.

(** X13.  An empty input object needs no service and no delay: with any
    batch size other than zero, an output path that can be written and a
    terminal that shows the line that names it, the run prints its first
    line, writes an empty object, prints the closing lines with zero
    entries, and returns, without a request. *)
Theorem empty_document_empty_output (w : world) (B : Z) (inp out : pystr) :
  as_index (batch_size self) = Returned B ->
  B <> 0%Z ->
  getitem_str (config self) (lit "input_file") = Returned (JStr inp) ->
  getitem_str (config self) (lit "output_file") = Returned (JStr out) ->
  files w inp = Some (Json (JObj [])) ->
  unwritable w out = None ->
  prints w (MsgComplete (JStr out)) = true ->
  exists w',
    translate_json_file self w = (Returned tt, w') /\
    files w' out = Some (Json (JObj [])) /\
    trace w'
    = trace w
      ++ [EvPrint (MsgStarting 0 (batch_size self));
          EvWrite out [];
          EvPrint (MsgComplete (JStr out));
          EvPrint (MsgTotalEntries 0);
          EvPrint (MsgTotalCalls ((0 + B - 1) / B)%Z)].
Proof.
  intros Hbs HB Hinp Hout Hfile Hwrite Hp.
  assert (Hascii : ascii_line (MsgStarting 0 (batch_size self)) = true).
  { destruct (batch_size self); try discriminate; reflexivity. }
  unfold translate_json_file.
  unfold bind at 1, lift. rewrite Hinp.
  unfold bind at 1. rewrite Hout.
  unfold bind at 1, try_except, load_json_file. rewrite Hfile.
  unfold bind at 1. cbn [py_len length].
  unfold bind at 1. rewrite print_ascii by exact Hascii.
  unfold bind at 1. cbn [keys_method]. cbv zeta.
  unfold bind at 1. rewrite Hbs.
  unfold bind at 1, py_range, range_length.
  assert (H0 : (B =? 0)%Z = false) by (apply Z.eqb_neq; exact HB).
  rewrite H0. cbn [dict_keys map length Z.of_nat Z.ltb Z.compare].
  destruct (0 <? B)%Z; cbn [seq map];
    (unfold bind at 1; cbn [batch_loop ret fst snd];
     unfold bind at 1;
     rewrite dump_json_file_ok by (first [exact Hwrite | reflexivity]);
     unfold bind at 1; rewrite print_ok by exact Hp;
     unfold bind at 1; rewrite print_ascii by reflexivity;
     rewrite print_ascii by reflexivity;
     eexists; split; [reflexivity|]; cbn;
     rewrite pystr_eqb_refl; split; [reflexivity|];
     rewrite <- !app_assoc; reflexivity).
Qed.

End EmptyDocument.

(* ================================================================= *)
(** ** The properties at the sample data *)

Lemma sample_keys_NoDup : NoDup sample_keys.
Proof.
  unfold sample_keys.
  repeat constructor; simpl; intuition discriminate.
Qed.

Lemma excerpt_uncased (c : N) :
  excerpt_lower [] c [] = [c] -> @uncased excerpt_unicode c.
Proof.
  intros H before after. simpl. unfold excerpt_lower in *. exact H.
Qed.

Lemma sample_answer_carries :
  carries (translations_body [translation (lit "Flame Sword");
                              translation (lit "Shield")])
          [JStr (lit "Flame Sword"); JStr (lit "Shield")].
Proof.
  eexists. split; [reflexivity|].
  intros [|[|i]] text Hi; simpl in Hi;
    [inversion Hi; eexists; split; reflexivity ..|].
  destruct i; discriminate.
Qed.

Lemma world_of_prints_all (fs : pystr -> option file)
    (answer : option response) :
  prints_all (world_of fs answer).
Proof. intros line. unfold prints. simpl. apply orb_true_r. Qed.

Lemma world_of_sleeps (fs : pystr -> option file) (answer : option response) :
  sleeps (world_of fs answer) (JInt 1).
Proof. split; [reflexivity | intros history; reflexivity]. Qed.

Lemma echo_world_prints_all : prints_all echo_world.
Proof. intros line. unfold prints. simpl. apply orb_true_r. Qed.

Lemma echo_world_sleeps : sleeps echo_world (JInt 1).
Proof. split; [reflexivity | intros history; reflexivity]. Qed.

Lemma echo_carries (texts : list pystr) :
  carries (translations_body (map translation texts)) (map JStr texts).
Proof.
  exists (map translation texts). split; [reflexivity|].
  intros i text Hi. rewrite nth_error_map in Hi.
  destruct (nth_error texts i) as [t|] eqn:Ht; [|discriminate].
  inversion Hi; subst text. exists (translation t).
  rewrite nth_error_map, Ht. split; reflexivity.
Qed.

Lemma echo_world_orderly : orderly echo_world.
Proof.
  intros history req. simpl. right.
  exists (translations_body (map translation (req_text req))),
         (map JStr (req_text req)).
  split; [reflexivity|]. split; [apply echo_carries|].
  split; [apply length_map|].
  intros H. rewrite forallb_forall in H. apply forallb_forall.
  intros v Hv. apply in_map_iff in Hv. destruct Hv as [text [<- Hin]].
  simpl. apply H. exact Hin.
Qed.

Lemma echo_world_answers : answers_with echo_world JStr.
Proof.
  intros history req. eexists _, _. split; [reflexivity|].
  split; [reflexivity|]. split; [reflexivity|]. apply echo_carries.
Qed.

(** C1 at the sample document, cut into two batches. *)
Lemma result_keys_equal_source_keys_witness :
  exists result,
    files (snd (@translate_json_file excerpt_unicode (sample_translator 2)
                  sample_world))
          (lit "output.json")
    = Some (Json (JObj result)) /\
    dict_keys result = sample_keys.
Proof.
  destruct (@result_keys_equal_source_keys excerpt_unicode
              (sample_translator 2) sample_world
              (snd (@translate_json_file excerpt_unicode (sample_translator 2)
                      sample_world))
              sample_document 2 (lit "input.json") (lit "output.json"))
    as [result [Hfile [_ [_ [_ Horder]]]]].
  - reflexivity.
  - discriminate.
  - reflexivity.
  - reflexivity.
  - reflexivity.
  - vm_compute. reflexivity.
  - exists result. split; [exact Hfile|].
    apply Horder. exact sample_keys_NoDup.
Defined.

(** C4 at the sample batch. *)
Lemma translate_batch_success_mapping_witness :
  fst (@translate_batch excerpt_unicode (sample_translator 3) sample_keys
         sample_world)
  = Returned [ (flame_sword_ja, JStr (lit "Flame Sword"));
               (fire_sword, JStr (lit "Fire Sword"));
               (shield_ja, JStr (lit "Shield")) ] /\
  posts (trace (snd (@translate_batch excerpt_unicode (sample_translator 3)
                       sample_keys sample_world)))
  = [build_request (sample_translator 3) [flame_sword_ja; shield_ja]].
Proof.
  destruct (@translate_batch_success_mapping excerpt_unicode
              (sample_translator 3) sample_keys sample_world sample_answer
              (translations_body [translation (lit "Flame Sword");
                                  translation (lit "Shield")])
              [JStr (lit "Flame Sword"); JStr (lit "Shield")])
    as [_ Hexample].
  - exact sample_keys_NoDup.
  - vm_compute. discriminate.
  - vm_compute. reflexivity.
  - reflexivity.
  - reflexivity.
  - reflexivity.
  - exact sample_answer_carries.
  - reflexivity.
  - vm_compute. repeat constructor.
  - apply world_of_sleeps.
  - destruct (Hexample (excerpt_uncased 0x708E eq_refl)
                       (excerpt_uncased 0x306E eq_refl)
                       (excerpt_uncased 0x5263 eq_refl)
                       (excerpt_uncased 0x76FE eq_refl) sample_world eq_refl
                       eq_refl eq_refl (world_of_sleeps _ _))
      as [_ [_ [_ [Hposts Hresult]]]].
    split; [exact Hresult | exact Hposts].
Defined.

(** C5 at the three sample keys and a batch size of two: two batches, and
    the loop of the orchestrator runs the batch translator on each in
    turn. *)
Lemma batches_partition_keys_witness :
  (1 <= 2)%Z /\
  exists indices,
    py_range 0 (Z.of_nat (length sample_keys)) 2 = Returned indices /\
    length (batches_of sample_keys 2 indices) = 2 /\
    concat (batches_of sample_keys 2 indices) = sample_keys /\
    @batch_loop excerpt_unicode (sample_translator 2) sample_keys 3 indices
      [] 0 sample_world
    = @process_batches excerpt_unicode (sample_translator 2) 3 2
        (batches_of sample_keys 2 indices) 1 [] 0 sample_world /\
    @translate_json_file excerpt_unicode (sample_translator 2) sample_world
    = (print (MsgStarting 3 (JInt 2)) ;;
       done <- @process_batches excerpt_unicode (sample_translator 2) 3 2
                 (batches_of sample_keys 2 indices) 1 [] 0 ;;
       dump_json_file (JStr (lit "output.json")) (fst done) ;;
       print (MsgComplete (JStr (lit "output.json"))) ;;
       print (MsgTotalEntries (snd done)) ;;
       print (MsgTotalCalls 2)) sample_world.
Proof.
  split; [discriminate|].
  destruct (@batches_partition_keys excerpt_unicode (sample_translator 2)
              sample_keys 2)
    as [indices [Hrange [_ [Hcount [Hconcat [_ [_ [_ [_ [Hloop Hfile]]]]]]]]]].
  - discriminate.
  - exists indices. split; [exact Hrange|]. split.
    { apply Nat2Z.inj. rewrite Hcount. reflexivity. }
    split; [exact Hconcat|]. split.
    + exact (Hloop eq_refl 3 [] 0 sample_world).
    + exact (Hfile eq_refl sample_document (lit "input.json")
               (JStr (lit "output.json")) sample_world eq_refl eq_refl eq_refl
               eq_refl).
Defined.

(** C6 at a batch of two ASCII strings. *)
Lemma all_skipped_no_remote_call_witness :
  exists result,
    @translate_batch excerpt_unicode (sample_translator 3)
      [fire_sword; lit "Menu"] sample_world
    = (Returned result, sample_world) /\
    dict_get result fire_sword = Some (JStr fire_sword).
Proof.
  destruct (@all_skipped_no_remote_call excerpt_unicode (sample_translator 3)
              [fire_sword; lit "Menu"] sample_world)
    as [result [Hrun [_ [_ [Hget _]]]]].
  - intros text [<- | [<- | []]]; vm_compute; reflexivity.
  - exists result. split; [exact Hrun|].
    apply Hget. left. reflexivity.
Defined.

(** C7 at the sample batch: one sleep, after the request; and none when no
    response arrives. *)
Lemma delay_once_per_successful_call_witness :
  (exists d lines,
     @translate_batch excerpt_unicode (sample_translator 3) sample_keys
       sample_world
     = (Returned d,
        record_events sample_world
          (EvPost (build_request (sample_translator 3)
                     [flame_sword_ja; shield_ja])
           :: map EvPrint lines ++ [EvSleep (JInt 1)]))) /\
  (exists o events,
     @translate_batch excerpt_unicode (sample_translator 3) sample_keys
       (world_of sample_files None)
     = (o, record_events (world_of sample_files None) events) /\
     count_sleeps events = 0).
Proof.
  split.
  - destruct (@delay_once_per_successful_call excerpt_unicode
                (sample_translator 3) sample_keys sample_world)
      as [_ [_ [Hsuccess _]]].
    destruct (Hsuccess sample_answer
                (translations_body [translation (lit "Flame Sword");
                                    translation (lit "Shield")])
                [JStr (lit "Flame Sword"); JStr (lit "Shield")])
      as [d [lines [Hrun _]]].
    + vm_compute. discriminate.
    + vm_compute. reflexivity.
    + reflexivity.
    + reflexivity.
    + reflexivity.
    + exact sample_answer_carries.
    + reflexivity.
    + vm_compute. repeat constructor.
    + apply world_of_sleeps.
    + exists d, lines. exact Hrun.
  - destruct (@delay_once_per_successful_call excerpt_unicode
                (sample_translator 3) sample_keys
                (world_of sample_files None))
      as [_ [Hfailure _]].
    destruct Hfailure as [o [events [Hrun [Hcount _]]]].
    + vm_compute. discriminate.
    + vm_compute. reflexivity.
    + exists o, events. split; [exact Hrun | exact Hcount].
Defined.

(** C9 at a file system without the input document. *)
Lemma fatal_conditions_exit_nonzero_witness :
  exit_status (fst (@main excerpt_unicode
                      (world_of files_without_input (Some sample_answer))))
  <> 0%Z /\
  files (snd (@main excerpt_unicode
                (world_of files_without_input (Some sample_answer))))
  = files_without_input.
Proof.
  destruct (@fatal_conditions_exit_nonzero excerpt_unicode
              (world_of files_without_input (Some sample_answer)))
    as [_ [_ [_ Hinput]]].
  destruct (Hinput (sample_translator 3)
              (world_of files_without_input (Some sample_answer))
              (lit "input.json"))
    as [Hexit [Hfiles _]].
  - reflexivity.
  - reflexivity.
  - reflexivity.
  - split; [exact Hexit | exact Hfiles].
Defined.

(** C10 at the sample batch and a response with one element too many. *)
Lemma merge_walk_in_bounds_witness :
  fst (@translate_batch excerpt_unicode (sample_translator 3) sample_keys
         sample_world)
  <> Raised IndexError /\
  @merge_loop excerpt_unicode
    (JArr ([translation (lit "Flame Sword"); translation (lit "Shield")]
           ++ [translation (lit "Extra")]))
    sample_keys [] 0 sample_world
  = @merge_loop excerpt_unicode
      (JArr [translation (lit "Flame Sword"); translation (lit "Shield")])
      sample_keys [] 0 sample_world.
Proof.
  destruct (@merge_walk_in_bounds excerpt_unicode (sample_translator 3)
              sample_keys
              [translation (lit "Flame Sword"); translation (lit "Shield")]
              [translation (lit "Extra")] sample_world sample_answer
              (translations_body [translation (lit "Flame Sword");
                                  translation (lit "Shield")]))
    as [_ [_ [_ [Hextra Hbatch]]]].
  - vm_compute. repeat constructor.
  - split; [|apply Hextra].
    apply Hbatch; reflexivity.
Defined.

(** C3 at a Japanese word followed by a token in capitals, and at the word
    alone. *)
Lemma is_already_translated_spec_witness :
  @is_already_translated excerpt_unicode (flame_sword_ja ++ lit "FIRE") = true
  /\ @is_already_translated excerpt_unicode flame_sword_ja = false.
Proof.
  split.
  - apply (proj1 (@is_already_translated_spec excerpt_unicode
                    (flame_sword_ja ++ lit "FIRE"))).
    right. exists (lit "Fire"). split.
    + vm_compute. tauto.
    + exists flame_sword_ja, []. vm_compute. reflexivity.
  - vm_compute. reflexivity.
Defined.

(** C8 at the sample configuration, whose key ends with ":fx": the
    construction on the sample files returns a translator with the
    free-tier URL, and its requests go there. *)
Lemma endpoint_from_credential_witness :
  select_api_url (lit "0123:fx") = free_api_url /\
  select_api_url (lit "0123") = paid_api_url /\
  exists self,
    init (lit "config.json") sample_world = (Returned self, sample_world) /\
    api_key self = lit "0123:fx" /\
    api_url self = free_api_url /\
    req_url (@build_request self [flame_sword_ja]) = free_api_url.
Proof.
  assert (Hfree : select_api_url (lit "0123:fx") = free_api_url).
  { apply (proj1 (endpoint_from_credential (lit "0123:fx"))).
    exists (lit "0123"). reflexivity. }
  split; [exact Hfree|]. split.
  - apply (proj1 (proj2 (endpoint_from_credential (lit "0123")))).
    intros Hex. apply endswith_spec in Hex. vm_compute in Hex. discriminate.
  - destruct (endpoint_from_credential (lit "0123:fx"))
      as [_ [_ [_ [Hinit _]]]].
    destruct (Hinit (lit "config.json") sample_world
                (sample_config (lit "0123:fx") 3)
                (JStr (lit "JA")) (JStr (lit "EN")) (JInt 1) (JInt 3))
      as [self [Hrun [_ [Hkey [Hurl Hreq]]]]].
    + reflexivity.
    + reflexivity.
    + apply pystr_eqb_neq. vm_compute. reflexivity.
    + reflexivity.
    + reflexivity.
    + reflexivity.
    + reflexivity.
    + exists self. split; [exact Hrun|]. split; [exact Hkey|].
      split; [rewrite Hurl; exact Hfree|].
      rewrite (Hreq [flame_sword_ja]). exact Hfree.
Defined.

(** X1 at the sample document and the echoing service. *)
Lemma translate_json_file_completes_witness :
  exists w',
    @translate_json_file excerpt_unicode (sample_translator 2) echo_world
    = (Returned tt, w').
Proof.
  apply (@translate_json_file_completes excerpt_unicode (sample_translator 2)
           echo_world sample_document 2 (lit "input.json")
           (lit "output.json")).
  - reflexivity.
  - discriminate.
  - exact echo_world_sleeps.
  - vm_compute. reflexivity.
  - reflexivity.
  - reflexivity.
  - reflexivity.
  - vm_compute. reflexivity.
  - reflexivity.
  - exact echo_world_prints_all.
  - exact echo_world_orderly.
Defined.

(** X2 at the sample batch when no response arrives. *)
Lemma request_failure_identity_witness :
  exists events,
    @translate_batch excerpt_unicode (sample_translator 3) sample_keys
      (world_of sample_files None)
    = (Returned (identity_mapping sample_keys),
       record_events (world_of sample_files None) events) /\
    posts events
    = [build_request (sample_translator 3) [flame_sword_ja; shield_ja]].
Proof.
  destruct (@request_failure_identity excerpt_unicode (sample_translator 3)
              sample_keys (world_of sample_files None))
    as [Hcaught _].
  - vm_compute. discriminate.
  - vm_compute. reflexivity.
  - destruct Hcaught as [events [Hrun [Hposts _]]].
    + intros why. apply world_of_prints_all.
    + exists events. split; [exact Hrun | exact Hposts].
Defined.


(** X5 at the sample document: the ASCII key keeps its text. *)
Lemma skipped_keys_unchanged_witness :
  exists out result,
    files (snd (@translate_json_file excerpt_unicode (sample_translator 2)
                  sample_world)) out
    = Some (Json (JObj result)) /\
    dict_get result fire_sword = Some (JStr fire_sword).
Proof.
  destruct (@skipped_keys_unchanged excerpt_unicode (sample_translator 2)
              sample_world
              (snd (@translate_json_file excerpt_unicode (sample_translator 2)
                      sample_world))
              sample_document 2 (lit "input.json"))
    as [out [result [_ [Hfile Hskip]]]].
  - reflexivity.
  - discriminate.
  - reflexivity.
  - reflexivity.
  - vm_compute. reflexivity.
  - exists out, result. split; [exact Hfile|].
    apply Hskip; [right; left; reflexivity | vm_compute; reflexivity].
Defined.

(** X6 at the sample document when no response ever arrives. *)
Lemma unreachable_service_identity_output_witness :
  exists w' result,
    @translate_json_file excerpt_unicode (sample_translator 2)
      (world_of sample_files None)
    = (Returned tt, w') /\
    files w' (lit "output.json") = Some (Json (JObj result)) /\
    dict_get result shield_ja = Some (JStr shield_ja).
Proof.
  destruct (@unreachable_service_identity_output excerpt_unicode
              (sample_translator 2) (world_of sample_files None)
              sample_document 2 (lit "input.json") (lit "output.json"))
    as [w' [result [Hrun [Hfile [Hid _]]]]].
  - reflexivity.
  - discriminate.
  - vm_compute. reflexivity.
  - reflexivity.
  - reflexivity.
  - reflexivity.
  - vm_compute. reflexivity.
  - reflexivity.
  - apply world_of_prints_all.
  - intros history req. reflexivity.
  - exists w', result. split; [exact Hrun|]. split; [exact Hfile|].
    apply Hid. right. right. left. reflexivity.
Defined.

(** X7 at the sample document and the echoing service. *)
Lemma translating_service_output_witness :
  exists w' result,
    @translate_json_file excerpt_unicode (sample_translator 2) echo_world
    = (Returned tt, w') /\
    files w' (lit "output.json") = Some (Json (JObj result)) /\
    dict_get result shield_ja = Some (JStr shield_ja) /\
    dict_get result fire_sword = Some (JStr fire_sword).
Proof.
  destruct (@translating_service_output excerpt_unicode
              (sample_translator 2) echo_world sample_document 2
              (lit "input.json") (lit "output.json") JStr)
    as [w' [result [Hrun [Hfile [Hval _]]]]].
  - reflexivity.
  - discriminate.
  - exact echo_world_sleeps.
  - vm_compute. reflexivity.
  - reflexivity.
  - reflexivity.
  - reflexivity.
  - vm_compute. reflexivity.
  - intros text [<- | [<- | [<- | []]]]; vm_compute; reflexivity.
  - reflexivity.
  - exact echo_world_prints_all.
  - exact echo_world_answers.
  - exists w', result. split; [exact Hrun|]. split; [exact Hfile|]. split.
    + rewrite (Hval shield_ja); [|right; right; left; reflexivity].
      vm_compute. reflexivity.
    + rewrite (Hval fire_sword); [|right; left; reflexivity].
      vm_compute. reflexivity.
Defined.

(** X8 at the sample document in batches of two: two batches reported, and
    two requests. *)
Lemma summary_counts_witness :
  exists out result indices events,
    py_range 0 (Z.of_nat (length sample_document)) 2 = Returned indices /\
    Z.of_nat (length (batches_of (dict_keys sample_document) 2 indices))
    = 2%Z /\
    count_posts events
    = @calls_needed excerpt_unicode
        (batches_of (dict_keys sample_document) 2 indices) /\
    In (EvWrite out result)
       (trace (snd (@translate_json_file excerpt_unicode (sample_translator 2)
                      sample_world))).
Proof.
  destruct (@summary_counts excerpt_unicode (sample_translator 2) sample_world
              (snd (@translate_json_file excerpt_unicode (sample_translator 2)
                      sample_world))
              sample_document 2 (lit "input.json"))
    as [out [result [indices [events [Hrange [Htrace [Hcount [Hcalls _]]]]]]]].
  - reflexivity.
  - discriminate.
  - reflexivity.
  - reflexivity.
  - vm_compute. reflexivity.
  - exists out, result, indices, events. split; [exact Hrange|].
    split; [rewrite Hcount; reflexivity|]. split; [exact Hcalls|].
    rewrite Htrace. apply in_or_app. right. right.
    apply in_or_app. right. left. reflexivity.
Defined.

(** X9 at the sample document and a batch size of -2. *)
Lemma nonpositive_batch_size_witness :
  exists w',
    @translate_json_file excerpt_unicode (sample_translator (-2)) sample_world
    = (Returned tt, w') /\
    files w' (lit "output.json") = Some (Json (JObj [])).
Proof.
  destruct (@nonpositive_batch_size excerpt_unicode (sample_translator (-2))
              sample_world sample_document (lit "input.json")
              (lit "output.json"))
    as [_ [Hnegative _]].
  - reflexivity.
  - reflexivity.
  - reflexivity.
  - destruct (Hnegative (-2)%Z) as [w' [Hrun [Hfile _]]].
    + reflexivity.
    + reflexivity.
    + reflexivity.
    + reflexivity.
    + exists w'. split; [exact Hrun | exact Hfile].
Defined.




(** X13 at an empty input object. *)
Lemma empty_document_empty_output_witness :
  exists w',
    @translate_json_file excerpt_unicode (sample_translator 3)
      (world_of (files_with_input 3 (Json (JObj []))) None)
    = (Returned tt, w') /\
    files w' (lit "output.json") = Some (Json (JObj [])).
Proof.
  destruct (@empty_document_empty_output excerpt_unicode (sample_translator 3)
              (world_of (files_with_input 3 (Json (JObj []))) None)
              3 (lit "input.json") (lit "output.json"))
    as [w' [Hrun [Hfile _]]].
  - reflexivity.
  - discriminate.
  - reflexivity.
  - reflexivity.
  - reflexivity.
  - reflexivity.
  - reflexivity.
  - exists w'. split; [exact Hrun | exact Hfile].
Defined.
(* ================================================================= *)
(** ** A token anywhere in a string *)

Section TokenAnywhere.
Context {U : UnicodeData}.

Lemma lower_from_suffix (x y : pystr) :
  forall before,
    exists image,
      lower_from before (x ++ y) = image ++ lower_from (before ++ x) y.
Proof.
  induction x as [|c x IH]; intros before; simpl.
  - exists []. rewrite app_nil_r. reflexivity.
  - destruct (IH (before ++ [c])) as [image Himage].
    exists ((if (c <? 128)%N then [ascii_lower c]
             else to_lower_full before c (x ++ y)) ++ image).
    rewrite Himage, <- !app_assoc. reflexivity.
Qed.

Lemma lower_from_ascii_app (run rest : pystr) :
  Forall (fun c => (c < 128)%N) run ->
  forall before,
    lower_from before (run ++ rest)
    = map ascii_lower run ++ lower_from (before ++ run) rest.
Proof.
  induction 1 as [|c run Hc Hrun IH]; intros before; simpl.
  - rewrite app_nil_r. reflexivity.
  - apply N.ltb_lt in Hc. rewrite Hc, IH, <- app_assoc. reflexivity.
Qed.

Lemma lower_from_ascii (s before : pystr) :
  Forall (fun c => (c < 128)%N) s -> lower_from before s = map ascii_lower s.
Proof.
  intros Hs. apply lower_from_plain.
  eapply Forall_impl; [|exact Hs]. intros c Hc. left. exact Hc.
Qed.

Lemma ascii_lower_ascii (c : N) :
  (ascii_lower c < 128)%N <-> (c < 128)%N.
Proof.
  unfold ascii_lower.
  destruct ((65 <=? c) && (c <=? 90))%N eqn:E; [|tauto].
  apply andb_true_iff in E. destruct E as [_ E]. apply N.leb_le in E.
  split; intros _; lia.
Qed.

Lemma same_letters_ascii (u token : pystr) :
  map ascii_lower u = map ascii_lower token ->
  Forall (fun c => (c < 128)%N) token ->
  Forall (fun c => (c < 128)%N) u.
Proof.
  revert token; induction u as [|c u IH]; intros [|t token] Heq Htoken;
    try discriminate; [constructor|].
  inversion Heq. inversion Htoken; subst. constructor.
  - apply ascii_lower_ascii. rewrite H0. apply ascii_lower_ascii. assumption.
  - eapply IH; eassumption.
Qed.

(** X14.  The allow-list works on substrings, not on words: a string that
    holds, anywhere, a run equal to a token up to the case of its letters is
    skipped, whatever stands before and after the run and whatever the
    Unicode tables say about the other characters. *)
Theorem token_substring_skips (before run after token : pystr) :
  In token english_patterns ->
  map ascii_lower run = map ascii_lower token ->
  is_already_translated (before ++ run ++ after) = true.
Proof.
  intros Hin Hsame.
  pose proof (english_patterns_ascii token Hin) as Htoken.
  pose proof (same_letters_ascii run token Hsame Htoken) as Hrun.
  unfold is_already_translated.
  destruct (encodes_ascii (before ++ run ++ after)); [reflexivity|].
  apply existsb_exists. exists token. split; [exact Hin|].
  apply str_contains_spec. unfold lower.
  destruct (lower_from_suffix before (run ++ after) []) as [image Himage].
  rewrite Himage, (lower_from_ascii_app run after Hrun),
    (lower_from_ascii token _ Htoken), Hsame.
  eexists _, _. reflexivity.
Qed.

End TokenAnywhere.

(** X14 at a Japanese word with "PRICE" before it, which holds "ice". *)
Lemma token_substring_skips_witness :
  @is_already_translated excerpt_unicode (lit "PR" ++ lit "ICE" ++ flame_sword_ja)
  = true.
Proof.
  apply (@token_substring_skips excerpt_unicode (lit "PR") (lit "ICE")
           flame_sword_ja (lit "Ice")).
  - vm_compute. tauto.
  - reflexivity.
Defined.
